(** * Page edits of papermerge-core: a shallow embedding of
    [papermerge/core/views/pages.py] and [papermerge/core/serializers/page.py]

    The views of [pages.py] edit a document by producing a new document
    version: delete, reorder, rotate, move to a folder, move to another
    document.  The embedding threads an explicit store (database tables,
    payload files, per-page artifacts) through a state-and-exception monad,
    one definition per Python function, under the function's own name. *)

From stdpp Require Import gmap strings list pretty sorting.
From Stdlib Require Import ZArith Ascii.

Local Open Scope Z_scope.

(** ** Data model *)

(** A row of [models.Page]; the primary key is the row's index in the table. *)
Record Page := mkPage {
  number : Z;
  text : string;
  lang : string;
  document_version : nat
}.

(** A row of [models.DocumentVersion]. *)
Record DocumentVersion := mkVersion {
  document : nat;
  version_number : Z;
  page_count : Z;
  version_text : string;
  version_lang : string
}.

(** A row of [models.Document]. *)
Record Document := mkDocument {
  title : string;
  doc_lang : string;
  user_id : nat;
  parent : nat
}.

(** A row of [models.Folder]. *)
Record Folder := mkFolder {
  folder_user_id : nat
}.

(** A page of a PDF payload as the binary codec (pikepdf) sees it: what is
    drawn on it, and its [/Rotate] entry. *)
Record PdfPage := mkPdfPage {
  content : nat;
  Rotate : Z
}.

Abbreviation Pdf := (list PdfPage).

(** The store: the four tables, the payload file of each version (the file
    at [version.document_path], keyed by the version's primary key) and the
    storage's per-page artifacts (keyed by [PagePath(document_path,
    page_num)]). *)
#[projections(primitive)]
Record Store := mkStore {
  documents : list Document;
  folders : list Folder;
  versions : list DocumentVersion;
  pages : list Page;
  files : gmap nat Pdf;
  page_files : gmap (nat * Z) string
}.

(** ** Exceptions and the monad of the views *)

Inductive Error :=
| APIBadRequest (detail : string)
| DoesNotExist
| AttributeError
| KeyError (key : Z)
| IndexError
| ValueError
| RuntimeError
| TypeError
| FileNotFoundError.

Inductive Result (A : Type) :=
| Ok (a : A)
| Raise (e : Error).
Arguments Ok {A} a.
Arguments Raise {A} e.

Definition M (A : Type) : Type := Store → Result A * Store.

Definition ret {A} (a : A) : M A := λ s, (Ok a, s).

Definition bind {A B} (m : M A) (k : A → M B) : M B :=
  λ s, match m s with
       | (Ok a, s') => k a s'
       | (Raise e, s') => (Raise e, s')
       end.

Definition raise {A} (e : Error) : M A := λ s, (Raise e, s).

Definition gets {A} (f : Store → A) : M A := λ s, (Ok (f s), s).

Definition modify (f : Store → Store) : M unit := λ s, (Ok tt, f s).

Definition lift {A} (r : Result A) : M A := λ s, (r, s).

Definition from_option {A} (e : Error) (o : option A) : M A :=
  match o with
  | Some a => ret a
  | None => raise e
  end.

Notation "x <- c1 ;; c2" := (bind c1 (λ x, c2))
  (at level 20, c1 at level 99, c2 at level 200, only parsing).
Notation "c1 ;; c2" := (bind c1 (λ _, c2))
  (at level 100, c2 at level 200, right associativity, only parsing).

(** [for x in xs: body] *)
Fixpoint for_each {A} (xs : list A) (body : A → M unit) : M unit :=
  match xs with
  | [] => ret tt
  | x :: xs' => body x ;; for_each xs' body
  end.

(** Python's [range(a, b)]. *)
Definition range (a b : Z) : list Z := seqZ a (b - a).

Definition len {A} (l : list A) : Z := Z.of_nat (length l).

(** ** Store updates *)

Definition set_versions (f : list DocumentVersion → list DocumentVersion)
    (s : Store) : Store :=
  mkStore (documents s) (folders s) (f (versions s)) (pages s) (files s)
          (page_files s).

Definition set_pages (f : list Page → list Page) (s : Store) : Store :=
  mkStore (documents s) (folders s) (versions s) (f (pages s)) (files s)
          (page_files s).

Definition set_documents (f : list Document → list Document)
    (s : Store) : Store :=
  mkStore (f (documents s)) (folders s) (versions s) (pages s) (files s)
          (page_files s).

Definition set_folders (f : list Folder → list Folder) (s : Store) : Store :=
  mkStore (documents s) (f (folders s)) (versions s) (pages s) (files s)
          (page_files s).

Definition set_files (f : gmap nat Pdf → gmap nat Pdf) (s : Store) : Store :=
  mkStore (documents s) (folders s) (versions s) (pages s) (f (files s))
          (page_files s).

Definition set_page_files
    (f : gmap (nat * Z) string → gmap (nat * Z) string) (s : Store) : Store :=
  mkStore (documents s) (folders s) (versions s) (pages s) (files s)
          (f (page_files s)).

(** ** Query sets *)

(** A stable insertion sort on an integer key: [sorted(xs, key=...)] and
    [order_by]. *)
Fixpoint insert_by {A} (key : A → Z) (x : A) (l : list A) : list A :=
  match l with
  | [] => [x]
  | y :: l' =>
      if bool_decide (key x ≤ key y) then x :: y :: l'
      else y :: insert_by key x l'
  end.

Definition sorted_by {A} (key : A → Z) (l : list A) : list A :=
  foldr (insert_by key) [] l.

(** An evaluated query set of pages: primary key and row. *)
Abbreviation PageSet := (list (nat * Page)).

Definition all_rows (s : Store) : PageSet := imap (λ i p, (i, p)) (pages s).

(** [Page.Meta.ordering] is by page number. *)
Definition order_by_number (q : PageSet) : PageSet :=
  sorted_by (λ r, number r.2) q.

(** [Page.objects.filter(pk__in=ids)].  A query set is lazy: it is run
    against the store each time it is used. *)
Definition select (ids : list nat) (s : Store) : PageSet :=
  order_by_number (filter (λ r, r.1 ∈ ids) (all_rows s)).

Definition Page_objects_filter (ids : list nat) : M PageSet :=
  gets (select ids).

(** [version.pages.all()] *)
Definition version_pages (v : nat) (s : Store) : PageSet :=
  order_by_number (filter (λ r, document_version r.2 = v) (all_rows s)).

Definition pages_all (v : nat) : M PageSet := gets (version_pages v).

(** [version.pages.count()] *)
Definition pages_count (v : nat) : M Z := gets (λ s, len (version_pages v s)).

(** [queryset.first()]: [None] on an empty query set. *)
Definition first (q : PageSet) : option (nat * Page) := head q.

(** Reading an attribute of [None]. *)
Definition not_None {A} (o : option A) : M A := from_option AttributeError o.

(** Following a foreign key to a [DocumentVersion] row. *)
Definition Version_get (v : nat) : M DocumentVersion :=
  o <- gets (λ s, versions s !! v) ;; from_option DoesNotExist o.

(** [document.versions.last()]: the most recently created version of the
    document, its current one. *)
Definition versions_of (d : nat) (s : Store) : list (nat * DocumentVersion) :=
  filter (λ r, document r.2 = d) (imap (λ i v, (i, v)) (versions s)).

Definition versions_last (d : nat) : M (option nat) :=
  gets (λ s, fst <$> last (versions_of d s)).

Definition Page_get (pk : nat) : M Page :=
  o <- gets (λ s, pages s !! pk) ;; from_option DoesNotExist o.

(** [Document.objects.get(pk=..., user=...)] and [Folder.objects.get]. *)
Definition Document_get (pk user : nat) : M Document :=
  o <- gets (λ s, documents s !! pk) ;;
  d <- from_option DoesNotExist o ;;
  if bool_decide (user_id d = user) then ret d else raise DoesNotExist.

Definition Folder_get (pk user : nat) : M Folder :=
  o <- gets (λ s, folders s !! pk) ;;
  f <- from_option DoesNotExist o ;;
  if bool_decide (folder_user_id f = user) then ret f else raise DoesNotExist.

(** ** The binary codec (pikepdf): a page-addressable payload *)

(** [Pdf.open(abs_path(version.document_path.url))] *)
Definition Pdf_open (v : nat) : M Pdf :=
  o <- gets (λ s, files s !! v) ;; from_option FileNotFoundError o.

(** [pdf.save(abs_path(version.document_path.url))], after
    [os.makedirs(dirname, exist_ok=True)]. *)
Definition Pdf_save (v : nat) (pdf : Pdf) : M unit :=
  modify (set_files (λ fs, <[v := pdf]> fs)).

(** [pdf.pages.p(n)]: the page with 1-based number [n]. *)
Definition pages_p (pdf : Pdf) (n : Z) : Result PdfPage :=
  if bool_decide (1 ≤ n) then
    match pdf !! Z.to_nat (n - 1) with
    | Some p => Ok p
    | None => Raise IndexError
    end
  else Raise IndexError.

(** [pdf.pages.remove(p=n)] *)
Definition pages_remove (pdf : Pdf) (p : Z) : Result Pdf :=
  if bool_decide (1 ≤ p ≤ len pdf) then Ok (delete (Z.to_nat (p - 1)) pdf)
  else Raise IndexError.

(** [pdf.pages.insert(index, page)]: 0-based; a negative index counts from
    the end, and an index that is still negative or beyond the end is
    refused. *)
Definition pages_insert (pdf : Pdf) (index : Z) (page : PdfPage) : Result Pdf :=
  let index := if bool_decide (index < 0) then index + len pdf else index in
  if bool_decide (0 ≤ index ≤ len pdf) then
    Ok (take (Z.to_nat index) pdf ++ page :: drop (Z.to_nat index) pdf)
  else Raise IndexError.

(** The range of a C [int], and the wrap-around of its arithmetic. *)
Definition INT_MIN : Z := - 2 ^ 31.
Definition INT_MAX : Z := 2 ^ 31 - 1.

Definition wrap (z : Z) : Z := (z - INT_MIN) `mod` 2 ^ 32 + INT_MIN.

(** [page.rotate(angle, relative=True)], that is qpdf's
    [rotatePage(int angle, bool relative)] behind the codec's binding.  The
    binding takes [angle] as a C [int] and refuses a Python [int] outside
    its range with [TypeError]; the codec raises [std::runtime_error], in
    Python [RuntimeError], for an angle that is not a multiple of 90.
    Otherwise [/Rotate] becomes [(angle + old_angle + 360) % 360], computed
    on C [int]s: [%] truncates, so the result has the sign of the dividend
    ([Z.rem]), and the additions are taken to wrap around where they leave
    the range of [int]. *)
Definition rotate (page : PdfPage) (angle : Z) : Result PdfPage :=
  if bool_decide (INT_MIN ≤ angle ≤ INT_MAX) then
    if bool_decide (Z.rem angle 90 = 0) then
      let new_angle := wrap (angle + Rotate page) in
      Ok (mkPdfPage (content page) (Z.rem (wrap (new_angle + 360)) 360))
    else Raise RuntimeError
  else Raise TypeError.

(** ** The storage collaborator *)

(** Modelled from the spec: [get_storage_instance().copy_page(src=...,
    dst=...)] ([papermerge.core.storage] is not among the sources).  The
    artifact at the source page path is copied to the destination page
    path; a page without artifact gets no copy. *)
Definition copy_page (src dst : nat * Z) : M unit :=
  modify (set_page_files (λ m,
    match m !! src with
    | Some a => <[dst := a]> m
    | None => m
    end)).

(** ** The models and [lib.utils], which the views import *)

(** Modelled from the spec: [Page.is_archived] ([papermerge.core.models] is
    not among the sources).  A page is archived when its version is not the
    current, that is the last, version of its document. *)
Definition is_archived (p : Page) : M bool :=
  v <- Version_get (document_version p) ;;
  cur <- versions_last (document v) ;;
  ret (bool_decide (cur ≠ Some (document_version p))).

(** The pages [version_bump] creates: numbered from 1, without text. *)
Definition placeholders (lang : string) (v : nat) (n : Z) : list Page :=
  (λ i, mkPage i "" lang v) <$> range 1 (n + 1).

(** Modelled from the spec: [Document.version_bump(page_count=None)].  The
    new version becomes the document's current one and has [page_count]
    placeholder pages numbered from 1; without an argument the count of the
    current version is kept. *)
Definition version_bump (doc : nat) (target : option Z) : M nat :=
  cur <- versions_last doc ;;
  cur <- not_None cur ;;
  cur_row <- Version_get cur ;;
  let n := default (page_count cur_row) target in
  new_version <- gets (λ s, length (versions s)) ;;
  modify (set_versions (λ vs, vs ++
    [mkVersion doc (version_number cur_row + 1) n "" (version_lang cur_row)])) ;;
  modify (set_pages (λ ps, ps ++
    placeholders (version_lang cur_row) new_version n)) ;;
  ret new_version.

(** Modelled from the spec: [Document.objects.create_document].  A document
    row in the parent folder, with an initial version that has no page yet
    (the tests read [doc.versions.last()] right after the call). *)
Definition create_document (title lang : string) (user_id : nat)
    (parent : nat) : M nat :=
  doc <- gets (λ s, length (documents s)) ;;
  modify (set_documents (λ ds, ds ++ [mkDocument title lang user_id parent])) ;;
  modify (set_versions (λ vs, vs ++ [mkVersion doc 1 0 "" lang])) ;;
  ret doc.

(** The payload pages a page set stands for: each page's own PDF page, read
    from the payload of the page's version. *)
Fixpoint seed_payload (ps : PageSet) : M Pdf :=
  match ps with
  | [] => ret []
  | r :: ps' =>
      src <- Pdf_open (document_version r.2) ;;
      p <- lift (pages_p src (number r.2)) ;;
      rest <- seed_payload ps' ;;
      ret (p :: rest)
  end.

(** The page rows a version seeded from a page set gets: one per given
    page, numbered from 1, in the language of the page. *)
Definition seeded_rows (v : nat) (ps : PageSet) : list Page :=
  imap (λ i r, mkPage (Z.of_nat i + 1) "" (lang r.2) v) ps.

(** Modelled from the spec: [Document.version_bump_from_pages(pages)].  The
    new version is seeded, in the given order, from the page set: one page
    row per given page, numbered from 1, and a payload made of the given
    pages. *)
Definition version_bump_from_pages (doc : nat) (ps : PageSet) : M nat :=
  cur <- versions_last doc ;;
  cur <- not_None cur ;;
  cur_row <- Version_get cur ;;
  pdf <- seed_payload ps ;;
  new_version <- gets (λ s, length (versions s)) ;;
  modify (set_versions (λ vs, vs ++
    [mkVersion doc (version_number cur_row + 1) (len ps) ""
               (version_lang cur_row)])) ;;
  modify (set_pages (λ rows, rows ++ seeded_rows new_version ps)) ;;
  Pdf_save new_version pdf ;;
  ret new_version.

Definition set_text (t : string) (p : Page) : Page :=
  mkPage (number p) t (lang p) (document_version p).

Definition set_version_text (t : string) (v : DocumentVersion) : DocumentVersion :=
  mkVersion (document v) (version_number v) (page_count v) t (version_lang v).

(** Modelled from the spec: [DocumentVersion.update_text_field(streams)].
    The pages of the version, by number, take the texts of the streams in
    order; the version's text is these texts joined by one space. *)
Definition update_text_field (v : nat) (streams : list string) : M unit :=
  ps <- pages_all v ;;
  for_each (zip ps streams) (λ rt,
    modify (set_pages (alter (set_text rt.2) rt.1.1))) ;;
  modify (set_versions (alter
    (set_version_text (String.concat " " (take (length ps) streams))) v)).

(** Modelled from the spec: [lib.utils.get_assigns_after_delete].  The
    surviving pages, in ascending order of their old numbers, are renumbered
    from 1; the pairs are (new number, old number). *)
Definition get_assigns_after_delete (total_pages : Z)
    (deleted_pages : list Z) : list (Z * Z) :=
  let survivors := filter (λ n, n ∉ deleted_pages) (range 1 (total_pages + 1)) in
  zip (range 1 (len survivors + 1)) survivors.

(** An item of [PagesReorderSerializer.pages] and of
    [PagesRotateSerializer.pages]. *)
Record ReorderItem := mkReorder {
  reorder_id : nat;
  old_number : Z;
  new_number : Z
}.

Record RotateItem := mkRotate {
  rotate_id : nat;
  angle : Z
}.

(** Modelled from the spec: [lib.utils.get_reordered_list].  The new numbers
    must be exactly 1..[page_count], each once, else the request is invalid;
    the result lists, for the new positions in ascending order, the old
    number. *)
Definition get_reordered_list (pages_data : list ReorderItem)
    (page_count : Z) : Result (list Z) :=
  let by_new := sorted_by new_number pages_data in
  if bool_decide (new_number <$> by_new = range 1 (page_count + 1)) then
    Ok (old_number <$> by_new)
  else Raise ValueError.

(** Modelled from the spec: [lib.utils.annotate_page_data(pages, pages_data,
    'angle')].  Each page of the query set that the request names is paired
    with its number and the requested angle, as the docstring of
    [rotate_pdf_pages] expects. *)
Definition annotate_page_data (ps : PageSet) (pages_data : list RotateItem)
    : list (Z * Z) :=
  r ← ps; item ← pages_data;
  if bool_decide (rotate_id item = r.1) then [(number r.2, angle item)] else [].

(** ** [views/pages.py]: the side-data replicators and the PDF editors *)

Definition copy_pages_data (old_version new_version : nat)
    (pages_map : list (Z * Z)) : M unit :=
  for_each pages_map (λ item,
    let src_page_number := item.1 in
    let dst_page_number := item.2 in
    copy_page (old_version, src_page_number) (new_version, dst_page_number)).

Definition reuse_ocr_data (old_version new_version : nat)
    (page_map : list (Z * Z)) : M unit :=
  for_each page_map (λ item,
    let new_number := item.1 in
    let old_number := item.2 in
    copy_page (old_version, old_number) (new_version, new_number)).

(** [{page.number: page for page in version.pages.all()}]: a later page
    with the same number replaces an earlier one. *)
Definition pages_dict (ps : PageSet) : gmap Z Page :=
  foldl (λ m r, <[number r.2 := r.2]> m) ∅ ps.

Fixpoint collect_streams (pages_map : gmap Z Page) (page_numbers : list Z)
    : Result (list string) :=
  match page_numbers with
  | [] => Ok []
  | n :: rest =>
      match pages_map !! n with
      | None => Raise (KeyError n)
      | Some page =>
          match collect_streams pages_map rest with
          | Ok streams => Ok (text page :: streams)
          | Raise e => Raise e
          end
      end
  end.

Definition collect_text_streams (version : nat) (page_numbers : list Z)
    : M (list string) :=
  ps <- pages_all version ;;
  lift (collect_streams (pages_dict ps) page_numbers).

Definition reuse_text_field (old_version new_version : nat)
    (page_map : list (Z * Z)) : M unit :=
  streams <- collect_text_streams old_version (snd <$> page_map) ;;
  update_text_field new_version streams.

(** [pages] is the query set of the moved pages: [count] is the length of
    its cached result, [pages.all()] runs the query [ids] again. *)
Definition reuse_text_field_multi (src_old_version dst_old_version
    dst_new_version : nat) (position : Z) (ids : list nat) (count : Z)
    : M unit :=
  let page_map := (λ pos, (pos, pos)) <$> range 1 (position + 1) in
  s1 <- (if bool_decide (len page_map > 0) then
           collect_text_streams dst_old_version (snd <$> page_map)
         else ret []) ;;
  all <- Page_objects_filter ids ;;
  let page_map :=
    zip (range (position + 1) (count + 1)) ((λ r, number r.2) <$> all) in
  s2 <- collect_text_streams src_old_version (snd <$> page_map) ;;
  dst_new_total_pages <- pages_count dst_new_version ;;
  let _range := range (position + 1 + count) (dst_new_total_pages + 1) in
  let page_map := (λ pos, (pos, pos - position - count)) <$> _range in
  s3 <- collect_text_streams dst_old_version (snd <$> page_map) ;;
  update_text_field dst_new_version (s1 ++ s2 ++ s3).

Fixpoint insert_loop (src_old_pdf dst_old_pdf : Pdf) (position : Z)
    (_inserted_count : Z) (page_numbers : list Z) : Result Pdf :=
  match page_numbers with
  | [] => Ok dst_old_pdf
  | page_number :: rest =>
      match pages_p src_old_pdf page_number with
      | Raise e => Raise e
      | Ok pdf_page =>
          match pages_insert dst_old_pdf (position + _inserted_count) pdf_page with
          | Raise e => Raise e
          | Ok pdf =>
              insert_loop src_old_pdf pdf position (_inserted_count + 1) rest
          end
      end
  end.

Definition insert_pdf_pages (src_old_version dst_old_version
    dst_new_version : nat) (page_numbers : list Z) (position : Z) : M unit :=
  src_old_pdf <- Pdf_open src_old_version ;;
  dst_old_pdf <- Pdf_open dst_old_version ;;
  pdf <- lift (insert_loop src_old_pdf dst_old_pdf position 0 page_numbers) ;;
  Pdf_save dst_new_version pdf.

Fixpoint remove_loop (pdf : Pdf) (_deleted_count : Z)
    (pages_to_delete : list Z) : Result Pdf :=
  match pages_to_delete with
  | [] => Ok pdf
  | page_number :: rest =>
      match pages_remove pdf (page_number - _deleted_count) with
      | Raise e => Raise e
      | Ok pdf' => remove_loop pdf' (_deleted_count + 1) rest
      end
  end.

Definition remove_pdf_pages (old_version new_version : nat)
    (pages_to_delete : PageSet) : M unit :=
  pdf <- Pdf_open old_version ;;
  pdf <- lift (remove_loop pdf 0 ((λ r, number r.2) <$> pages_to_delete)) ;;
  Pdf_save new_version pdf.

Fixpoint append_loop (src dst : Pdf) (reodered_list : list ReorderItem)
    : Result Pdf :=
  match reodered_list with
  | [] => Ok dst
  | list_item :: rest =>
      match pages_p src (old_number list_item) with
      | Raise e => Raise e
      | Ok page => append_loop src (dst ++ [page]) rest
      end
  end.

Definition reorder_pdf_pages (old_version new_version : nat)
    (pages_data : list ReorderItem) (page_count : Z) : M unit :=
  src <- Pdf_open old_version ;;
  let reodered_list := sorted_by new_number pages_data in
  dst <- lift (append_loop src [] reodered_list) ;;
  Pdf_save new_version dst.

(** [pages_data]: pairs of a page number and an angle. *)
Fixpoint rotate_loop (src : Pdf) (pages_data : list (Z * Z)) : Result Pdf :=
  match pages_data with
  | [] => Ok src
  | page_data :: rest =>
      match pages_p src page_data.1 with
      | Raise e => Raise e
      | Ok page =>
          match rotate page page_data.2 with
          | Raise e => Raise e
          | Ok page' =>
              rotate_loop (<[Z.to_nat (page_data.1 - 1) := page']> src) rest
          end
      end
  end.

Definition rotate_pdf_pages (old_version new_version : nat)
    (pages_data : list (Z * Z)) : M unit :=
  src <- Pdf_open old_version ;;
  src <- lift (rotate_loop src pages_data) ;;
  Pdf_save new_version src.

Definition reuse_ocr_data_after_rotate (old_version new_version : nat)
    (pages_data : list (Z * Z)) (pages_count : Z) : M unit :=
  ret tt.

(** ** [views/pages.py]: the views *)

(** The two refusals of the delete views, under the names the
    specification gives them. *)
Definition ArchivedEditConflict : Error :=
  APIBadRequest "Deleting archived page is not allowed".

Definition InvariantViolation : Error :=
  APIBadRequest "Document version must have at least one page".

Definition numbers (ps : PageSet) : list Z := (λ r, number r.2) <$> ps.

(** [PageView.perform_destroy]; [instance] is the page [get_object] found. *)
Definition perform_destroy (instance : nat) : M unit :=
  row <- Page_get instance ;;
  archived <- is_archived row ;;
  if archived then raise ArchivedEditConflict else
  let old_version := document_version row in
  old_row <- Version_get old_version ;;
  let doc := document old_row in
  new_version <- version_bump doc (Some (page_count old_row - 1)) ;;
  pages_to_delete <- Page_objects_filter [instance] ;;
  remove_pdf_pages old_version new_version pages_to_delete ;;
  let page_map :=
    get_assigns_after_delete (page_count old_row) (numbers pages_to_delete) in
  reuse_ocr_data old_version new_version page_map ;;
  reuse_text_field old_version new_version page_map.

(** [PagesView.delete_pages] *)
Definition delete_pages (page_ids : list nat) : M unit :=
  q <- Page_objects_filter page_ids ;;
  let first_page := first q in
  pages_to_delete <- Page_objects_filter page_ids ;;
  for_each pages_to_delete (λ page,
    archived <- is_archived page.2 ;;
    if archived then raise ArchivedEditConflict else ret tt) ;;
  first_page <- not_None first_page ;;
  let old_version := document_version first_page.2 in
  count <- pages_count old_version ;;
  if bool_decide (count ≤ len pages_to_delete) then raise InvariantViolation
  else
  old_row <- Version_get old_version ;;
  let doc := document old_row in
  new_version <-
    version_bump doc (Some (page_count old_row - len pages_to_delete)) ;;
  remove_pdf_pages old_version new_version pages_to_delete ;;
  let page_map :=
    get_assigns_after_delete (page_count old_row) (numbers pages_to_delete) in
  reuse_ocr_data old_version new_version page_map ;;
  reuse_text_field old_version new_version page_map.

(** [PagesReorderView.reorder_pages] *)
Definition reorder_pages (pages_data : list ReorderItem) : M unit :=
  q <- Page_objects_filter (reorder_id <$> pages_data) ;;
  first_page <- not_None (first q) ;;
  let old_version := document_version first_page.2 in
  old_row <- Version_get old_version ;;
  let doc := document old_row in
  new_version <- version_bump doc (Some (page_count old_row)) ;;
  page_count <- pages_count old_version ;;
  reorder_pdf_pages old_version new_version pages_data page_count ;;
  reordered_list <- lift (get_reordered_list pages_data page_count) ;;
  let page_map := zip (range 1 (page_count + 1)) reordered_list in
  reuse_ocr_data old_version new_version page_map ;;
  reuse_text_field old_version new_version page_map.

(** [[(page.number, page.number) for page in old_version.pages.all()]]:
    the page map of a rotation. *)
Definition one_to_one (old_pages : PageSet) : list (Z * Z) :=
  (λ r, (number r.2, number r.2)) <$> old_pages.

(** [PagesRotateView.rotate_pages] *)
Definition rotate_pages (pages_data : list RotateItem) : M unit :=
  q <- Page_objects_filter (rotate_id <$> pages_data) ;;
  first_page <- not_None (first q) ;;
  let old_version := document_version first_page.2 in
  old_row <- Version_get old_version ;;
  let doc := document old_row in
  new_version <- version_bump doc None ;;
  ps <- Page_objects_filter (rotate_id <$> pages_data) ;;
  rotate_pdf_pages old_version new_version (annotate_page_data ps pages_data) ;;
  old_pages <- pages_all old_version ;;
  let page_map := one_to_one old_pages in
  reuse_text_field old_version new_version page_map.

(** The validated data of [PagesMoveToFolderSerializer] and of
    [PagesMoveToDocumentSerializer]. *)
Record MoveToFolderData := mkMoveToFolder {
  folder_pages : list nat;
  folder_dst : nat;
  single_page : bool
}.

Record MoveToDocumentData := mkMoveToDocument {
  move_pages : list nat;
  move_dst : nat;
  position : Z
}.

(** [PagesMoveToFolderView.move_to_folder_multi_paged]; [ids] is the query
    of [pages] and [ps] its cached result. *)
Definition move_to_folder_multi_paged (ids : list nat) (ps : PageSet)
    (first_page : nat * Page) (dst_folder : nat) (dst_user : nat) : M unit :=
  new_doc <- create_document "noname.pdf" (lang first_page.2) dst_user dst_folder ;;
  dst_version <- version_bump_from_pages new_doc ps ;;
  by_number <- Page_objects_filter ids ;;
  let page_map := zip (range 1 (len ps + 1)) (numbers by_number) in
  src_pages <- Page_objects_filter ids ;;
  dst_pages <- pages_all dst_version ;;
  for_each (zip src_pages dst_pages) (λ sd,
    let src_page := sd.1 in
    let dst_page := sd.2 in
    copy_page (document_version src_page.2, number src_page.2)
              (document_version dst_page.2, number dst_page.2)) ;;
  reuse_text_field (document_version first_page.2) dst_version page_map.

(** The body of the loop of [move_to_folder_single_paged]: a new document
    for one page. *)
Definition single_paged_body (dst_folder dst_user : nat)
    (page : nat * Page) : M unit :=
  doc <- create_document ("noname-" +:+ pretty page.1 +:+ ".pdf")
           (lang page.2) dst_user dst_folder ;;
  doc_version <- version_bump_from_pages doc [page] ;;
  dst_pages <- pages_all doc_version ;;
  dst_page <- not_None (first dst_pages) ;;
  copy_page (document_version page.2, number page.2)
            (document_version dst_page.2, number dst_page.2) ;;
  reuse_text_field (document_version page.2) doc_version [(1, number page.2)].

(** [PagesMoveToFolderView.move_to_folder_single_paged] *)
Definition move_to_folder_single_paged (ps : PageSet) (dst_folder : nat)
    (dst_user : nat) : M unit :=
  for_each ps (single_paged_body dst_folder dst_user).

(** [PagesMoveToFolderView.move_to_folder]; [user] is [self.request.user]. *)
Definition move_to_folder (user : nat) (data : MoveToFolderData) : M unit :=
  dst_folder <- Folder_get (folder_dst data) user ;;
  q <- Page_objects_filter (folder_pages data) ;;
  first_page <- not_None (first q) ;;
  let src_old_version := document_version first_page.2 in
  src_old_row <- Version_get src_old_version ;;
  let doc := document src_old_row in
  old_count <- pages_count src_old_version ;;
  q <- Page_objects_filter (folder_pages data) ;;
  src_new_version <- version_bump doc (Some (old_count - len q)) ;;
  ps <- Page_objects_filter (folder_pages data) ;;
  remove_pdf_pages src_old_version src_new_version ps ;;
  let page_map :=
    get_assigns_after_delete (page_count src_old_row) (numbers ps) in
  reuse_ocr_data src_old_version src_new_version page_map ;;
  reuse_text_field src_old_version src_new_version page_map ;;
  if single_page data then
    move_to_folder_single_paged ps (folder_dst data) (folder_user_id dst_folder)
  else
    move_to_folder_multi_paged (folder_pages data) ps first_page
      (folder_dst data) (folder_user_id dst_folder).

(** [PagesMoveToDocumentView.move_to_document] *)
Definition move_to_document (user : nat) (data : MoveToDocumentData) : M unit :=
  _ <- Document_get (move_dst data) user ;;
  let dst_document := move_dst data in
  q <- Page_objects_filter (move_pages data) ;;
  first_page <- not_None (first q) ;;
  let src_old_version := document_version first_page.2 in
  dst_old_version <- versions_last dst_document ;;
  src_old_row <- Version_get src_old_version ;;
  let doc := document src_old_row in
  src_count <- pages_count src_old_version ;;
  q <- Page_objects_filter (move_pages data) ;;
  src_new_version <- version_bump doc (Some (src_count - len q)) ;;
  dst_old_version <- not_None dst_old_version ;;
  dst_count <- pages_count dst_old_version ;;
  q <- Page_objects_filter (move_pages data) ;;
  dst_new_version <- version_bump dst_document (Some (dst_count + len q)) ;;
  ps <- Page_objects_filter (move_pages data) ;;
  remove_pdf_pages src_old_version src_new_version ps ;;
  let page_map :=
    get_assigns_after_delete (page_count src_old_row) (numbers ps) in
  reuse_ocr_data src_old_version src_new_version page_map ;;
  reuse_text_field src_old_version src_new_version page_map ;;
  by_number <- Page_objects_filter (move_pages data) ;;
  insert_pdf_pages src_old_version dst_old_version dst_new_version
    (numbers by_number) (position data) ;;
  by_number <- Page_objects_filter (move_pages data) ;;
  let dst_page_map :=
    (λ p, (number p.2, number p.2 + position data)) <$> by_number in
  copy_pages_data dst_old_version dst_new_version dst_page_map ;;
  reuse_text_field_multi src_old_version dst_old_version dst_new_version
    (position data) (move_pages data) (len ps).

(** ** [serializers/page.py] and the [post] handlers *)

(** The body of a move-to-document request: a field may be absent. *)
Record MoveToDocumentRequest := mkMoveToDocumentRequest {
  request_pages : option (list nat);
  request_dst : option nat;
  request_position : option Z
}.

(** [PagesMoveToDocumentSerializer]: [pages] and [dst] are required,
    [position = IntegerField(default=-1)].  [None] stands for
    [is_valid() = False], [Some data] for [serializer.data]. *)
Definition PagesMoveToDocumentSerializer (request : MoveToDocumentRequest)
    : option MoveToDocumentData :=
  pages ← request_pages request;
  dst ← request_dst request;
  Some (mkMoveToDocument pages dst (default (-1) (request_position request))).

Inductive Response :=
| HTTP_204_NO_CONTENT
| HTTP_400_BAD_REQUEST.

(** [PagesMoveToDocumentView.post] *)
Definition post_move_to_document (user : nat)
    (request : MoveToDocumentRequest) : M Response :=
  match PagesMoveToDocumentSerializer request with
  | Some data => move_to_document user data ;; ret HTTP_204_NO_CONTENT
  | None => ret HTTP_400_BAD_REQUEST
  end.

(** The edit operations of the views, as one request type. *)
Inductive Edit :=
| DeletePage (instance : nat)
| DeletePages (page_ids : list nat)
| Reorder (pages_data : list ReorderItem)
| RotatePages (pages_data : list RotateItem)
| MoveToFolder (user : nat) (data : MoveToFolderData)
| MoveToDocument (user : nat) (data : MoveToDocumentData).

Definition run_edit (e : Edit) : M unit :=
  match e with
  | DeletePage instance => perform_destroy instance
  | DeletePages page_ids => delete_pages page_ids
  | Reorder pages_data => reorder_pages pages_data
  | RotatePages pages_data => rotate_pages pages_data
  | MoveToFolder user data => move_to_folder user data
  | MoveToDocument user data => move_to_document user data
  end.

(** ** Stores to run the views on *)

Definition empty_store : Store := mkStore [] [] [] [] ∅ ∅.

(** A document as the tests set one up ([create_document], [upload], then
    [update_text_field] page by page): one version whose pages carry the
    given texts, over a payload of as many pages. *)
Definition upload (user folder : nat) (title : string) (texts : list string)
    (first_content : nat) : M nat :=
  doc <- gets (λ s, length (documents s)) ;;
  v <- gets (λ s, length (versions s)) ;;
  modify (set_documents (λ ds, ds ++ [mkDocument title "deu" user folder])) ;;
  modify (set_versions (λ vs, vs ++
    [mkVersion doc 1 (len texts) (String.concat " " texts) "deu"])) ;;
  modify (set_pages (λ ps, ps ++
    imap (λ i t, mkPage (Z.of_nat i + 1) t "deu" v) texts)) ;;
  Pdf_save v (imap (λ i _, mkPdfPage (first_content + i) 0) texts) ;;
  ret doc.

(** What a test reads back: the texts of a version's pages, by number. *)
Definition page_texts (v : nat) (s : Store) : list string :=
  (λ r, text r.2) <$> version_pages v s.

Definition current_version (d : nat) (s : Store) : option nat :=
  fst <$> last (versions_of d s).

(** ** What the properties are stated with *)

(** The elements of a list whose 1-based positions, counted from [i], are
    not among [positions], in their original order. *)
Fixpoint keep_from {A} (i : Z) (l : list A) (positions : list Z) : list A :=
  match l with
  | [] => []
  | x :: l' =>
      if bool_decide (i ∈ positions) then keep_from (i + 1) l' positions
      else x :: keep_from (i + 1) l' positions
  end.

Definition survivors {A} (l : list A) (positions : list Z) : list A :=
  keep_from 1 l positions.

(** The three-page document of the tests, pages "page 1" to "page 3". *)
Definition three_pages : Store :=
  (upload 0 0 "three-pages.pdf" ["page 1"; "page 2"; "page 3"] 10
     empty_store).2.

(** The store after [version_bump]: one more version of [doc], with [n]
    placeholder pages. *)
Definition bumped (doc : nat) (cur_row : DocumentVersion) (n : Z)
    (s : Store) : Store :=
  set_pages (λ ps, ps ++
      placeholders (version_lang cur_row) (length (versions s)) n)
    (set_versions (λ vs, vs ++
      [mkVersion doc (version_number cur_row + 1) n "" (version_lang cur_row)])
      s).

(** Page rows with the texts of a list written over them, row by row. *)
Fixpoint zip_text (rows : list Page) (texts : list string) : list Page :=
  match rows, texts with
  | p :: rows', t :: texts' => set_text t p :: zip_text rows' texts'
  | _, _ => rows
  end.

(** The text of the page numbered [i] among texts listed by page number. *)
Definition text_at (texts : list string) (i : Z) : string :=
  default "" (texts !! Z.to_nat (i - 1)).

(** The store after the delete flow has taken the pages numbered [ds] out
    of the version [v] (row [row], payload [pdf]) of the store [s]: a new
    version row, its page rows, its payload; [pf] are the artifacts. *)
Definition deleted_store (v : nat) (row : DocumentVersion) (pdf : Pdf)
    (ds : list Z) (pf : gmap (nat * Z) string) (s : Store) : Store :=
  let texts := survivors (page_texts v s) ds in
  let n := page_count row - len ds in
  mkStore (documents s) (folders s)
    (versions s ++
      [mkVersion (document row) (version_number row + 1) n
                 (String.concat " " texts) (version_lang row)])
    (pages s ++
      zip_text (placeholders (version_lang row) (length (versions s)) n) texts)
    (<[length (versions s) := survivors pdf ds]> (files s))
    pf.

(** The store after an edit has given the document of [row] a new version
    of [n] pages with the texts [texts] and the payload [pdf]. *)
Definition versioned_store (row : DocumentVersion) (n : Z)
    (texts : list string) (pdf : Pdf) (pf : gmap (nat * Z) string)
    (s : Store) : Store :=
  mkStore (documents s) (folders s)
    (versions s ++
      [mkVersion (document row) (version_number row + 1) n
                 (String.concat " " texts) (version_lang row)])
    (pages s ++
      zip_text (placeholders (version_lang row) (length (versions s)) n) texts)
    (<[length (versions s) := pdf]> (files s))
    pf.






(** Referential integrity: every page row points to a version row. *)
Definition wf (s : Store) : Prop :=
  Forall (λ p, (document_version p < length (versions s))%nat) (pages s).

(** The data-model invariant of a current version [v] with row [row] and
    payload [pdf]: it is the last version of its document, its pages are
    numbered 1..[page_count], and its payload has [page_count] pages. *)
Record version_ok (s : Store) (v : nat) (row : DocumentVersion)
    (pdf : Pdf) : Prop := mk_version_ok {
  ok_row : versions s !! v = Some row;
  ok_current : current_version (document row) s = Some v;
  ok_numbers : numbers (version_pages v s) = range 1 (page_count row + 1);
  ok_file : files s !! v = Some pdf;
  ok_payload : len pdf = page_count row
}.

(** [extends s0 s]: the store [s] has everything the store [s0] had, as it
    was: the rows of [s0]'s tables, the page rows, the payload and the
    artifacts of each version of [s0]. *)
Record extends (s0 s : Store) : Prop := mk_extends {
  ext_documents : documents s0 `prefix_of` documents s;
  ext_folders : folders s = folders s0;
  ext_versions : versions s0 `prefix_of` versions s;
  ext_rows : ∀ v, (v < length (versions s0))%nat →
    filter (λ r, document_version r.2 = v) (all_rows s)
    = filter (λ r, document_version r.2 = v) (all_rows s0);
  ext_files : ∀ v, (v < length (versions s0))%nat →
    files s !! v = files s0 !! v;
  ext_page_files : ∀ v n, (v < length (versions s0))%nat →
    page_files s !! (v, n) = page_files s0 !! (v, n)
}.

(** A version that [s0] does not have. *)
Definition fresh (s0 : Store) (v : nat) : Prop := (length (versions s0) ≤ v)%nat.

(** [keeps s0 m Q]: run from a store that extends [s0], the computation [m]
    ends, with a result or an exception, in a store that extends [s0]; a
    result satisfies [Q]. *)
Definition keeps {A} (s0 : Store) (m : M A) (Q : A → Prop) : Prop :=
  ∀ s, extends s0 s → extends s0 (m s).2 ∧ ∀ a, (m s).1 = Ok a → Q a.

(** The OCR collaborator: it stores, for each page of a version, the
    artifact rendered from the page. *)
Definition ocr (v : nat) : M unit :=
  ps <- pages_all v ;;
  for_each ps (λ r,
    modify (set_page_files (λ m, <[(v, number r.2) := "svg:" +:+ text r.2]> m))).

(** A document with a single page. *)
Definition one_page : Store :=
  (upload 0 0 "one-page.pdf" ["only"] 10 empty_store).2.

(** The two-page document of the tests, pages "fish" and "cat". *)
Definition living_things : Store :=
  (upload 0 0 "living-things.pdf" ["fish"; "cat"] 10 empty_store).2.

(** The source and the destination document of the move tests, three pages
    each, with their artifacts. *)
Definition two_documents : Store :=
  ((upload 0 0 "source.pdf" ["cat"; "dog"; "monkey"] 10 ;;
    upload 0 0 "destination.pdf" ["flower"; "tree"; "plant"] 20 ;;
    ocr 0 ;; ocr 1) empty_store).2.

(** The source document of the move-to-folder tests, pages "fish", "cat"
    and "doc", next to an empty destination folder of the same user. *)
Definition source_and_folder : Store :=
  ((modify (set_folders (λ fs, fs ++ [mkFolder 0])) ;;
    upload 0 0 "three-pages.pdf" ["fish"; "cat"; "doc"] 10) empty_store).2.

(** An angle the codec takes: it fits a C [int] and is a multiple of 90. *)
Definition accepted_angle (a : Z) : Prop :=
  INT_MIN ≤ a ≤ INT_MAX ∧ a `mod` 90 = 0.

(** The order a sort by [key] produces. *)
Definition key_le {A} (key : A → Z) (x y : A) : Prop := key x ≤ key y.

(** ** [views/pages.py]: [PageView.retrieve] *)





(** ** [task_monitor/task.py] *)

Module task.

(** What a task dictionary holds under a key: a [str], or an object of
    another type (which has neither [split] nor [replace]). *)
Inductive Value :=
| Str (s : string)
| Int (z : Z)
| NoneValue.

Abbreviation Dict := (gmap string Value).

Inductive Exception :=
| KeyError (key : string)
| AttributeError
| IndexError.

Inductive Outcome (A : Type) :=
| Returns (a : A)
| Raises (e : Exception).
Arguments Returns {A} a.
Arguments Raises {A} e.

(** [s.split(sep)] for a separator of one character. *)
Fixpoint split (sep : ascii) (s : string) : list string :=
  match s with
  | EmptyString => [EmptyString]
  | String c s' =>
      if Ascii.eqb c sep then EmptyString :: split sep s'
      else match split sep s' with
           | [] => [String c EmptyString]
           | part :: parts => String c part :: parts
           end
  end.

(** [s.replace(old, new)] for one character [old]. *)
Fixpoint replace (old : ascii) (new : string) (s : string) : string :=
  match s with
  | EmptyString => EmptyString
  | String c s' =>
      if Ascii.eqb c old then new +:+ replace old new s'
      else String c (replace old new s')
  end.

(** [l[-1]] *)
Definition item_last {A} (l : list A) : Outcome A :=
  match last l with
  | Some x => Returns x
  | None => Raises IndexError
  end.

(** [class Task(dict)]: the attribute [name] (a [str] or [None]) and the
    items of the dictionary. *)
Record Task := mkTask {
  name : option string;
  items : Dict
}.

(** [if name:] *)
Definition truthy (name : option string) : bool :=
  match name with
  | Some EmptyString | None => false
  | Some _ => true
  end.

(** [Task.__init__(self, name, kwargs)]; [kwargs] are the keyword
    arguments. *)
Definition __init__ (name : option string) (kwargs : Dict) : Task :=
  let self : Dict := ∅ in
  let self :=
    match name with
    | Some n => if truthy name then <["task_name" := Str n]> self else self
    | None => self
    end in
  (* [super().__init__] with the keyword arguments updates the items
     set so far *)
  mkTask name (kwargs ∪ self).

(** [Task.__eq__(self, name)] *)
Definition __eq__ (self : Task) (other : option string) : bool :=
  bool_decide (name self = other).

(** [Task.short_name] *)
Definition short_name (self : Task) : Outcome string :=
  match name self with
  | Some n => item_last (split "." n)
  | None => Raises AttributeError
  end.

(** [Task.channel_group_name] *)
Definition channel_group_name (self : Task) : Outcome string :=
  short_name self.

(** [Task.full_name] *)
Definition full_name (self : Task) : option string := name self.

(** [dict(task)]: a new dictionary with the items of the task. *)
Definition dict (self : Task) : Dict := items self.

(** [dict2channel_data(task_dict)]: the outcome, and [task_dict] as the
    call leaves it ([pop] removes the key from the caller's dictionary). *)
Definition dict2channel_data (task_dict : Dict)
    : Outcome (string * Dict) * Dict :=
  let ret_dict : Dict := ∅ in
  match task_dict !! "type" with
  | None => (Raises (KeyError "type"), task_dict)
  | Some orig_type =>
      let task_dict := delete "type" task_dict in
      match task_dict !! "task_name" with
      | None => (Raises (KeyError "task_name"), task_dict)
      | Some orig_task_name =>
          let task_dict := delete "task_name" task_dict in
          match orig_task_name with
          | Str orig_task_name =>
              match item_last (split "." orig_task_name) with
              | Raises e => (Raises e, task_dict)
              | Returns orig_short_name =>
                  let short_name := replace "_" "" orig_short_name in
                  match orig_type with
                  | Str orig_type =>
                      let _type := replace "-" "" orig_type in
                      let new_type := short_name +:+ "." +:+ _type in
                      let ret_dict := <["type" := Str new_type]> ret_dict in
                      (* [ret_dict.update(task_dict)] *)
                      let ret_dict := task_dict ∪ ret_dict in
                      (Returns (orig_short_name, ret_dict), task_dict)
                  | _ => (Raises AttributeError, task_dict)
                  end
              end
          | _ => (Raises AttributeError, task_dict)
          end
      end
  end.

End task.

(** ** What the further properties are stated with *)

(** The characters of a string. *)
Fixpoint chars (s : string) : list ascii :=
  match s with
  | EmptyString => []
  | String c s' => c :: chars s'
  end.

(** [sep.join(parts)] for a separator of one character. *)
Definition join (sep : ascii) (parts : list string) : string :=
  String.concat (String sep EmptyString) parts.

(** The request that undoes a reorder request: old and new number of each
    item change places. *)
Definition reorder_back (pages_data : list ReorderItem) : list ReorderItem :=
  (λ item, mkReorder (reorder_id item) (new_number item) (old_number item))
    <$> pages_data.

(** The angle a rotate request asks for the page numbered [n]: the sum of
    the angles of its entries for that page. *)
Definition requested_angle (pages_data : list (Z * Z)) (n : Z) : Z :=
  foldr Z.add 0 (snd <$> filter (λ na, na.1 = n) pages_data).

(** The angles themselves, in the order of the entries. *)
Definition requested_angles (pages_data : list (Z * Z)) (n : Z) : list Z :=
  snd <$> filter (λ na, na.1 = n) pages_data.

(** One rotation by [a] of a page whose [/Rotate] is [r], where no
    addition leaves the range of [int], and a sequence of rotations. *)
Definition turn (r a : Z) : Z := Z.rem (a + r + 360) 360.

Definition turned (r : Z) (angles : list Z) : Z := foldl turn r angles.

(** A page whose version is not the current version of its document. *)
Definition on_archived_version (s : Store) (p : Page) : Prop :=
  ∃ row, versions s !! document_version p = Some row
         ∧ current_version (document row) s ≠ Some (document_version p).

(** A page whose version is the current version of its document. *)
Definition on_current_version (s : Store) (p : Page) : Prop :=
  ∃ row, versions s !! document_version p = Some row
         ∧ current_version (document row) s = Some (document_version p).

(** [adds P m Q]: whatever its outcome, the computation [m] leaves the
    folder rows as they are and the document rows it finds in place; the
    document rows it appends satisfy [P], and a result satisfies [Q]. *)
Definition adds {A} (P : Document → Prop) (m : M A) (Q : A → Prop) : Prop :=
  ∀ s, (∃ new, documents (m s).2 = documents s ++ new ∧ Forall P new)
       ∧ folders (m s).2 = folders s
       ∧ ∀ a, (m s).1 = Ok a → Q a.

(** The store after an edit has given the document of [row] a new version
    of [n1] pages (texts [texts1], payload [pdf1]) and then the document of
    [rowd] a new version of [n2] pages (texts [texts2], payload [pdf2]);
    [pf] are the artifacts. *)
Definition moved_store (row rowd : DocumentVersion)
    (n1 : Z) (texts1 : list string) (pdf1 : Pdf)
    (n2 : Z) (texts2 : list string) (pdf2 : Pdf)
    (pf : gmap (nat * Z) string) (s : Store) : Store :=
  mkStore (documents s) (folders s)
    (versions s ++
      [mkVersion (document row) (version_number row + 1) n1
                 (String.concat " " texts1) (version_lang row);
       mkVersion (document rowd) (version_number rowd + 1) n2
                 (String.concat " " texts2) (version_lang rowd)])
    (pages s
     ++ zip_text (placeholders (version_lang row) (length (versions s)) n1)
          texts1
     ++ zip_text (placeholders (version_lang rowd) (S (length (versions s))) n2)
          texts2)
    (<[S (length (versions s)) := pdf2]>
       (<[length (versions s) := pdf1]> (files s)))
    pf.

(** * Properties *)

(** ** The monad *)

Lemma bind_Ok {A B} (m : M A) (k : A → M B) s a s' :
  m s = (Ok a, s') → bind m k s = k a s'.
Proof. unfold bind. by intros ->. Qed.

Lemma bind_Raise {A B} (m : M A) (k : A → M B) s e s' :
  m s = (Raise e, s') → bind m k s = (Raise e, s').
Proof. unfold bind. by intros ->. Qed.

(** ** Sorting by a key *)

Section sorted_by.
Context {A : Type} (key : A → Z).

Local Abbreviation key_le := (key_le key).

Lemma insert_by_Permutation x l : insert_by key x l ≡ₚ x :: l.
  Proof.
    induction l as [|y l IH]; simpl; [done|].
    case_bool_decide; [done|].
    rewrite IH. apply Permutation_swap.
  Qed.

Lemma sorted_by_Permutation l : sorted_by key l ≡ₚ l.
  Proof.
    induction l as [|x l IH]; simpl; [done|].
    by rewrite insert_by_Permutation, IH.
  Qed.

Lemma length_sorted_by l : length (sorted_by key l) = length l.
  Proof. by rewrite sorted_by_Permutation. Qed.

Lemma insert_by_head x l :
    Forall (key_le x) l → insert_by key x l = x :: l.
  Proof.
    destruct l as [|y l]; simpl; [done|].
    intros [Hy _]%Forall_cons. by rewrite bool_decide_eq_true_2.
  Qed.

Lemma sorted_by_id l : StronglySorted key_le l → sorted_by key l = l.
  Proof.
    induction 1 as [|x l Hs IH Hx]; simpl; [done|].
    rewrite IH. by apply insert_by_head.
  Qed.

Lemma insert_by_sorted x l :
    StronglySorted key_le l → StronglySorted key_le (insert_by key x l).
  Proof.
    induction 1 as [|y l Hs IH Hy]; simpl.
    { by repeat constructor. }
    case_bool_decide as Hxy.
    - constructor; [by constructor|].
      constructor; [done|].
      eapply Forall_impl; [exact Hy|]. unfold key_le in *. intros; lia.
    - constructor; [done|].
      rewrite insert_by_Permutation. constructor; [|done].
      unfold key_le in *. lia.
  Qed.

Lemma sorted_by_sorted l : StronglySorted key_le (sorted_by key l).
  Proof.
    induction l as [|x l IH]; simpl; [constructor|].
    by apply insert_by_sorted.
  Qed.
End sorted_by.

(** ** The remove transform *)

Section keep_from.
Context {A : Type}.
Implicit Types (l : list A) (ds : list Z).

Lemma keep_from_nil i l : keep_from i l [] = l.
  Proof.
    revert i. induction l as [|x l IH]; intros i; simpl; [done|].
    by rewrite IH.
  Qed.

Lemma keep_from_below i l d ds :
    d < i → keep_from i l (d :: ds) = keep_from i l ds.
  Proof.
    revert i. induction l as [|x l IH]; intros i Hd; simpl; [done|].
    rewrite (IH (i + 1)) by lia.
    assert (bool_decide (i ∈ d :: ds) = bool_decide (i ∈ ds)) as ->; [|done].
    apply bool_decide_ext. rewrite elem_of_cons. intuition lia.
  Qed.

Lemma keep_from_delete l i (k : nat) d ds :
    d = i + Z.of_nat k → (k < length l)%nat → Forall (λ d', d < d') ds →
    keep_from (i + 1) (delete k l) ds = keep_from i l (d :: ds).
  Proof.
    revert i k. induction l as [|x l IH]; intros i k Hd Hk Hds; simpl in *.
    { lia. }
    destruct k as [|k]; simpl.
    - assert (d = i) as -> by lia.
      rewrite bool_decide_eq_true_2 by apply list_elem_of_here.
      rewrite keep_from_below; [done|lia].
    - assert (i + 1 ∉ ds) as Hnot.
      { intros Hin. rewrite Forall_forall in Hds. specialize (Hds _ Hin). lia. }
      assert (i ∉ d :: ds) as Hnot'.
      { intros [->|Hin]%elem_of_cons; [lia|].
        rewrite Forall_forall in Hds. specialize (Hds _ Hin). lia. }
      rewrite !bool_decide_eq_false_2 by done.
      f_equal. apply IH; [lia|lia|done].
  Qed.

Lemma keep_from_fmap {B} (f : A → B) i l ds :
    keep_from i (f <$> l) ds = f <$> keep_from i l ds.
  Proof.
    revert i. induction l as [|x l IH]; intros i; simpl; [done|].
    case_bool_decide; simpl; by rewrite IH.
  Qed.
End keep_from.

Lemma remove_loop_survivors ds : ∀ (pdf : Pdf) c,
  StronglySorted Z.lt ds →
  Forall (λ d, c < d ≤ c + len pdf) ds →
  remove_loop pdf c ds = Ok (keep_from (c + 1) pdf ds).
Proof.
  induction ds as [|d ds IH]; intros pdf c Hs Hr; simpl.
  { by rewrite keep_from_nil. }
  apply StronglySorted_inv in Hs as [Hs Hd].
  apply Forall_cons in Hr as [Hd1 Hr].
  unfold pages_remove, len in *.
  rewrite bool_decide_eq_true_2 by lia.
  rewrite IH; [|done|].
  - f_equal. replace (c + 1 + 1) with ((c + 1) + 1) by lia.
    apply keep_from_delete; [lia|lia|done].
  - rewrite length_delete.
    + rewrite Forall_forall in Hd, Hr |- *. intros d' Hin.
      specialize (Hd _ Hin). specialize (Hr _ Hin). simpl in *. lia.
    + apply lookup_lt_is_Some. lia.
Qed.

Lemma remove_loop_length ds : ∀ (pdf pdf' : Pdf) c,
  remove_loop pdf c ds = Ok pdf' → len pdf' = len pdf - len ds.
Proof.
  induction ds as [|d ds IH]; intros pdf pdf' c; simpl.
  { intros [= ->]. unfold len. simpl. lia. }
  unfold pages_remove. case_bool_decide as Hd; [|done].
  intros ->%IH. unfold len in *. simpl.
  rewrite length_delete; [lia|]. apply lookup_lt_is_Some. lia.
Qed.

(** C9: the remove transform, given the pages to delete by ascending
    number, all within the payload, writes as the new version's payload
    exactly the pages of the old payload whose original positions are not
    among them, in their original order (the i-th removal is shifted by the
    i-1 removals before it); the new payload is shorter by the number of
    deleted pages. *)
Theorem remove_pdf_pages_strips (s : Store) (old_version new_version : nat)
    (pages_to_delete : PageSet) (pdf : Pdf) :
  files s !! old_version = Some pdf →
  StronglySorted Z.lt (numbers pages_to_delete) →
  Forall (λ n, 1 ≤ n ≤ len pdf) (numbers pages_to_delete) →
  remove_pdf_pages old_version new_version pages_to_delete s
  = (Ok tt,
     set_files (λ fs,
       <[new_version := survivors pdf (numbers pages_to_delete)]> fs) s)
  ∧ len (survivors pdf (numbers pages_to_delete))
    = len pdf - len pages_to_delete.
Proof.
  intros Hfile Hsorted Hrange.
  assert (remove_loop pdf 0 (numbers pages_to_delete)
          = Ok (survivors pdf (numbers pages_to_delete))) as Hloop.
  { apply remove_loop_survivors; [done|].
    eapply Forall_impl; [exact Hrange|]. simpl. intros; lia. }
  split.
  - unfold remove_pdf_pages, Pdf_open.
    rewrite (bind_Ok _ _ s pdf s).
    2:{ unfold bind, gets. by rewrite Hfile. }
    unfold numbers in Hloop.
    by rewrite (bind_Ok _ _ s (survivors pdf (numbers pages_to_delete)) s)
      by (unfold lift; by rewrite Hloop).
  - apply remove_loop_length in Hloop. rewrite Hloop.
    unfold numbers, len. by rewrite length_fmap.
Qed.

Lemma remove_pdf_pages_strips_witness :
  remove_pdf_pages 0 1
    [(0%nat, mkPage 1 "page 1" "deu" 0); (1%nat, mkPage 2 "page 2" "deu" 0)]
    three_pages
  = (Ok tt, set_files (λ fs, <[1%nat := [mkPdfPage 12 0]]> fs) three_pages)
  ∧ len (survivors [mkPdfPage 10 0; mkPdfPage 11 0; mkPdfPage 12 0]
           (numbers [(0%nat, mkPage 1 "page 1" "deu" 0);
                     (1%nat, mkPage 2 "page 2" "deu" 0)])) = 1.
Proof.
  apply (remove_pdf_pages_strips three_pages 0 1
    [(0%nat, mkPage 1 "page 1" "deu" 0); (1%nat, mkPage 2 "page 2" "deu" 0)]
    [mkPdfPage 10 0; mkPdfPage 11 0; mkPdfPage 12 0]).
  - reflexivity.
  - repeat constructor.
  - repeat constructor; unfold len; simpl; lia.
Defined.

(** ** Rows of the page table *)

Lemma elem_of_all_rows s pk p : (pk, p) ∈ all_rows s ↔ pages s !! pk = Some p.
Proof.
  unfold all_rows. rewrite elem_of_lookup_imap. split.
  - intros (i & x & [= -> ->] & Hx). done.
  - intros Hx. eauto.
Qed.

Lemma elem_of_version_pages v s r :
  r ∈ version_pages v s ↔ pages s !! r.1 = Some r.2 ∧ document_version r.2 = v.
Proof.
  unfold version_pages, order_by_number.
  rewrite sorted_by_Permutation, list_elem_of_filter.
  destruct r as [pk p]. rewrite elem_of_all_rows. simpl. tauto.
Qed.

Lemma all_rows_app s N :
  all_rows (set_pages (λ ps, ps ++ N) s)
  = all_rows s ++ imap (λ i p, ((length (pages s) + i)%nat, p)) N.
Proof. unfold all_rows. simpl. by rewrite imap_app. Qed.

Lemma filter_imap_none {A} {P : nat * A → Prop} `{!∀ r, Decision (P r)}
    (f : nat → nat) (N : list A) :
  (∀ i p, p ∈ N → ¬ P (f i, p)) → filter P (imap (λ i p, (f i, p)) N) = [].
Proof.
  revert f. induction N as [|p N IH]; intros f HP; [done|].
  rewrite imap_cons, filter_cons_False by (apply HP; left).
  apply (IH (f ∘ S)). intros i q Hq. apply HP. by right.
Qed.

Lemma filter_imap_all {P : nat * Page → Prop} `{!∀ r, Decision (P r)}
    (f : nat → nat) N :
  (∀ i p, p ∈ N → P (f i, p)) →
  filter P (imap (λ i p, (f i, p)) N) = imap (λ i p, (f i, p)) N.
Proof.
  revert f. induction N as [|p N IH]; intros f HP; [done|].
  rewrite imap_cons, filter_cons_True by (apply HP; left).
  f_equal. apply (IH (f ∘ S)). intros i q Hq. apply HP. by right.
Qed.

(** Setting the text of one row leaves the rows of every other version. *)
Lemma filter_rows_alter_gen v t (ps : list Page) :
  ∀ (g : nat → Page → nat * Page) pk,
  (∀ i p, document_version (g i p).2 = document_version p) →
  (∀ i p, g i (set_text t p) = ((g i p).1, set_text t (g i p).2)) →
  (∀ p, ps !! pk = Some p → document_version p ≠ v) →
  filter (λ r : nat * Page, document_version r.2 = v)
    (imap g (alter (set_text t) pk ps))
  = filter (λ r : nat * Page, document_version r.2 = v) (imap g ps).
Proof.
  induction ps as [|p ps IH]; intros g pk Hg Hg' Hpk; [done|].
  destruct pk as [|pk].
  - change (alter (set_text t) 0%nat (p :: ps)) with (set_text t p :: ps).
    rewrite !imap_cons, !filter_cons_False; [done| |].
    + rewrite Hg. by apply Hpk.
    + rewrite Hg. simpl. by apply Hpk.
  - change (alter (set_text t) (S pk) (p :: ps))
      with (p :: alter (set_text t) pk ps).
    rewrite !imap_cons, !filter_cons.
    rewrite (IH (g ∘ S) pk); [done| | |].
    + intros i q. apply Hg.
    + intros i q. apply Hg'.
    + intros q Hq. by apply Hpk.
Qed.

Lemma filter_rows_alter v t pk (ps : list Page) :
  (∀ p, ps !! pk = Some p → document_version p ≠ v) →
  filter (λ r : nat * Page, document_version r.2 = v)
    (imap (λ i p, (i, p)) (alter (set_text t) pk ps))
  = filter (λ r : nat * Page, document_version r.2 = v)
    (imap (λ i p, (i, p)) ps).
Proof. intros Hpk. by apply filter_rows_alter_gen. Qed.

(** ** Stores that keep what an earlier store had *)

Lemma extends_refl s : extends s s.
Proof. by split. Qed.

Section keeps.
Context (s0 : Store).

Lemma extends_app_versions s l :
  extends s0 s → extends s0 (set_versions (λ vs, vs ++ l) s).
Proof.
  intros [? ? ? ? ? ?]. split; simpl; try done.
  by apply prefix_app_r.
Qed.

Lemma extends_app_documents s l :
  extends s0 s → extends s0 (set_documents (λ ds, ds ++ l) s).
Proof.
  intros [? ? ? ? ? ?]. split; simpl; try done.
  by apply prefix_app_r.
Qed.

Lemma extends_app_pages s N :
  Forall (λ p, fresh s0 (document_version p)) N →
  extends s0 s → extends s0 (set_pages (λ ps, ps ++ N) s).
Proof.
  intros HN [? ? ? Hrows ? ?]. split; simpl; try done.
  intros v Hv. rewrite all_rows_app, filter_app, Hrows by done.
  rewrite filter_imap_none; [by rewrite app_nil_r|].
  intros i p Hp. simpl. rewrite Forall_forall in HN.
  specialize (HN _ Hp). unfold fresh in HN. lia.
Qed.

Lemma extends_save s v pdf :
  fresh s0 v → extends s0 s → extends s0 (set_files (λ fs, <[v := pdf]> fs) s).
Proof.
  intros Hv [? ? ? ? Hfiles ?]. split; simpl; try done.
  intros v' Hv'. rewrite lookup_insert_ne; [by apply Hfiles|].
  unfold fresh in Hv. lia.
Qed.

Lemma extends_alter_version s v f :
  fresh s0 v → extends s0 s → extends s0 (set_versions (alter f v) s).
Proof.
  intros Hv [? ? Hvs ? ? ?]. split; simpl; try done.
  destruct Hvs as [k ->]. unfold fresh in Hv.
  rewrite alter_app_r_alt by done.
  by apply prefix_app_r.
Qed.

Lemma extends_set_text s pk t :
  (∀ p, pages s !! pk = Some p → fresh s0 (document_version p)) →
  extends s0 s → extends s0 (set_pages (alter (set_text t) pk) s).
Proof.
  intros Hpk [? ? ? Hrows ? ?]. split; simpl; try done.
  intros v Hv. rewrite <-Hrows by done. unfold all_rows. simpl.
  apply filter_rows_alter. intros p Hp. specialize (Hpk _ Hp).
  unfold fresh in Hpk. lia.
Qed.

Lemma keeps_ret {A} (a : A) (Q : A → Prop) : Q a → keeps s0 (ret a) Q.
Proof. intros HQ s Hs. split; [done|]. by intros ? [= <-]. Qed.

Lemma keeps_raise {A} e (Q : A → Prop) : keeps s0 (raise e) Q.
Proof. intros s Hs. by split. Qed.

Lemma keeps_gets {A} (f : Store → A) (Q : A → Prop) :
  (∀ s, extends s0 s → Q (f s)) → keeps s0 (gets f) Q.
Proof. intros HQ s Hs. split; [done|]. intros ? [= <-]. by apply HQ. Qed.

Lemma keeps_lift {A} (r : Result A) : keeps s0 (lift r) (λ a, r = Ok a).
Proof. intros s Hs. by split. Qed.

Lemma keeps_from_option {A} e (o : option A) :
  keeps s0 (from_option e o) (λ a, o = Some a).
Proof.
  destruct o; simpl.
  - by apply keeps_ret.
  - apply keeps_raise.
Qed.

Lemma keeps_modify (f : Store → Store) :
  (∀ s, extends s0 s → extends s0 (f s)) → keeps s0 (modify f) (λ _, True).
Proof. intros Hf s Hs. split; [by apply Hf|done]. Qed.

Lemma keeps_bind {A B} (m : M A) (k : A → M B) (Q : A → Prop) (R : B → Prop) :
  keeps s0 m Q → (∀ a, Q a → keeps s0 (k a) R) → keeps s0 (bind m k) R.
Proof.
  intros Hm Hk s Hs. unfold bind.
  destruct (Hm s Hs) as [Hext HQ].
  destruct (m s) as [[a|e] s']; simpl in *.
  - by apply Hk; [apply HQ|].
  - by split.
Qed.

Lemma keeps_weaken {A} (m : M A) (Q R : A → Prop) :
  keeps s0 m Q → (∀ a, Q a → R a) → keeps s0 m R.
Proof.
  intros Hm HQR s Hs. destruct (Hm s Hs) as [Hext HQ].
  split; [done|]. intros a Ha. by apply HQR, HQ.
Qed.

Lemma keeps_for_each {A} (xs : list A) (body : A → M unit) :
  (∀ x, x ∈ xs → keeps s0 (body x) (λ _, True)) →
  keeps s0 (for_each xs body) (λ _, True).
Proof.
  induction xs as [|x xs IH]; intros Hbody; simpl.
  - by apply keeps_ret.
  - eapply keeps_bind; [apply Hbody; left|].
    intros _ _. apply IH. intros y Hy. apply Hbody. by right.
Qed.
End keeps.

(** ** Every write of the views goes to a version the store did not have *)

Section keeps_views.
Context (s0 : Store).

Local Abbreviation kept m := (keeps s0 m (λ _, True)).

Lemma keeps_any {A} (m : M A) (Q : A → Prop) : keeps s0 m Q → kept m.
Proof. intros Hm. by eapply keeps_weaken. Qed.

Lemma keeps_lift_any {A} (r : Result A) : kept (lift r).
Proof. eapply keeps_any, keeps_lift. Qed.

Lemma keeps_not_None {A} (o : option A) : kept (not_None o).
Proof. eapply keeps_any, keeps_from_option. Qed.

Lemma keeps_gets_any {A} (f : Store → A) : kept (gets f).
Proof. by apply keeps_gets. Qed.

Lemma keeps_Page_objects_filter ids : kept (Page_objects_filter ids).
Proof. apply keeps_gets_any. Qed.

Lemma keeps_pages_all v :
  keeps s0 (pages_all v) (λ ps, ∀ r, r ∈ ps → document_version r.2 = v).
Proof.
  apply keeps_gets. intros s _ r Hr. by apply elem_of_version_pages in Hr as [_ ?].
Qed.

Lemma keeps_pages_count v : kept (pages_count v).
Proof. apply keeps_gets_any. Qed.

Lemma keeps_versions_last d : kept (versions_last d).
Proof. apply keeps_gets_any. Qed.

Lemma keeps_Version_get v : kept (Version_get v).
Proof.
  eapply keeps_bind; [apply keeps_gets_any|].
  intros o _. eapply keeps_any, keeps_from_option.
Qed.

Lemma keeps_Page_get pk : kept (Page_get pk).
Proof.
  eapply keeps_bind; [apply keeps_gets_any|].
  intros o _. eapply keeps_any, keeps_from_option.
Qed.

Lemma keeps_Document_get pk user : kept (Document_get pk user).
Proof.
  eapply keeps_bind; [apply keeps_gets_any|]. intros o _.
  eapply keeps_bind; [apply keeps_from_option|]. intros d _.
  case_bool_decide; [by apply keeps_ret|apply keeps_raise].
Qed.

Lemma keeps_Folder_get pk user : kept (Folder_get pk user).
Proof.
  eapply keeps_bind; [apply keeps_gets_any|]. intros o _.
  eapply keeps_bind; [apply keeps_from_option|]. intros d _.
  case_bool_decide; [by apply keeps_ret|apply keeps_raise].
Qed.

Lemma keeps_Pdf_open v : kept (Pdf_open v).
Proof.
  eapply keeps_bind; [apply keeps_gets_any|].
  intros o _. eapply keeps_any, keeps_from_option.
Qed.

Lemma keeps_is_archived p : kept (is_archived p).
Proof.
  eapply keeps_bind; [apply keeps_Version_get|]. intros v _.
  eapply keeps_bind; [apply keeps_versions_last|]. intros cur _.
  by apply keeps_ret.
Qed.

Lemma keeps_Pdf_save v pdf : fresh s0 v → kept (Pdf_save v pdf).
Proof. intros Hv. apply keeps_modify. intros s. by apply extends_save. Qed.

Lemma keeps_copy_page src dst : fresh s0 dst.1 → kept (copy_page src dst).
Proof.
  intros Hv. apply keeps_modify. intros s [? ? ? ? ? Hpf].
  split; simpl; try done.
  intros v n Hvn. destruct (page_files s !! src); [|by apply Hpf].
  rewrite lookup_insert_ne; [by apply Hpf|].
  destruct dst as [v' n']. unfold fresh in Hv. simpl in Hv.
  intros [= -> ->]. lia.
Qed.

Lemma fresh_length s : extends s0 s → fresh s0 (length (versions s)).
Proof. intros [_ _ Hvs _ _ _]. unfold fresh. by apply prefix_length. Qed.

Lemma keeps_version_bump d target :
  keeps s0 (version_bump d target) (fresh s0).
Proof.
  eapply keeps_bind; [apply keeps_versions_last|]. intros cur _.
  eapply keeps_bind; [apply keeps_not_None|]. intros cur' _.
  eapply keeps_bind; [apply keeps_Version_get|]. intros cur_row _.
  eapply keeps_bind.
  { apply (keeps_gets s0 _ (fresh s0)). apply fresh_length. }
  intros new_version Hnew. simpl in Hnew.
  eapply keeps_bind.
  { apply keeps_modify. intros s. apply extends_app_versions. }
  intros _ _. eapply keeps_bind.
  { apply keeps_modify. intros s. apply extends_app_pages.
    unfold placeholders. apply Forall_fmap, Forall_forall. by intros i _. }
  intros _ _. by apply keeps_ret.
Qed.

Lemma keeps_create_document title lang user parent :
  kept (create_document title lang user parent).
Proof.
  eapply keeps_bind; [apply keeps_gets_any|]. intros doc _.
  eapply keeps_bind.
  { apply keeps_modify. intros s. apply extends_app_documents. }
  intros _ _. eapply keeps_bind.
  { apply keeps_modify. intros s. apply extends_app_versions. }
  intros _ _. by apply keeps_ret.
Qed.

Lemma keeps_seed_payload ps : kept (seed_payload ps).
Proof.
  induction ps as [|r ps IH]; simpl; [by apply keeps_ret|].
  eapply keeps_bind; [apply keeps_Pdf_open|]. intros src _.
  eapply keeps_bind; [apply keeps_lift_any|]. intros p _.
  eapply keeps_bind; [apply IH|]. intros rest _.
  by apply keeps_ret.
Qed.

Lemma keeps_version_bump_from_pages d ps :
  keeps s0 (version_bump_from_pages d ps) (fresh s0).
Proof.
  eapply keeps_bind; [apply keeps_versions_last|]. intros cur _.
  eapply keeps_bind; [apply keeps_not_None|]. intros cur' _.
  eapply keeps_bind; [apply keeps_Version_get|]. intros cur_row _.
  eapply keeps_bind; [apply keeps_seed_payload|]. intros pdf _.
  eapply keeps_bind.
  { apply (keeps_gets s0 _ (fresh s0)). apply fresh_length. }
  intros new_version Hnew. simpl in Hnew.
  eapply keeps_bind.
  { apply keeps_modify. intros s. apply extends_app_versions. }
  intros _ _. eapply keeps_bind.
  { apply keeps_modify. intros s. apply extends_app_pages.
    unfold seeded_rows.
    apply Forall_forall. intros p (i & r & -> & _)%elem_of_lookup_imap.
    exact Hnew. }
  intros _ _. eapply keeps_bind; [by apply keeps_Pdf_save|].
  intros _ _. by apply keeps_ret.
Qed.

Lemma extends_set_texts (l : list (nat * Page * string)) : ∀ s,
  extends s0 s →
  (∀ rt p, rt ∈ l → pages s !! rt.1.1 = Some p →
           fresh s0 (document_version p)) →
  extends s0
    (for_each l (λ rt, modify (set_pages (alter (set_text rt.2) rt.1.1))) s).2.
Proof.
  induction l as [|rt l IH]; intros s Hs Hl; simpl; [done|].
  unfold bind, modify. simpl. apply IH.
  - apply extends_set_text; [|done]. intros p. apply Hl. left.
  - intros rt' p Hrt'. simpl. rewrite list_lookup_alter.
    case_decide as Heq; [|by apply Hl; right].
    rewrite Heq.
    destruct (pages s !! rt'.1.1) as [q|] eqn:Hq; simpl; [|done].
    intros [= <-]. simpl. apply (Hl rt' q); [by right|done].
Qed.

Lemma keeps_update_text_field v streams :
  fresh s0 v → kept (update_text_field v streams).
Proof.
  intros Hv s Hs. split; [|done].
  unfold update_text_field, bind at 1, pages_all, gets at 1. simpl.
  pose proof (extends_set_texts (zip (version_pages v s) streams) s Hs) as Hl.
  unfold bind.
  destruct (for_each _ _ s) as [[[]|e] s1]; simpl in *.
  - apply extends_alter_version; [done|]. apply Hl.
    intros [r t] p Hrt Hp. simpl in Hp.
    apply elem_of_zip_l, elem_of_version_pages in Hrt as [Hrow Hdv].
    rewrite Hrow in Hp. injection Hp as <-. by rewrite Hdv.
  - apply Hl. intros [r t] p Hrt Hp. simpl in Hp.
    apply elem_of_zip_l, elem_of_version_pages in Hrt as [Hrow Hdv].
    rewrite Hrow in Hp. injection Hp as <-. by rewrite Hdv.
Qed.
End keeps_views.

Create HintDb keeps.

#[local] Hint Resolve keeps_lift_any keeps_not_None keeps_gets_any
  keeps_Page_objects_filter keeps_pages_all keeps_pages_count
  keeps_versions_last keeps_Version_get keeps_Page_get keeps_Document_get
  keeps_Folder_get keeps_Pdf_open keeps_is_archived keeps_Pdf_save
  keeps_copy_page keeps_version_bump keeps_create_document
  keeps_seed_payload keeps_version_bump_from_pages keeps_update_text_field
  : keeps.

Ltac keeps_step :=
  lazymatch goal with
  | |- keeps _ (bind _ _) _ =>
      eapply keeps_bind; [solve [eauto with keeps]|intros ? ?]
  | |- keeps _ (ret _) _ => by apply keeps_ret
  | |- keeps _ (raise _) _ => apply keeps_raise
  | |- keeps _ (if bool_decide _ then _ else _) _ => case_bool_decide
  | |- keeps _ (if ?b then _ else _) _ => destruct b
  | |- _ => solve [eauto with keeps]
  end.

Lemma head_elem_of {A} (l : list A) x : head l = Some x → x ∈ l.
Proof. destruct l; [done|]. intros [= ->]. left. Qed.

Section keeps_flows.
Context (s0 : Store).

Local Abbreviation kept m := (keeps s0 m (λ _, True)).

Lemma keeps_copy_pages_data old new pages_map :
  fresh s0 new → kept (copy_pages_data old new pages_map).
Proof. intros Hnew. apply keeps_for_each. intros x _. by apply keeps_copy_page. Qed.

Lemma keeps_reuse_ocr_data old new page_map :
  fresh s0 new → kept (reuse_ocr_data old new page_map).
Proof. intros Hnew. apply keeps_for_each. intros x _. by apply keeps_copy_page. Qed.

Lemma keeps_collect_text_streams v page_numbers :
  kept (collect_text_streams v page_numbers).
Proof. unfold collect_text_streams. repeat keeps_step. Qed.

Lemma keeps_reuse_text_field old new page_map :
  fresh s0 new → kept (reuse_text_field old new page_map).
Proof.
  intros Hnew. unfold reuse_text_field.
  eapply keeps_bind; [apply keeps_collect_text_streams|]. intros streams _.
  by apply keeps_update_text_field.
Qed.

Lemma keeps_reuse_text_field_multi src_old dst_old dst_new position ids count :
  fresh s0 dst_new →
  kept (reuse_text_field_multi src_old dst_old dst_new position ids count).
Proof.
  intros Hnew. unfold reuse_text_field_multi. cbv zeta.
  eapply keeps_bind.
  { instantiate (1 := λ _, True).
    case_bool_decide; [apply keeps_collect_text_streams|by apply keeps_ret]. }
  intros s1 _. keeps_step.
  eapply keeps_bind; [apply keeps_collect_text_streams|]. intros s2 _.
  keeps_step.
  eapply keeps_bind; [apply keeps_collect_text_streams|]. intros s3 _.
  by apply keeps_update_text_field.
Qed.

Lemma keeps_insert_pdf_pages src_old dst_old dst_new page_numbers position :
  fresh s0 dst_new →
  kept (insert_pdf_pages src_old dst_old dst_new page_numbers position).
Proof. intros Hnew. unfold insert_pdf_pages. repeat keeps_step. Qed.

Lemma keeps_remove_pdf_pages old new pages_to_delete :
  fresh s0 new → kept (remove_pdf_pages old new pages_to_delete).
Proof. intros Hnew. unfold remove_pdf_pages. repeat keeps_step. Qed.

Lemma keeps_reorder_pdf_pages old new pages_data page_count :
  fresh s0 new → kept (reorder_pdf_pages old new pages_data page_count).
Proof. intros Hnew. unfold reorder_pdf_pages. repeat keeps_step. Qed.

Lemma keeps_rotate_pdf_pages old new pages_data :
  fresh s0 new → kept (rotate_pdf_pages old new pages_data).
Proof. intros Hnew. unfold rotate_pdf_pages. repeat keeps_step. Qed.
End keeps_flows.

#[local] Hint Resolve keeps_copy_pages_data keeps_reuse_ocr_data
  keeps_collect_text_streams keeps_reuse_text_field
  keeps_reuse_text_field_multi keeps_insert_pdf_pages keeps_remove_pdf_pages
  keeps_reorder_pdf_pages keeps_rotate_pdf_pages : keeps.

Section keeps_edits.
Context (s0 : Store).

Local Abbreviation kept m := (keeps s0 m (λ _, True)).

Lemma keeps_perform_destroy instance : kept (perform_destroy instance).
Proof. unfold perform_destroy. repeat keeps_step. Qed.

Lemma keeps_delete_pages page_ids : kept (delete_pages page_ids).
Proof.
  unfold delete_pages. do 2 keeps_step.
  eapply keeps_bind.
  { apply keeps_for_each. intros page _. repeat keeps_step. }
  intros _ _. repeat keeps_step.
Qed.

Lemma keeps_reorder_pages pages_data : kept (reorder_pages pages_data).
Proof. unfold reorder_pages. repeat keeps_step. Qed.

Lemma keeps_rotate_pages pages_data : kept (rotate_pages pages_data).
Proof. unfold rotate_pages. repeat keeps_step. Qed.

Lemma keeps_move_to_folder_multi_paged ids ps first_page dst_folder dst_user :
  kept (move_to_folder_multi_paged ids ps first_page dst_folder dst_user).
Proof.
  unfold move_to_folder_multi_paged. do 4 keeps_step.
  eapply keeps_bind; [apply keeps_pages_all|]. intros dst_pages Hdst.
  eapply keeps_bind.
  { apply keeps_for_each. intros [src_page dst_page] Hin.
    apply keeps_copy_page. simpl.
    apply elem_of_zip_r in Hin. by rewrite (Hdst _ Hin). }
  intros _ _. repeat keeps_step.
Qed.

Lemma keeps_move_to_folder_single_paged ps dst_folder dst_user :
  kept (move_to_folder_single_paged ps dst_folder dst_user).
Proof.
  unfold move_to_folder_single_paged. apply keeps_for_each. intros page _.
  unfold single_paged_body. do 2 keeps_step.
  eapply keeps_bind; [apply keeps_pages_all|]. intros dst_pages Hdst.
  eapply keeps_bind; [apply keeps_from_option|]. intros dst_page Hhead.
  simpl in Hhead. apply head_elem_of in Hhead.
  eapply keeps_bind.
  { apply keeps_copy_page. simpl. by rewrite (Hdst _ Hhead). }
  intros _ _. repeat keeps_step.
Qed.

Lemma keeps_move_to_folder user data : kept (move_to_folder user data).
Proof.
  unfold move_to_folder. do 11 keeps_step.
  destruct (single_page data).
  - apply keeps_move_to_folder_single_paged.
  - apply keeps_move_to_folder_multi_paged.
Qed.

Lemma keeps_move_to_document user data : kept (move_to_document user data).
Proof. unfold move_to_document. repeat keeps_step. Qed.

Lemma keeps_run_edit e : kept (run_edit e).
Proof.
  destruct e; simpl.
  - apply keeps_perform_destroy.
  - apply keeps_delete_pages.
  - apply keeps_reorder_pages.
  - apply keeps_rotate_pages.
  - apply keeps_move_to_folder.
  - apply keeps_move_to_document.
Qed.
End keeps_edits.

(** C6: whatever edit a view runs (single or multiple delete, reorder,
    rotate, move to folder, move to document), on whatever request, and
    whether it ends normally or with an exception, every version the store
    had before keeps its row, its payload file, its pages (keys, numbers,
    texts) and its per-page artifacts: the editors read the old payload and
    write the payload of the version [version_bump] has just created. *)
Theorem archived_versions_immutable (e : Edit) (s : Store) (v : nat) :
  (v < length (versions s))%nat →
  let s' := (run_edit e s).2 in
  versions s' !! v = versions s !! v
  ∧ files s' !! v = files s !! v
  ∧ version_pages v s' = version_pages v s
  ∧ ∀ n, page_files s' !! (v, n) = page_files s !! (v, n).
Proof.
  intros Hv s'.
  destruct (keeps_run_edit s e s (extends_refl s)) as [[_ _ Hvs Hrows Hf Hpf] _].
  fold s' in Hvs, Hrows, Hf, Hpf.
  repeat split.
  - destruct (lookup_lt_is_Some_2 (versions s) v Hv) as [row Hrow].
    rewrite Hrow. by eapply prefix_lookup_Some.
  - by apply Hf.
  - unfold version_pages. by rewrite Hrows.
  - intros n. by apply Hpf.
Qed.

Lemma archived_versions_immutable_witness :
  versions (run_edit (DeletePages [0; 1]%nat) three_pages).2 !! 0%nat
  = versions three_pages !! 0%nat
  ∧ files (run_edit (DeletePages [0; 1]%nat) three_pages).2 !! 0%nat
    = files three_pages !! 0%nat
  ∧ version_pages 0 (run_edit (DeletePages [0; 1]%nat) three_pages).2
    = version_pages 0 three_pages
  ∧ ∀ n, page_files (run_edit (DeletePages [0; 1]%nat) three_pages).2
           !! (0%nat, n)
         = page_files three_pages !! (0%nat, n).
Proof.
  apply (archived_versions_immutable (DeletePages [0; 1]%nat) three_pages 0).
  vm_compute. lia.
Defined.

(** ** The pages a request selects *)

Lemma StronglySorted_le_lt (l : list Z) :
  StronglySorted Z.le l → NoDup l → StronglySorted Z.lt l.
Proof.
  induction 1 as [|x l Hs IH Hx]; intros Hnd; [constructor|].
  apply NoDup_cons in Hnd as [Hx' Hnd].
  constructor; [by apply IH|].
  rewrite Forall_forall in Hx |- *. intros y Hy.
  specialize (Hx _ Hy). assert (x ≠ y) by (by intros ->). lia.
Qed.

Lemma fmap_NoDup_inj {A B} (f : A → B) (l : list A) x y :
  NoDup (f <$> l) → x ∈ l → y ∈ l → f x = f y → x = y.
Proof.
  induction l as [|z l IH]; simpl; intros Hnd Hx Hy Hf.
  { by apply elem_of_nil in Hx. }
  apply NoDup_cons in Hnd as [Hz Hnd].
  apply elem_of_cons in Hx as [->|Hx]; apply elem_of_cons in Hy as [->|Hy].
  - done.
  - exfalso. apply Hz. rewrite Hf. by apply list_elem_of_fmap_2.
  - exfalso. apply Hz. rewrite <-Hf. by apply list_elem_of_fmap_2.
  - by apply IH.
Qed.

Lemma NoDup_all_rows s : NoDup (all_rows s).
Proof.
  apply (NoDup_fmap_1 fst). unfold all_rows. rewrite fmap_imap.
  rewrite (imap_ext _ (λ i _, i)) by done.
  rewrite (imap_seq_0 (pages s) (λ i, i)), list_fmap_id. apply NoDup_seq.
Qed.

Lemma elem_of_select ids s r :
  r ∈ select ids s ↔ pages s !! r.1 = Some r.2 ∧ r.1 ∈ ids.
Proof.
  unfold select, order_by_number.
  rewrite sorted_by_Permutation, list_elem_of_filter.
  destruct r as [pk p]. rewrite elem_of_all_rows. simpl. tauto.
Qed.

Lemma NoDup_select ids s : NoDup (select ids s).
Proof.
  unfold select, order_by_number. rewrite sorted_by_Permutation.
  apply NoDup_filter, NoDup_all_rows.
Qed.

Lemma numbers_sorted (q : PageSet) :
  StronglySorted Z.le (numbers (order_by_number q)).
Proof.
  unfold numbers, order_by_number.
  apply (StronglySorted_fmap _ (key_le (λ r : nat * Page, number r.2)) Z.le).
  - by intros x y.
  - apply sorted_by_sorted.
Qed.

Lemma numbers_select s ids v n :
  numbers (version_pages v s) = range 1 (n + 1) →
  Forall (λ r, document_version r.2 = v) (select ids s) →
  StronglySorted Z.lt (numbers (select ids s))
  ∧ Forall (λ d, 1 ≤ d ≤ n) (numbers (select ids s)).
Proof.
  intros Hnum Hv. rewrite Forall_forall in Hv.
  assert (∀ r, r ∈ select ids s → r ∈ version_pages v s) as Hsub.
  { intros r Hr. apply elem_of_version_pages. split; [|by apply Hv].
    by apply elem_of_select in Hr as [? _]. }
  split.
  - apply StronglySorted_le_lt; [apply numbers_sorted|].
    apply NoDup_fmap_2_strong; [|apply NoDup_select].
    intros x y Hx Hy.
    apply (fmap_NoDup_inj (λ r : nat * Page, number r.2)
             (version_pages v s)); auto.
    fold (numbers (version_pages v s)). rewrite Hnum. apply NoDup_seqZ.
  - apply Forall_forall. intros d (r & -> & Hr)%list_elem_of_fmap.
    assert (number r.2 ∈ numbers (version_pages v s)) as Hin.
    { apply (list_elem_of_fmap_2 (λ r : nat * Page, number r.2)).
      by apply Hsub. }
    rewrite Hnum in Hin. unfold range in Hin.
    apply elem_of_seqZ in Hin. lia.
Qed.

(** ** Running the store operations *)

Ltac run :=
  unfold bind, gets, ret, raise, modify, lift, from_option, not_None; simpl.

Lemma version_bump_run d target s cur cur_row :
  current_version d s = Some cur →
  versions s !! cur = Some cur_row →
  version_bump d target s
  = (Ok (length (versions s)),
     bumped d cur_row (default (page_count cur_row) target) s).
Proof.
  unfold current_version. intros Hcur Hrow.
  unfold version_bump, versions_last, Version_get. run.
  rewrite Hcur. simpl. by rewrite Hrow.
Qed.

Lemma all_rows_pages_app s s' N :
  pages s' = pages s ++ N →
  all_rows s' = all_rows s ++ imap (λ i p, ((length (pages s) + i)%nat, p)) N.
Proof. unfold all_rows. intros ->. by rewrite imap_app. Qed.

Lemma filter_all_rows_none {P : nat * Page → Prop} `{!∀ r, Decision (P r)} s :
  (∀ i p, p ∈ pages s → ¬ P (i, p)) → filter P (all_rows s) = [].
Proof. intros HP. unfold all_rows. by apply (filter_imap_none (λ i, i)). Qed.

Lemma StronglySorted_imap_snd (N : list Page) : ∀ f : nat → nat,
  StronglySorted Z.le (number <$> N) →
  StronglySorted (key_le (λ r : nat * Page, number r.2))
    (imap (λ i p, (f i, p)) N).
Proof.
  induction N as [|p N IH]; intros f Hs; [constructor|].
  rewrite fmap_cons in Hs. apply StronglySorted_inv in Hs as [Hs Hp].
  rewrite imap_cons. constructor; [by apply (IH (f ∘ S))|].
  apply Forall_forall. intros r (i & q & -> & Hq)%elem_of_lookup_imap.
  unfold key_le. simpl. rewrite Forall_fmap, Forall_forall in Hp.
  apply Hp. by eapply list_elem_of_lookup_2.
Qed.


Lemma version_pages_app v s s' N :
  pages s' = pages s ++ N →
  Forall (λ p, document_version p ≠ v) N →
  version_pages v s' = version_pages v s.
Proof.
  intros Hp HN. unfold version_pages.
  rewrite (all_rows_pages_app s s' N Hp), filter_app.
  rewrite filter_imap_none; [by rewrite app_nil_r|].
  intros i p Hin. rewrite Forall_forall in HN. by apply HN.
Qed.

Lemma version_pages_new v s s' N :
  pages s' = pages s ++ N →
  Forall (λ p, document_version p ≠ v) (pages s) →
  Forall (λ p, document_version p = v) N →
  StronglySorted Z.le (number <$> N) →
  version_pages v s' = imap (λ i p, ((length (pages s) + i)%nat, p)) N.
Proof.
  intros Hp Hold HN Hsorted. unfold version_pages.
  rewrite (all_rows_pages_app s s' N Hp), filter_app.
  rewrite filter_all_rows_none.
  2:{ intros i p Hin. rewrite Forall_forall in Hold. by apply Hold. }
  rewrite filter_imap_all.
  2:{ intros i p Hin. rewrite Forall_forall in HN. by apply HN. }
  simpl. apply sorted_by_id. by apply StronglySorted_imap_snd.
Qed.

Lemma select_same ids s s' : pages s' = pages s → select ids s' = select ids s.
Proof. unfold select, all_rows. by intros ->. Qed.

Lemma select_app ids s s' N :
  pages s' = pages s ++ N →
  Forall (λ i, (i < length (pages s))%nat) ids →
  select ids s' = select ids s.
Proof.
  intros Hp Hids. unfold select.
  rewrite (all_rows_pages_app s s' N Hp), filter_app.
  rewrite filter_imap_none; [by rewrite app_nil_r|].
  intros i p _ Hin. simpl in Hin. rewrite Forall_forall in Hids.
  specialize (Hids _ Hin). lia.
Qed.

Lemma StronglySorted_seqZ a n : StronglySorted Z.le (seqZ a n).
Proof.
  destruct (decide (0 ≤ n)) as [Hn|Hn]; [|rewrite seqZ_nil by lia; constructor].
  revert a. pattern n. apply natlike_ind; [| |done].
  - intros a. rewrite seqZ_nil by lia. constructor.
  - intros m Hm IH a. rewrite seqZ_cons by lia.
    replace (Z.pred (Z.succ m)) with m by lia.
    constructor; [apply IH|]. apply Forall_seqZ. intros; lia.
Qed.

Lemma placeholders_numbers lang v n :
  number <$> placeholders lang v n = range 1 (n + 1).
Proof.
  unfold placeholders. rewrite <-list_fmap_compose.
  by rewrite (list_fmap_ext _ (λ i, i) (range 1 (n + 1))), list_fmap_id.
Qed.

Lemma placeholders_version lang v n :
  Forall (λ p, document_version p = v) (placeholders lang v n).
Proof. unfold placeholders. apply Forall_fmap, Forall_forall. by intros. Qed.

Lemma length_range a b : a ≤ b → len (range a b) = b - a.
Proof. intros. unfold len, range. rewrite length_seqZ. lia. Qed.

Lemma wf_not_new s :
  wf s → Forall (λ p, document_version p ≠ length (versions s)) (pages s).
Proof.
  intros Hwf. eapply Forall_impl; [exact Hwf|]. simpl. intros; lia.
Qed.

Lemma set_texts_run (N : list Page) : ∀ (P : list Page) texts s,
  pages s = P ++ N →
  for_each (zip (imap (λ i p, ((length P + i)%nat, p)) N) texts)
    (λ rt, modify (set_pages (alter (set_text rt.2) rt.1.1))) s
  = (Ok tt, set_pages (λ _, P ++ zip_text N texts) s).
Proof.
  induction N as [|p N IH]; intros P texts s Hs.
  { simpl. unfold ret. by rewrite <-Hs. }
  destruct texts as [|t texts].
  { simpl. unfold ret. by rewrite <-Hs. }
  rewrite imap_cons. cbn [zip zip_with for_each fst snd].
  rewrite (bind_Ok _ _ s tt
    (set_pages (alter (set_text t) (length P + 0)%nat) s)) by done.
  specialize (IH (P ++ [set_text t p]) texts
    (set_pages (alter (set_text t) (length P + 0)%nat) s)).
  rewrite length_app in IH. simpl length in IH.
  rewrite (imap_ext _ (λ i q, ((length P + 1 + i)%nat, q))).
  2:{ intros i q _. simpl. f_equal. lia. }
  rewrite IH.
  - simpl. by rewrite <-app_assoc.
  - simpl. rewrite Hs, alter_app_r. simpl. by rewrite <-app_assoc.
Qed.

Lemma update_text_field_run v streams s (P N : list Page) :
  pages s = P ++ N →
  version_pages v s = imap (λ i p, ((length P + i)%nat, p)) N →
  update_text_field v streams s
  = (Ok tt,
     set_versions
       (alter (set_version_text (String.concat " " (take (length N) streams))) v)
       (set_pages (λ _, P ++ zip_text N streams) s)).
Proof.
  intros Hs Hv. unfold update_text_field, pages_all.
  unfold bind at 1, gets. rewrite Hv.
  unfold bind. rewrite (set_texts_run N P streams s Hs).
  unfold modify. by rewrite length_imap.
Qed.

Lemma zip_text_length N texts : length (zip_text N texts) = length N.
Proof.
  revert texts. induction N as [|p N IH]; intros [|t texts]; simpl; auto.
Qed.

Lemma zip_text_version v N texts :
  Forall (λ p, document_version p = v) N →
  Forall (λ p, document_version p = v) (zip_text N texts).
Proof.
  revert texts. induction N as [|p N IH]; intros [|t texts] HN; simpl; auto.
  apply Forall_cons in HN as [Hp HN]. constructor; [done|]. by apply IH.
Qed.

Lemma zip_text_numbers N texts : number <$> zip_text N texts = number <$> N.
Proof.
  revert texts. induction N as [|p N IH]; intros [|t texts]; simpl; auto.
  by rewrite IH.
Qed.

Lemma zip_text_texts N texts :
  length texts = length N → text <$> zip_text N texts = texts.
Proof.
  revert texts. induction N as [|p N IH]; intros [|t texts]; simpl; try done.
  intros [= Hlen]. by rewrite IH.
Qed.

Lemma for_each_copy_run {A} (l : list A) (src dst : A → nat * Z) : ∀ s,
  ∃ pf, for_each l (λ item, copy_page (src item) (dst item)) s
        = (Ok tt, set_page_files (λ _, pf) s).
Proof.
  induction l as [|x l IH]; intros s; simpl.
  { by exists (page_files s). }
  destruct (IH (set_page_files
    (λ m, match m !! src x with Some a => <[dst x := a]> m | None => m end) s))
    as [pf Hpf].
  exists pf. erewrite bind_Ok; [exact Hpf|done].
Qed.

Lemma reuse_ocr_data_run old new page_map s :
  ∃ pf, reuse_ocr_data old new page_map s = (Ok tt, set_page_files (λ _, pf) s).
Proof. apply for_each_copy_run. Qed.

Lemma remove_pdf_pages_run s old new (pages_to_delete : PageSet) (pdf : Pdf) :
  files s !! old = Some pdf →
  StronglySorted Z.lt (numbers pages_to_delete) →
  Forall (λ n, 1 ≤ n ≤ len pdf) (numbers pages_to_delete) →
  remove_pdf_pages old new pages_to_delete s
  = (Ok tt,
     set_files (λ fs, <[new := survivors pdf (numbers pages_to_delete)]> fs) s).
Proof.
  intros Hfile Hsorted Hrange.
  unfold remove_pdf_pages, Pdf_open. run. rewrite Hfile. simpl.
  fold (numbers pages_to_delete).
  rewrite remove_loop_survivors; [done|done|].
  eapply Forall_impl; [exact Hrange|]. simpl. intros; lia.
Qed.

(** ** Collecting the texts of a version *)

Lemma pages_dict_snoc (ps : PageSet) r :
  pages_dict (ps ++ [r]) = <[number r.2 := r.2]> (pages_dict ps).
Proof. unfold pages_dict. by rewrite foldl_app. Qed.

Lemma pages_dict_elem (ps : PageSet) :
  ∀ j r, NoDup (numbers ps) → ps !! j = Some r →
  pages_dict ps !! number r.2 = Some r.2.
Proof.
  induction ps as [|x ps IH] using rev_ind; intros j r Hnd Hj; [done|].
  unfold numbers in Hnd. rewrite fmap_app in Hnd.
  apply NoDup_app in Hnd as (Hnd & Hx & _).
  rewrite pages_dict_snoc.
  destruct (decide (j < length ps)%nat) as [Hlt|Hge].
  - rewrite lookup_app_l in Hj by done.
    rewrite lookup_insert_ne; [by eapply IH|].
    intros Heq. apply (Hx (number r.2)).
    + apply (list_elem_of_fmap_2 (λ r : nat * Page, number r.2)).
      by eapply list_elem_of_lookup_2.
    + rewrite <-Heq. simpl. left.
  - rewrite lookup_app_r in Hj by lia.
    destruct (j - length ps)%nat; simpl in Hj; [|done].
    injection Hj as <-. by rewrite lookup_insert_eq.
Qed.

Lemma numbers_lookup (ps : PageSet) n i :
  numbers ps = range 1 (n + 1) → 1 ≤ i ≤ n →
  ∃ r, ps !! Z.to_nat (i - 1) = Some r ∧ number r.2 = i.
Proof.
  intros Hnum Hi.
  assert (numbers ps !! Z.to_nat (i - 1) = Some i) as Hl.
  { rewrite Hnum. unfold range. rewrite lookup_seqZ_lt by lia. f_equal. lia. }
  unfold numbers in Hl. rewrite list_lookup_fmap in Hl.
  destruct (ps !! Z.to_nat (i - 1)) as [r|]; [|done].
  exists r. split; [done|]. by injection Hl.
Qed.

Lemma collect_streams_run (ps : PageSet) n nums :
  numbers ps = range 1 (n + 1) →
  Forall (λ i, 1 ≤ i ≤ n) nums →
  collect_streams (pages_dict ps) nums
  = Ok (text_at ((λ r, text r.2) <$> ps) <$> nums).
Proof.
  intros Hnum. induction 1 as [|i nums Hi _ IH]; simpl; [done|].
  destruct (numbers_lookup ps n i Hnum Hi) as (r & Hr & Hri).
  assert (pages_dict ps !! i = Some r.2) as ->.
  { rewrite <-Hri. eapply pages_dict_elem; [|done].
    rewrite Hnum. apply NoDup_seqZ. }
  rewrite IH. unfold text_at at 2. rewrite list_lookup_fmap, Hr. done.
Qed.

Lemma collect_text_streams_run v s n nums :
  numbers (version_pages v s) = range 1 (n + 1) →
  Forall (λ i, 1 ≤ i ≤ n) nums →
  collect_text_streams v nums s = (Ok (text_at (page_texts v s) <$> nums), s).
Proof.
  intros Hnum Hnums. unfold collect_text_streams, pages_all. run.
  by rewrite (collect_streams_run _ n).
Qed.

Lemma text_at_app (pre l : list string) x :
  text_at (pre ++ x :: l) (len pre + 1) = x.
Proof.
  unfold text_at, len.
  replace (Z.to_nat (Z.of_nat (length pre) + 1 - 1)) with (length pre) by lia.
  by rewrite list_lookup_middle.
Qed.

Lemma text_at_keep_from ds (l : list string) : ∀ pre,
  text_at (pre ++ l) <$>
    filter (λ n, n ∉ ds) (seqZ (len pre + 1) (len l))
  = keep_from (len pre + 1) l ds.
Proof.
  induction l as [|x l IH]; intros pre; [done|].
  unfold len at 2. rewrite seqZ_cons by (simpl; lia).
  replace (Z.pred (Z.of_nat (length (x :: l)))) with (len l)
    by (unfold len; simpl; lia).
  specialize (IH (pre ++ [x])).
  rewrite <-app_assoc in IH. simpl in IH.
  replace (len (pre ++ [x]) + 1) with (Z.succ (len pre + 1)) in IH
    by (unfold len; rewrite length_app; simpl; lia).
  replace (len pre + 1 + 1) with (Z.succ (len pre + 1)) by lia.
  rewrite filter_cons. simpl keep_from.
  destruct (decide (len pre + 1 ∉ ds)) as [Hin|Hin].
  - rewrite bool_decide_eq_false_2 by done.
    rewrite fmap_cons, text_at_app. by rewrite IH.
  - rewrite bool_decide_eq_true_2 by (by apply dec_stable).
    by rewrite IH.
Qed.

Lemma text_at_survivors (texts : list string) ds :
  text_at texts <$> filter (λ n, n ∉ ds) (range 1 (len texts + 1))
  = survivors texts ds.
Proof.
  unfold range. replace (len texts + 1 - 1) with (len texts) by lia.
  apply (text_at_keep_from ds texts []).
Qed.

Lemma text_at_range (texts : list string) :
  text_at texts <$> range 1 (len texts + 1) = texts.
Proof.
  transitivity (survivors texts []); [|apply keep_from_nil].
  rewrite <-(text_at_survivors texts []). f_equal.
  induction (range 1 (len texts + 1)) as [|x l IH]; [done|].
  rewrite filter_cons_True by set_solver. by rewrite <-IH.
Qed.

Lemma keep_from_length {A} (l : list A) c ds :
  StronglySorted Z.lt ds →
  Forall (λ d, c < d ≤ c + len l) ds →
  len (keep_from (c + 1) l ds) = len l - len ds.
Proof.
  intros Hs Hr.
  pose (pdf := (λ _ : A, mkPdfPage 0 0) <$> l).
  assert (len pdf = len l) as Hlen by (unfold len, pdf; by rewrite length_fmap).
  assert (remove_loop pdf c ds = Ok (keep_from (c + 1) pdf ds)) as Hloop.
  { apply remove_loop_survivors; [done|]. by rewrite Hlen. }
  apply remove_loop_length in Hloop. rewrite Hlen in Hloop.
  unfold pdf in Hloop. rewrite keep_from_fmap in Hloop.
  unfold len in *. by rewrite length_fmap in Hloop.
Qed.

Lemma get_assigns_after_delete_old total_pages deleted_pages :
  (get_assigns_after_delete total_pages deleted_pages).*2
  = filter (λ n, n ∉ deleted_pages) (range 1 (total_pages + 1)).
Proof.
  unfold get_assigns_after_delete. apply snd_zip.
  unfold range, len. rewrite length_seqZ. lia.
Qed.

(** ** The delete flow *)

Lemma numbers_imap (f : nat → nat) (N : list Page) :
  numbers (imap (λ i p, (f i, p)) N) = number <$> N.
Proof.
  unfold numbers. rewrite fmap_imap.
  rewrite (imap_ext _ (λ _ p, number p)) by done. apply imap_const.
Qed.

Lemma texts_imap (f : nat → nat) (N : list Page) :
  (λ r : nat * Page, text r.2) <$> imap (λ i p, (f i, p)) N = text <$> N.
Proof.
  rewrite fmap_imap.
  rewrite (imap_ext _ (λ _ p, text p)) by done. apply imap_const.
Qed.

Lemma version_ok_texts s v row pdf :
  version_ok s v row pdf → 0 ≤ page_count row →
  len (page_texts v s) = page_count row.
Proof.
  intros [_ _ Hnum _ _] Hn.
  assert (len (numbers (version_pages v s)) = page_count row) as Hlen.
  { rewrite Hnum, length_range; lia. }
  unfold len, numbers, page_texts in *.
  rewrite length_fmap in Hlen. by rewrite length_fmap.
Qed.

Lemma delete_steps s v row pdf (ptd : PageSet) :
  wf s → version_ok s v row pdf →
  StronglySorted Z.lt (numbers ptd) →
  Forall (λ d, 1 ≤ d ≤ page_count row) (numbers ptd) →
  let v' := length (versions s) in
  let n := page_count row - len ptd in
  let page_map := get_assigns_after_delete (page_count row) (numbers ptd) in
  let s1 := bumped (document row) row n s in
  let s2 := set_files (λ fs, <[v' := survivors pdf (numbers ptd)]> fs) s1 in
  ∃ pf,
    version_bump (document row) (Some n) s = (Ok v', s1)
    ∧ remove_pdf_pages v v' ptd s1 = (Ok tt, s2)
    ∧ reuse_ocr_data v v' page_map s2 = (Ok tt, set_page_files (λ _, pf) s2)
    ∧ reuse_text_field v v' page_map (set_page_files (λ _, pf) s2)
      = (Ok tt, deleted_store v row pdf (numbers ptd) pf s).
Proof.
  intros Hwf Hok Hsorted Hrange v' n page_map s1 s2.
  pose proof Hok as [Hrow Hcur Hnum Hfile Hpayload].
  assert (len (numbers ptd) = len ptd) as Hk
    by (unfold len, numbers; by rewrite length_fmap).
  assert (0 ≤ page_count row) as Hn0.
  { rewrite <-Hpayload. unfold len. lia. }
  assert (len (keep_from (0 + 1) (page_texts v s) (numbers ptd)) = n) as Hlen.
  { rewrite keep_from_length; [|done|].
    - rewrite (version_ok_texts s v row pdf), Hk by done. done.
    - rewrite (version_ok_texts s v row pdf) by done.
      eapply Forall_impl; [exact Hrange|]. simpl. intros; lia. }
  assert (0 ≤ n) as Hn by (rewrite <-Hlen; unfold len; lia).
  destruct (reuse_ocr_data_run v v' page_map s2) as [pf Hpf].
  exists pf. split_and!.
  - exact (version_bump_run (document row) (Some n) s v row Hcur Hrow).
  - apply remove_pdf_pages_run; [done|done|by rewrite Hpayload].
  - done.
  - set (s3 := set_page_files (λ _, pf) s2).
    assert (v < length (versions s))%nat as Hv by (by eapply lookup_lt_Some).
    assert (version_pages v s3 = version_pages v s) as Hvp.
    { apply (version_pages_app v s s3 (placeholders (version_lang row) v' n));
        [done|].
      eapply Forall_impl; [apply placeholders_version|].
      simpl. intros p ->. unfold v'. lia. }
    unfold reuse_text_field.
    erewrite bind_Ok.
    2:{ apply (collect_text_streams_run v s3 (page_count row)).
        - by rewrite Hvp.
        - unfold page_map. rewrite get_assigns_after_delete_old.
          apply Forall_forall. intros i [_ Hi]%list_elem_of_filter.
          unfold range in Hi. apply elem_of_seqZ in Hi. lia. }
    unfold page_texts at 1. rewrite Hvp. fold (page_texts v s).
    unfold page_map. rewrite get_assigns_after_delete_old.
    rewrite <-(version_ok_texts s v row pdf Hok Hn0) at 1.
    rewrite text_at_survivors.
    rewrite (update_text_field_run v' _ s3 (pages s)
               (placeholders (version_lang row) v' n)); [|done|].
    2:{ apply (version_pages_new v' s s3); [done|by apply wf_not_new| |].
        - apply placeholders_version.
        - rewrite placeholders_numbers. apply StronglySorted_seqZ. }
    f_equal. unfold deleted_store. rewrite Hk. fold n. fold v'.
    assert (length (placeholders (version_lang row) v' n)
            = length (survivors (page_texts v s) (numbers ptd))) as Hlen'.
    { unfold placeholders. rewrite length_fmap. unfold range.
      rewrite length_seqZ. unfold survivors. unfold len in Hlen.
      change (0 + 1) with 1 in Hlen. lia. }
    rewrite Hlen', firstn_all.
    unfold s3, s2, s1, bumped, set_versions, set_pages, set_files,
      set_page_files. simpl. f_equal.
    unfold v'. by rewrite alter_app_r_alt, Nat.sub_diag by lia.
Qed.

Lemma current_version_app s s' d r :
  versions s' = versions s ++ [r] → document r = d →
  current_version d s' = Some (length (versions s)).
Proof.
  intros Hvs Hd. unfold current_version, versions_of.
  rewrite Hvs, imap_app, filter_app. simpl.
  rewrite filter_cons_True by done.
  rewrite filter_nil, last_snoc. simpl. f_equal. lia.
Qed.

Lemma deleted_store_facts s v row pdf ds pf :
  wf s → version_ok s v row pdf →
  StronglySorted Z.lt ds → Forall (λ d, 1 ≤ d ≤ page_count row) ds →
  let s' := deleted_store v row pdf ds pf s in
  let v' := length (versions s) in
  let n := page_count row - len ds in
  current_version (document row) s' = Some v'
  ∧ versions s' !! v'
    = Some (mkVersion (document row) (version_number row + 1) n
              (String.concat " " (survivors (page_texts v s) ds))
              (version_lang row))
  ∧ files s' !! v' = Some (survivors pdf ds)
  ∧ len (survivors pdf ds) = n
  ∧ numbers (version_pages v' s') = range 1 (n + 1)
  ∧ page_texts v' s' = survivors (page_texts v s) ds.
Proof.
  intros Hwf Hok Hsorted Hrange s' v' n.
  pose proof Hok as [Hrow Hcur Hnum Hfile Hpayload].
  assert (0 ≤ page_count row) as Hn0 by (rewrite <-Hpayload; unfold len; lia).
  assert (version_pages v' s'
    = imap (λ i p, ((length (pages s) + i)%nat, p))
        (zip_text (placeholders (version_lang row) v' n)
           (survivors (page_texts v s) ds))) as Hvp.
  { apply (version_pages_new v' s s'); [done|by apply wf_not_new| |].
    - apply zip_text_version, placeholders_version.
    - rewrite zip_text_numbers, placeholders_numbers.
      apply StronglySorted_seqZ. }
  split_and!.
  - by apply (current_version_app s s' _ _ eq_refl).
  - unfold s', deleted_store. simpl.
    by rewrite lookup_app_r, Nat.sub_diag by (unfold v'; lia).
  - unfold s', deleted_store. simpl. by rewrite lookup_insert_eq.
  - unfold survivors, n. rewrite <-Hpayload.
    apply (keep_from_length pdf 0 ds); [done|].
    eapply Forall_impl; [exact Hrange|]. simpl. intros; lia.
  - by rewrite Hvp, numbers_imap, zip_text_numbers, placeholders_numbers.
  - unfold page_texts at 1. rewrite Hvp, texts_imap.
    apply zip_text_texts. unfold placeholders, range.
    rewrite length_fmap, length_seqZ.
    assert (len (keep_from (0 + 1) (page_texts v s) ds) = n) as Hlen.
    { rewrite keep_from_length; [|done|].
      - by rewrite (version_ok_texts s v row pdf).
      - rewrite (version_ok_texts s v row pdf) by done.
        eapply Forall_impl; [exact Hrange|]. simpl. intros; lia. }
    unfold survivors, len in *. change (0 + 1) with 1 in Hlen. lia.
Qed.

Lemma is_archived_current s p row :
  versions s !! document_version p = Some row →
  current_version (document row) s = Some (document_version p) →
  is_archived p s = (Ok false, s).
Proof.
  unfold current_version. intros Hrow Hcur.
  unfold is_archived, Version_get, versions_last. run.
  rewrite Hrow. simpl. rewrite Hcur.
  by rewrite bool_decide_eq_false_2 by (by intros ?).
Qed.

Lemma for_each_not_archived s v row (ps : PageSet) :
  versions s !! v = Some row →
  current_version (document row) s = Some v →
  Forall (λ r, document_version r.2 = v) ps →
  for_each ps (λ page,
    archived <- is_archived page.2 ;;
    if archived then raise ArchivedEditConflict else ret tt) s
  = (Ok tt, s).
Proof.
  intros Hrow Hcur. induction 1 as [|r ps Hr _ IH]; simpl; [done|].
  erewrite bind_Ok; [exact IH|].
  rewrite (bind_Ok _ _ s false s); [done|].
  apply (is_archived_current s r.2 row); by rewrite Hr.
Qed.

Lemma pages_count_range s v n :
  numbers (version_pages v s) = range 1 (n + 1) → 0 ≤ n →
  len (version_pages v s) = n.
Proof.
  intros Hnum Hn.
  assert (len (numbers (version_pages v s)) = n) as Hlen
    by (rewrite Hnum, length_range; lia).
  unfold len, numbers in *. by rewrite length_fmap in Hlen.
Qed.

Lemma select_singleton s pk :
  select [pk] s ≠ [] →
  ∃ p, pages s !! pk = Some p ∧ select [pk] s = [(pk, p)].
Proof.
  intros Hne. pose proof (NoDup_select [pk] s) as Hnd.
  assert (∀ r, r ∈ select [pk] s → r.1 = pk ∧ pages s !! pk = Some r.2) as Hel.
  { intros r [Hr Hin]%elem_of_select.
    apply list_elem_of_singleton in Hin. by rewrite <-Hin. }
  destruct (select [pk] s) as [|[pk1 p1] [|[pk2 p2] l]]; [done| |].
  - destruct (Hel (pk1, p1)) as [Hpk Hp]; [left|]. simpl in *. subst pk1.
    by exists p1.
  - exfalso. destruct (Hel (pk1, p1)) as [Hpk1 Hp1]; [left|].
    destruct (Hel (pk2, p2)) as [Hpk2 Hp2]; [right; left|].
    simpl in *. subst pk1 pk2. rewrite Hp1 in Hp2. injection Hp2 as <-.
    apply NoDup_cons in Hnd as [Hnd _]. apply Hnd. left.
Qed.

(** The two delete views run the same delete flow: [delete_pages] when the
    selection leaves a page, [perform_destroy] on a selection of one page. *)
Lemma delete_runs s page_ids v row pdf :
  wf s → version_ok s v row pdf →
  select page_ids s ≠ [] →
  Forall (λ r, document_version r.2 = v) (select page_ids s) →
  ∃ pf,
    (len (select page_ids s) < page_count row →
     delete_pages page_ids s
     = (Ok tt, deleted_store v row pdf (numbers (select page_ids s)) pf s))
    ∧ (∀ instance, page_ids = [instance] →
       perform_destroy instance s
       = (Ok tt, deleted_store v row pdf (numbers (select page_ids s)) pf s)).
Proof.
  intros Hwf Hok Hne Hv.
  pose proof Hok as [Hrow Hcur Hnum Hfile Hpayload].
  assert (0 ≤ page_count row) as Hn0 by (rewrite <-Hpayload; unfold len; lia).
  destruct (numbers_select s page_ids v (page_count row) Hnum Hv)
    as [Hsorted Hrange].
  destruct (delete_steps s v row pdf (select page_ids s) Hwf Hok Hsorted Hrange)
    as (pf & Hbump & Hremove & Hocr & Htext).
  exists pf. split.
  - intros Hlt. unfold delete_pages, Page_objects_filter.
    unfold bind at 1, gets at 1. unfold bind at 1, gets at 1.
    rewrite (bind_Ok _ _ s tt s)
      by (by eapply for_each_not_archived).
    destruct (select page_ids s) as [|first_page ptd] eqn:Hsel; [done|].
    apply Forall_cons in Hv as [Hfirst _].
    simpl first. unfold not_None, from_option. unfold bind at 1, ret at 1.
    rewrite Hfirst. unfold pages_count. unfold bind at 1, gets at 1.
    rewrite (pages_count_range s v (page_count row)) by done.
    rewrite bool_decide_eq_false_2 by lia.
    unfold Version_get. unfold bind at 1. unfold bind at 1, gets at 1.
    rewrite Hrow. unfold from_option, ret at 1.
    rewrite (bind_Ok _ _ _ _ _ Hbump), (bind_Ok _ _ _ _ _ Hremove).
    cbv zeta. by rewrite (bind_Ok _ _ _ _ _ Hocr).
  - intros instance ->.
    destruct (select_singleton s instance Hne) as (p & Hp & Hsel).
    rewrite Hsel in *. apply Forall_cons in Hv as [Hdv _]. simpl in Hdv.
    unfold perform_destroy, Page_get.
    unfold bind at 1. unfold bind at 1, gets at 1. rewrite Hp.
    unfold from_option, ret at 1.
    rewrite (bind_Ok _ _ s false s)
      by (apply (is_archived_current s p row); by rewrite Hdv).
    rewrite Hdv. unfold Version_get.
    unfold bind at 1. unfold bind at 1, gets at 1.
    rewrite Hrow. unfold from_option, ret at 1.
    change (page_count row - 1) with (page_count row - len [(instance, p)]).
    rewrite (bind_Ok _ _ _ _ _ Hbump).
    unfold Page_objects_filter. unfold bind at 1, gets at 1.
    rewrite (select_app [instance] s _
               (placeholders (version_lang row) (length (versions s))
                  (page_count row - len [(instance, p)]))); [|done|].
    2:{ constructor; [|constructor]. by eapply lookup_lt_Some. }
    rewrite Hsel, (bind_Ok _ _ _ _ _ Hremove). cbv zeta.
    by rewrite (bind_Ok _ _ _ _ _ Hocr).
Qed.

(** C4: deleting a non-empty selection of pages of a current version that
    leaves at least one page, through [delete_pages] (and, for a single
    page, through [perform_destroy], with the same outcome), gives the
    document a new current version whose page count is the old one minus
    the number of deleted pages, whose payload has exactly that many pages
    (the survivors of the old payload), whose pages are numbered from 1 and
    carry, in order, the unchanged texts of the surviving pages, and whose
    text is these texts joined by a space. *)
Theorem delete_pages_correct (s : Store) (page_ids : list nat) (v : nat)
    (row : DocumentVersion) (pdf : Pdf) :
  wf s → version_ok s v row pdf →
  select page_ids s ≠ [] →
  Forall (λ r, document_version r.2 = v) (select page_ids s) →
  len (select page_ids s) < page_count row →
  let deleted := numbers (select page_ids s) in
  let v' := length (versions s) in
  ∃ s' row' pdf',
    delete_pages page_ids s = (Ok tt, s')
    ∧ current_version (document row) s' = Some v'
    ∧ versions s' !! v' = Some row'
    ∧ page_count row' = page_count row - len deleted
    ∧ files s' !! v' = Some pdf'
    ∧ pdf' = survivors pdf deleted
    ∧ len pdf' = page_count row - len deleted
    ∧ numbers (version_pages v' s') = range 1 (page_count row' + 1)
    ∧ page_texts v' s' = survivors (page_texts v s) deleted
    ∧ version_text row' = String.concat " " (page_texts v' s')
    ∧ ∀ instance, page_ids = [instance] →
        perform_destroy instance s = (Ok tt, s').
Proof.
  intros Hwf Hok Hne Hv Hlt deleted v'. subst deleted v'.
  destruct (delete_runs s page_ids v row pdf Hwf Hok Hne Hv)
    as (pf & Hrun & Hsingle).
  specialize (Hrun Hlt).
  destruct (numbers_select s page_ids v (page_count row) (ok_numbers _ _ _ _ Hok) Hv)
    as [Hsorted Hrange].
  destruct (deleted_store_facts s v row pdf _ pf Hwf Hok Hsorted Hrange)
    as (Hcur & Hrow' & Hfile' & Hlen & Hnum & Htexts).
  eexists _, _, _. split; [exact Hrun|].
  split; [exact Hcur|]. split; [exact Hrow'|].
  split; [done|]. split; [exact Hfile'|]. split; [done|].
  split; [exact Hlen|]. split; [exact Hnum|]. split; [exact Htexts|].
  split; [by rewrite Htexts|].
  exact Hsingle.
Qed.

Lemma delete_pages_correct_witness :
  ∃ s' row' pdf',
    delete_pages [0; 1]%nat three_pages = (Ok tt, s')
    ∧ current_version 0 s' = Some 1%nat
    ∧ versions s' !! 1%nat = Some row'
    ∧ page_count row' = 1
    ∧ files s' !! 1%nat = Some pdf'
    ∧ pdf' = [mkPdfPage 12 0]
    ∧ len pdf' = 1
    ∧ numbers (version_pages 1 s') = [1]
    ∧ page_texts 1 s' = ["page 3"]
    ∧ version_text row' = "page 3".
Proof.
  destruct (delete_pages_correct three_pages [0; 1]%nat 0
    (mkVersion 0 1 3 "page 1 page 2 page 3" "deu")
    [mkPdfPage 10 0; mkPdfPage 11 0; mkPdfPage 12 0])
    as (s' & row' & pdf' & Hrun & Hcur & Hrow & Hcount & Hfile & Hpdf & Hlen
        & Hnum & Htexts & Htext & _).
  - repeat constructor.
  - split; reflexivity.
  - discriminate.
  - repeat constructor.
  - reflexivity.
  - exists s', row', pdf'.
    split; [exact Hrun|]. split; [exact Hcur|]. split; [exact Hrow|].
    split; [exact Hcount|]. split; [exact Hfile|]. split; [exact Hpdf|].
    split; [exact Hlen|].
    split; [rewrite Hcount in Hnum; exact Hnum|].
    split; [exact Htexts|].
    rewrite Htexts in Htext. exact Htext.
Defined.

(** C3, the single-page endpoint on the only page of a document:
    [perform_destroy] has no check of the remaining page count, so the
    delete is carried out and the document's new current version has no
    page and an empty payload; [delete_pages] refuses the same delete and
    leaves the store as it was. *)
Theorem perform_destroy_last_page :
  ∃ s',
    perform_destroy 0 one_page = (Ok tt, s')
    ∧ current_version 0 s' = Some 1%nat
    ∧ page_count <$> versions s' !! 1%nat = Some 0
    ∧ files s' !! 1%nat = Some []
    ∧ version_pages 1 s' = []
    ∧ delete_pages [0%nat] one_page = (Raise InvariantViolation, one_page).
Proof.
  exists (perform_destroy 0 one_page).2.
  vm_compute. repeat split.
Qed.

(** The multi-page endpoint does keep one page: a selection that covers
    the whole current version is refused before any write. *)
Lemma delete_pages_keeps_one s page_ids v row pdf :
  version_ok s v row pdf →
  select page_ids s ≠ [] →
  Forall (λ r, document_version r.2 = v) (select page_ids s) →
  page_count row ≤ len (select page_ids s) →
  delete_pages page_ids s = (Raise InvariantViolation, s).
Proof.
  intros [Hrow Hcur Hnum Hfile Hpayload] Hne Hv Hle.
  unfold delete_pages, Page_objects_filter.
  unfold bind at 1, gets at 1. unfold bind at 1, gets at 1.
  rewrite (bind_Ok _ _ s tt s) by (by eapply for_each_not_archived).
  destruct (select page_ids s) as [|first_page ptd] eqn:Hsel; [done|].
  apply Forall_cons in Hv as [Hfirst _].
  simpl first. unfold not_None, from_option. unfold bind at 1, ret at 1.
  rewrite Hfirst. unfold pages_count. unfold bind at 1, gets at 1.
  rewrite (pages_count_range s v (page_count row))
    by (done || rewrite <-Hpayload; unfold len; lia).
  by rewrite bool_decide_eq_true_2 by lia.
Qed.

(** C2, rotate page 1 by 90 degrees and edit again under the original page
    id: the page is archived after the first rotation, yet a second
    rotation and a reorder that name it are carried out, each producing a
    third version from the archived one; only the delete views refuse. *)
Theorem rotate_then_edit_archived_page :
  ∃ s1 s2 s3 page,
    rotate_pages [mkRotate 0 90] living_things = (Ok tt, s1)
    ∧ pages s1 !! 0%nat = Some page
    ∧ is_archived page s1 = (Ok true, s1)
    ∧ rotate_pages [mkRotate 0 90] s1 = (Ok tt, s2)
    ∧ length (versions s2) = 3%nat
    ∧ reorder_pages [mkReorder 0 1 2; mkReorder 1 2 1] s1 = (Ok tt, s3)
    ∧ length (versions s3) = 3%nat
    ∧ delete_pages [0%nat] s1 = (Raise ArchivedEditConflict, s1)
    ∧ perform_destroy 0 s1 = (Raise ArchivedEditConflict, s1).
Proof.
  pose (s1 := (rotate_pages [mkRotate 0 90] living_things).2).
  exists s1, (rotate_pages [mkRotate 0 90] s1).2,
    (reorder_pages [mkReorder 0 1 2; mkReorder 1 2 1] s1).2,
    (mkPage 1 "fish" "deu" 0).
  vm_compute. repeat split.
Qed.

(** C1, moving the first two pages of the source document into the
    destination document at position 1: the destination's new version has
    5 pages and its payload has the moved pages after the first old page,
    but the texts are "flower", "cat", "flower", "tree" and none for page
    5 (not "flower", "cat", "dog", "tree", "plant"), and the only artifacts
    copied are those of the destination's old pages 1 and 2, to the new
    pages 2 and 3. *)
Theorem move_to_document_at_position_one :
  ∃ s',
    move_to_document 0 (mkMoveToDocument [0; 1]%nat 1 1) two_documents
    = (Ok tt, s')
    ∧ current_version 1 s' = Some 3%nat
    ∧ page_count <$> versions s' !! 3%nat = Some 5
    ∧ (λ pdf : Pdf, content <$> pdf) <$> files s' !! 3%nat
      = Some [20; 10; 11; 21; 22]%nat
    ∧ page_texts 1 s' = ["flower"; "tree"; "plant"]
    ∧ page_texts 3 s' = ["flower"; "cat"; "flower"; "tree"; ""]
    ∧ (λ n : Z, page_files s' !! (3%nat, n)) <$> [1; 2; 3; 4; 5]
      = [None; Some "svg:flower"; Some "svg:tree"; None; None].
Proof.
  exists (move_to_document 0 (mkMoveToDocument [0; 1]%nat 1 1) two_documents).2.
  vm_compute. repeat split.
Qed.

(** ** Copying artifacts along a page map *)

Lemma copy_loop_spec (old new : nat) (page_map : list (Z * Z)) : ∀ s,
  old ≠ new → NoDup page_map.*1 →
  ∃ pf,
    reuse_ocr_data old new page_map s = (Ok tt, set_page_files (λ _, pf) s)
    ∧ (∀ n o, (n, o) ∈ page_map →
         pf !! (new, n)
         = match page_files s !! (old, o) with
           | Some a => Some a
           | None => page_files s !! (new, n)
           end)
    ∧ (∀ k, (∀ n, n ∈ page_map.*1 → k ≠ (new, n)) →
         pf !! k = page_files s !! k).
Proof.
  induction page_map as [|[n o] l IH]; intros s Hne Hnd.
  - exists (page_files s). split; [done|]. split; [|done].
    by intros n o ?%elem_of_nil.
  - rewrite fmap_cons in Hnd. apply NoDup_cons in Hnd as [Hn Hnd]. simpl in Hn.
    unfold reuse_ocr_data. simpl. unfold bind at 1, copy_page at 1, modify at 1.
    set (m1 := match page_files s !! (old, o) with
               | Some a => <[(new, n) := a]> (page_files s)
               | None => page_files s
               end).
    destruct (IH (set_page_files (λ _, m1) s) Hne Hnd)
      as (pf & Hrun & Hcopied & Hother).
    exists pf. split; [exact Hrun|]. simpl in Hcopied, Hother.
    assert (∀ o', m1 !! (old, o') = page_files s !! (old, o')) as Hold.
    { intros o'. unfold m1. destruct (page_files s !! (old, o)); [|done].
      rewrite lookup_insert_ne; [done|]. congruence. }
    split.
    + intros n' o' [[= -> ->]|Hin]%elem_of_cons.
      * rewrite Hother.
        2:{ intros n' Hn' [= ->]. done. }
        unfold m1. destruct (page_files s !! (old, o)); [|done].
        by rewrite lookup_insert_eq.
      * rewrite (Hcopied n' o' Hin), Hold.
        destruct (page_files s !! (old, o')); [done|].
        unfold m1. destruct (page_files s !! (old, o)); [|done].
        rewrite lookup_insert_ne; [done|]. intros [= ->]. apply Hn.
        by apply (list_elem_of_fmap_2 fst) in Hin.
    + intros k Hk. rewrite Hother.
      2:{ intros n' Hn'. apply Hk. simpl. by right. }
      unfold m1. destruct (page_files s !! (old, o)); [|done].
      rewrite lookup_insert_ne; [done|]. intros <-. eapply Hk; [|done].
      simpl. left.
Qed.

Lemma copy_pages_data_swap old new (pages_map : list (Z * Z)) s :
  copy_pages_data old new pages_map s
  = reuse_ocr_data old new (prod_swap <$> pages_map) s.
Proof.
  unfold copy_pages_data, reuse_ocr_data. revert s.
  induction pages_map as [|[a b] l IH]; intros s; [done|].
  simpl. unfold bind. destruct (copy_page (old, a) (new, b) s) as [[[]|e] s1];
    [apply IH|done].
Qed.

Lemma fmap_prod_swap_swap {A B} (l : list (A * B)) :
  prod_swap <$> (prod_swap <$> l) = l.
Proof.
  induction l as [|[a b] l IH]; [done|]. rewrite !fmap_cons. by rewrite IH.
Qed.

(** ** The insert transform *)

(** Once the running index [position + _inserted_count] is not negative,
    the loop of [insert_pdf_pages] puts the source pages, in the given
    order, at that index. *)
Lemma insert_loop_at (src : Pdf) position nums : ∀ (R tail ms : Pdf) c,
  len R = position + c →
  Forall2 (λ n m, pages_p src n = Ok m) nums ms →
  insert_loop src (R ++ tail) position c nums = Ok (R ++ ms ++ tail).
Proof.
  induction nums as [|n nums IH]; intros R tail ms c HR Hms.
  { apply Forall2_nil_inv_l in Hms as ->. done. }
  apply Forall2_cons_inv_l in Hms as (m & ms' & Hm & Hms & ->).
  simpl. rewrite Hm. unfold pages_insert.
  rewrite (bool_decide_eq_false_2 (position + c < 0))
    by (unfold len in *; lia).
  rewrite bool_decide_eq_true_2
    by (unfold len in *; rewrite length_app; lia).
  replace (Z.to_nat (position + c)) with (length R) by (unfold len in *; lia).
  rewrite take_app_length, drop_app_length.
  replace (R ++ m :: tail) with ((R ++ [m]) ++ tail) by (by rewrite <-app_assoc).
  rewrite (IH (R ++ [m]) tail ms' (c + 1)); [|unfold len in *; rewrite length_app; simpl; lia|done].
  by rewrite <-!app_assoc.
Qed.

(** At a position within the destination, the moved pages land right after
    the destination's page at that position, in order. *)
Lemma insert_loop_inside (src dst ms : Pdf) position nums :
  0 ≤ position ≤ len dst →
  Forall2 (λ n m, pages_p src n = Ok m) nums ms →
  insert_loop src dst position 0 nums
  = Ok (take (Z.to_nat position) dst ++ ms ++ drop (Z.to_nat position) dst).
Proof.
  intros Hpos Hms.
  rewrite <-(take_drop (Z.to_nat position) dst) at 1.
  apply insert_loop_at; [|done].
  unfold len in *. rewrite length_take. lia.
Qed.

(** At position -1 the first moved page goes before the destination's last
    page and the others to the front. *)
Lemma insert_loop_minus_one (src dst ms : Pdf) d n m nums :
  pages_p src n = Ok m →
  Forall2 (λ n m, pages_p src n = Ok m) nums ms →
  insert_loop src (dst ++ [d]) (-1) 0 (n :: nums) = Ok (ms ++ dst ++ [m; d]).
Proof.
  intros Hm Hms. simpl. rewrite Hm. unfold pages_insert.
  rewrite (bool_decide_eq_true_2 (-1 + 0 < 0)) by lia.
  rewrite bool_decide_eq_true_2
    by (unfold len; rewrite length_app; simpl; lia).
  replace (Z.to_nat (-1 + 0 + len (dst ++ [d]))) with (length dst)
    by (unfold len; rewrite length_app; simpl; lia).
  rewrite take_app_length, drop_app_length.
  apply (insert_loop_at src (-1) nums [] (dst ++ [m; d]) ms (0 + 1)); done.
Qed.

(** C10: a move-to-document request without [position] passes validation,
    which fills in -1, and [post] runs [move_to_document] with position -1.
    With that position the binary insert puts the first moved page before
    the destination's last page and the other moved pages at the front;
    the artifact copy takes, for every moved page number n, the artifact
    of the destination's old page n to page n - 1 of the new version, so
    for a moved page 1 to a page 0.  On the two three-page documents the
    flow puts the first moved page before the destination's last page and
    the second at the front, copies the artifacts of the destination's old
    pages 1 and 2 to the pages 0 and 1, and ends with a [KeyError] in the
    text replication, after both new versions and both payloads have been
    written and before any text is: neither an append nor an insert at a
    position from 0 to the destination's page count. *)
Theorem omitted_position_is_minus_one (user : nat) (ids : list nat)
    (dst : nat) (s : Store) :
  let request := mkMoveToDocumentRequest (Some ids) (Some dst) None in
  PagesMoveToDocumentSerializer request = Some (mkMoveToDocument ids dst (-1))
  ∧ post_move_to_document user request s
    = (move_to_document user (mkMoveToDocument ids dst (-1)) ;;
       ret HTTP_204_NO_CONTENT) s
  ∧ (∀ (src_pdf dst_pdf moved : Pdf) last_page n first_moved nums,
      pages_p src_pdf n = Ok first_moved →
      Forall2 (λ n m, pages_p src_pdf n = Ok m) nums moved →
      insert_loop src_pdf (dst_pdf ++ [last_page]) (-1) 0 (n :: nums)
      = Ok (moved ++ dst_pdf ++ [first_moved; last_page]))
  ∧ (∀ (dst_old_version dst_new_version : nat) (by_number : PageSet)
       (t : Store),
      dst_old_version ≠ dst_new_version →
      NoDup (numbers by_number) →
      ∃ pf,
        copy_pages_data dst_old_version dst_new_version
          ((λ p, (number p.2, number p.2 + -1)) <$> by_number) t
        = (Ok tt, set_page_files (λ _, pf) t)
        ∧ ∀ r a, r ∈ by_number →
            page_files t !! (dst_old_version, number r.2) = Some a →
            pf !! (dst_new_version, number r.2 - 1) = Some a)
  ∧ (∃ s',
      post_move_to_document 0
        (mkMoveToDocumentRequest (Some [0; 1]%nat) (Some 1%nat) None)
        two_documents
      = (Raise (KeyError 4), s')
      ∧ page_count <$> versions s' !! 3%nat = Some 5
      ∧ (λ pdf : Pdf, content <$> pdf) <$> files s' !! 3%nat
        = Some [11; 20; 21; 10; 22]%nat
      ∧ (λ n : Z, page_files s' !! (3%nat, n)) <$> [0; 1; 2; 3; 4; 5]
        = [Some "svg:flower"; Some "svg:tree"; None; None; None; None]
      ∧ page_texts 3 s' = [""; ""; ""; ""; ""]
      ∧ (∀ position, 0 ≤ position ≤ 3 →
          (λ pdf : Pdf, content <$> pdf) <$>
            files (move_to_document 0
                     (mkMoveToDocument [0; 1]%nat 1 position)
                     two_documents).2 !! 3%nat
          ≠ (λ pdf : Pdf, content <$> pdf) <$> files s' !! 3%nat)).
Proof.
  intros request. split; [done|]. split; [done|].
  split; [intros; by apply insert_loop_minus_one|]. split.
  { intros dst_old_version dst_new_version by_number t Hne Hnd.
    set (page_map := (λ p : nat * Page, (number p.2 + -1, number p.2))
                       <$> by_number).
    assert (prod_swap <$> ((λ p : nat * Page, (number p.2, number p.2 + -1))
                             <$> by_number) = page_map) as Hswap.
    { unfold page_map. by rewrite <-list_fmap_compose. }
    destruct (copy_loop_spec dst_old_version dst_new_version page_map t Hne)
      as (pf & Hrun & Hcopied & _).
    { unfold page_map. rewrite <-list_fmap_compose.
      change (fst ∘ _) with (λ p : nat * Page, number p.2 + -1).
      replace ((λ p : nat * Page, number p.2 + -1) <$> by_number)
        with ((λ n, n + -1) <$> numbers by_number)
        by (unfold numbers; by rewrite <-list_fmap_compose).
      apply NoDup_fmap_2; [|done]. intros x y Hxy. lia. }
    exists pf. split.
    { by rewrite copy_pages_data_swap, Hswap. }
    intros r a Hr Ha. change (number r.2 - 1) with (number r.2 + -1).
    rewrite (Hcopied (number r.2 + -1) (number r.2)), Ha; [done|].
    unfold page_map.
    by apply (list_elem_of_fmap_2
                (λ p : nat * Page, (number p.2 + -1, number p.2))). }
  exists (post_move_to_document 0
    (mkMoveToDocumentRequest (Some [0; 1]%nat) (Some 1%nat) None)
    two_documents).2.
  split; [by vm_compute|]. split; [by vm_compute|]. split; [by vm_compute|].
  split; [by vm_compute|]. split; [by vm_compute|].
  intros position Hpos.
  assert (position = 0 ∨ position = 1 ∨ position = 2 ∨ position = 3)
    as Hcases by lia.
  destruct Hcases as [Hp|[Hp|[Hp|Hp]]]; rewrite Hp; by vm_compute.
Qed.

(** ** Reordering *)

Lemma get_reordered_list_invalid pages_data n :
  ¬ (new_number <$> pages_data ≡ₚ range 1 (n + 1)) →
  get_reordered_list pages_data n = Raise ValueError.
Proof.
  intros Hinv. unfold get_reordered_list. case_bool_decide as Heq; [|done].
  exfalso. apply Hinv. rewrite <-Heq.
  apply fmap_Permutation. symmetry. apply sorted_by_Permutation.
Qed.

Lemma pages_p_lookup (pdf : Pdf) n :
  1 ≤ n ≤ len pdf → ∃ m, pdf !! Z.to_nat (n - 1) = Some m ∧ pages_p pdf n = Ok m.
Proof.
  intros Hn. unfold pages_p. rewrite bool_decide_eq_true_2 by lia.
  destruct (lookup_lt_is_Some_2 pdf (Z.to_nat (n - 1))) as [m Hm].
  { unfold len in Hn. lia. }
  exists m. by rewrite Hm.
Qed.


Lemma pages_p_all (pdf : Pdf) nums :
  Forall (λ n, 1 ≤ n ≤ len pdf) nums →
  ∃ ms, Forall2 (λ n m, pdf !! Z.to_nat (n - 1) = Some m) nums ms
        ∧ Forall2 (λ n m, pages_p pdf n = Ok m) nums ms.
Proof.
  induction 1 as [|n nums Hn _ (ms & IH1 & IH2)].
  - exists []. split; constructor.
  - destruct (pages_p_lookup pdf n Hn) as (m & Hm1 & Hm2).
    exists (m :: ms). split; by constructor.
Qed.

Lemma append_loop_run (src : Pdf) items : ∀ (dst ms : Pdf),
  Forall2 (λ item m, pages_p src (old_number item) = Ok m) items ms →
  append_loop src dst items = Ok (dst ++ ms).
Proof.
  induction items as [|item items IH]; intros dst ms Hms.
  - apply Forall2_nil_inv_l in Hms as ->. by rewrite app_nil_r.
  - apply Forall2_cons_inv_l in Hms as (m & ms' & Hm & Hms & ->).
    simpl. rewrite Hm, (IH _ ms' Hms). by rewrite <-app_assoc.
Qed.


(** With old numbers within the payload, [reorder_pdf_pages] saves the old
    pages that the items name, in the ascending order of their new
    numbers, whatever these are. *)
Lemma reorder_pdf_pages_run s old new pages_data page_count (pdf : Pdf) :
  files s !! old = Some pdf →
  Forall (λ item, 1 ≤ old_number item ≤ len pdf) pages_data →
  ∃ pdf' : Pdf,
    reorder_pdf_pages old new pages_data page_count s
    = (Ok tt, set_files (λ fs, <[new := pdf']> fs) s)
    ∧ Forall2 (λ item page, pdf !! Z.to_nat (old_number item - 1) = Some page)
        (sorted_by new_number pages_data) pdf'.
Proof.
  intros Hfile Hold.
  destruct (pages_p_all pdf (old_number <$> sorted_by new_number pages_data))
    as (pdf' & Hat & Hp).
  { apply Forall_fmap. by rewrite sorted_by_Permutation. }
  apply Forall2_fmap_l in Hat, Hp. exists pdf'. split; [|done].
  unfold reorder_pdf_pages, Pdf_open. run. rewrite Hfile. simpl.
  by rewrite (append_loop_run pdf _ [] pdf' Hp).
Qed.







(** ** Rotation *)

Lemma rem_90_mod_90 a : Z.rem a 90 = 0 ↔ a `mod` 90 = 0.
Proof. rewrite Z.rem_divide, Z.mod_divide by lia. done. Qed.

Lemma rotate_accepted page a :
  accepted_angle a → ∃ r, rotate page a = Ok (mkPdfPage (content page) r).
Proof.
  intros [Hint Hmod]. unfold rotate.
  rewrite bool_decide_eq_true_2 by done.
  rewrite bool_decide_eq_true_2 by (by apply rem_90_mod_90).
  by eexists.
Qed.

Lemma rotate_refused page a :
  ¬ accepted_angle a →
  rotate page a
  = Raise (if bool_decide (INT_MIN ≤ a ≤ INT_MAX) then RuntimeError
           else TypeError).
Proof.
  intros Hbad. unfold rotate. case_bool_decide as Hint; [|done].
  rewrite bool_decide_eq_false_2; [done|].
  intros Hrem. apply Hbad. split; [done|]. by apply rem_90_mod_90.
Qed.




Lemma versioned_store_facts s row n texts pdf pf :
  wf s → length texts = Z.to_nat n → 0 ≤ n →
  let s' := versioned_store row n texts pdf pf s in
  let v' := length (versions s) in
  current_version (document row) s' = Some v'
  ∧ versions s' !! v'
    = Some (mkVersion (document row) (version_number row + 1) n
              (String.concat " " texts) (version_lang row))
  ∧ files s' !! v' = Some pdf
  ∧ numbers (version_pages v' s') = range 1 (n + 1)
  ∧ page_texts v' s' = texts.
Proof.
  intros Hwf Hlen Hn s' v'.
  assert (version_pages v' s'
    = imap (λ i p, ((length (pages s) + i)%nat, p))
        (zip_text (placeholders (version_lang row) v' n) texts)) as Hvp.
  { apply (version_pages_new v' s s'); [done|by apply wf_not_new| |].
    - apply zip_text_version, placeholders_version.
    - rewrite zip_text_numbers, placeholders_numbers.
      apply StronglySorted_seqZ. }
  split_and!.
  - by apply (current_version_app s s' _ _ eq_refl).
  - unfold s', versioned_store. simpl.
    by rewrite lookup_app_r, Nat.sub_diag by (unfold v'; lia).
  - unfold s', versioned_store. simpl. by rewrite lookup_insert_eq.
  - by rewrite Hvp, numbers_imap, zip_text_numbers, placeholders_numbers.
  - unfold page_texts at 1. rewrite Hvp, texts_imap.
    apply zip_text_texts. unfold placeholders, range.
    rewrite length_fmap, length_seqZ. lia.
Qed.

(** Writing [texts] over the placeholder pages of the version that
    [version_bump] has just added. *)
Lemma update_new_version_run s s3 row n texts pdf :
  wf s → length texts = Z.to_nat n →
  documents s3 = documents s → folders s3 = folders s →
  versions s3 = versions (bumped (document row) row n s) →
  pages s3 = pages (bumped (document row) row n s) →
  files s3 = <[length (versions s) := pdf]> (files s) →
  update_text_field (length (versions s)) texts s3
  = (Ok tt, versioned_store row n texts pdf (page_files s3) s).
Proof.
  intros Hwf Hlen Hd Hf Hvs Hps Hfs.
  rewrite (update_text_field_run (length (versions s)) texts s3 (pages s)
             (placeholders (version_lang row) (length (versions s)) n));
    [|done|].
  2:{ apply (version_pages_new _ s s3); [done|by apply wf_not_new| |].
      - apply placeholders_version.
      - rewrite placeholders_numbers. apply StronglySorted_seqZ. }
  f_equal. unfold versioned_store, set_versions, set_pages. simpl.
  rewrite Hd, Hf, Hvs, Hfs. simpl.
  rewrite alter_app_r_alt, Nat.sub_diag by lia. simpl.
  assert (length (placeholders (version_lang row) (length (versions s)) n)
          = length texts) as ->.
  { unfold placeholders, range. rewrite length_fmap, length_seqZ. lia. }
  by rewrite firstn_all.
Qed.










(** ** Extracting pages into a new document *)

Lemma create_document_run title lang user dst t :
  create_document title lang user dst t
  = (Ok (length (documents t)),
     set_versions (λ vs, vs ++ [mkVersion (length (documents t)) 1 0 "" lang])
       (set_documents (λ ds, ds ++ [mkDocument title lang user dst]) t)).
Proof. done. Qed.






Lemma text_at_member s v n r :
  numbers (version_pages v s) = range 1 (n + 1) →
  r ∈ version_pages v s →
  1 ≤ number r.2 ≤ n
  ∧ text_at (page_texts v s) (number r.2) = text r.2.
Proof.
  intros Hnum Hr.
  assert (number r.2 ∈ numbers (version_pages v s)) as Hin
    by (by apply (list_elem_of_fmap_2 (λ r : nat * Page, number r.2))).
  rewrite Hnum in Hin. unfold range in Hin. apply elem_of_seqZ in Hin.
  split; [lia|].
  destruct (numbers_lookup (version_pages v s) n (number r.2) Hnum)
    as (r' & Hr' & Heq); [lia|].
  assert (r' = r) as ->.
  { apply (fmap_NoDup_inj (λ r : nat * Page, number r.2) (version_pages v s));
      [|by eapply list_elem_of_lookup_2|done|done].
    fold (numbers (version_pages v s)). rewrite Hnum. apply NoDup_seqZ. }
  unfold text_at, page_texts. by rewrite list_lookup_fmap, Hr'.
Qed.

Lemma texts_of_members s v n (ps : PageSet) :
  numbers (version_pages v s) = range 1 (n + 1) →
  Forall (λ r, r ∈ version_pages v s) ps →
  Forall (λ i, 1 ≤ i ≤ n) (numbers ps)
  ∧ text_at (page_texts v s) <$> numbers ps = (λ r, text r.2) <$> ps.
Proof.
  intros Hnum. induction 1 as [|r ps Hr _ [IH1 IH2]]; [done|].
  destruct (text_at_member s v n r Hnum Hr) as [Hn Ht].
  change (numbers (r :: ps)) with (number r.2 :: numbers ps).
  split; [by constructor|]. by rewrite !fmap_cons, Ht, IH2.
Qed.
















Lemma Folder_get_run s pk user folder :
  folders s !! pk = Some folder → folder_user_id folder = user →
  Folder_get pk user s = (Ok folder, s).
Proof.
  intros Hf Hu. unfold Folder_get. run. rewrite Hf. simpl.
  by rewrite bool_decide_eq_true_2.
Qed.




(** The two modes on the document of the tests: moving "cat" and "doc" out
    of "fish", "cat", "doc". *)
Example move_to_folder_modes :
  ∃ s1 s2,
    move_to_folder 0 (mkMoveToFolder [1; 2]%nat 0 true) source_and_folder
    = (Ok tt, s1)
    ∧ (λ d, (title d, parent d)) <$> documents s1
      = [("three-pages.pdf", 0%nat); ("noname-1.pdf", 0%nat);
         ("noname-2.pdf", 0%nat)]
    ∧ (λ d, (λ v, page_texts v s1) <$> current_version d s1) <$> [0; 1; 2]%nat
      = [Some ["fish"]; Some ["cat"]; Some ["doc"]]
    ∧ move_to_folder 0 (mkMoveToFolder [1; 2]%nat 0 false) source_and_folder
      = (Ok tt, s2)
    ∧ (λ d, (title d, parent d)) <$> documents s2
      = [("three-pages.pdf", 0%nat); ("noname.pdf", 0%nat)]
    ∧ (λ d, (λ v, page_texts v s2) <$> current_version d s2) <$> [0; 1]%nat
      = [Some ["fish"]; Some ["cat"; "doc"]].
Proof.
  exists
    (move_to_folder 0 (mkMoveToFolder [1; 2]%nat 0 true) source_and_folder).2,
    (move_to_folder 0 (mkMoveToFolder [1; 2]%nat 0 false) source_and_folder).2.
  vm_compute. repeat split.
Qed.

(** * Further properties of the code *)

(** ** The PDF editors: bounds and failures *)

Lemma remove_loop_sublist ds : ∀ (pdf pdf' : Pdf) c,
  remove_loop pdf c ds = Ok pdf' → pdf' `sublist_of` pdf.
Proof.
  induction ds as [|d ds IH]; intros pdf pdf' c; simpl.
  - by intros [= ->].
  - unfold pages_remove. case_bool_decide; [|done]. intros Hsub%IH.
    etrans; [exact Hsub|]. apply sublist_delete.
Qed.

Lemma remove_loop_error ds : ∀ (pdf : Pdf) c e,
  remove_loop pdf c ds = Raise e → e = IndexError.
Proof.
  induction ds as [|d ds IH]; intros pdf c e; simpl; [done|].
  unfold pages_remove. case_bool_decide; [by intros ?%IH|]. by intros [= <-].
Qed.

(** X1: [remove_pdf_pages] either fails, with the store as it was (the
    old payload is missing, or a page number is out of range), or writes
    exactly one file, the payload of the new version: a sub-sequence of the
    old payload with as many pages fewer as there were pages to delete. *)
Theorem remove_pdf_pages_outcome (s : Store) (old_version new_version : nat)
    (pages_to_delete : PageSet) :
  (∃ e, remove_pdf_pages old_version new_version pages_to_delete s = (Raise e, s)
        ∧ (e = FileNotFoundError ∨ e = IndexError))
  ∨ (∃ pdf pdf' : Pdf,
       files s !! old_version = Some pdf
       ∧ remove_pdf_pages old_version new_version pages_to_delete s
         = (Ok tt, set_files (λ fs, <[new_version := pdf']> fs) s)
       ∧ len pdf' = len pdf - len pages_to_delete
       ∧ pdf' `sublist_of` pdf).
Proof.
  unfold remove_pdf_pages, Pdf_open. run.
  destruct (files s !! old_version) as [pdf|] eqn:Hfile; simpl.
  - destruct (remove_loop pdf 0 ((λ r, number r.2) <$> pages_to_delete))
      as [pdf'|e] eqn:Hloop.
    + right. exists pdf, pdf'. split; [done|]. split; [done|]. split.
      * apply remove_loop_length in Hloop. unfold len in *.
        rewrite length_fmap in Hloop. lia.
      * by eapply remove_loop_sublist.
    + left. exists e. split; [done|]. right. by eapply remove_loop_error.
  - left. exists FileNotFoundError. split; [done|]. by left.
Qed.

Lemma remove_loop_out_of_range ds : ∀ (pdf : Pdf) c,
  StronglySorted Z.lt ds →
  Forall (λ d, c < d) ds →
  ¬ Forall (λ d, d ≤ c + len pdf) ds →
  remove_loop pdf c ds = Raise IndexError.
Proof.
  induction ds as [|d ds IH]; intros pdf c Hsorted Hlow Hhigh; simpl.
  - destruct Hhigh. constructor.
  - apply StronglySorted_inv in Hsorted as [Hsorted Hd].
    apply Forall_cons in Hlow as [Hc Hlow].
    unfold pages_remove. case_bool_decide as Hin; [|done].
    apply IH; [done| |].
    + eapply Forall_impl; [exact Hd|]. simpl. lia.
    + intros Hall. apply Hhigh. constructor; [lia|].
      eapply Forall_impl; [exact Hall|]. simpl. intros x.
      unfold len. rewrite length_delete.
      2:{ apply lookup_lt_is_Some_2. unfold len in Hin. lia. }
      unfold len in Hin. lia.
Qed.

(** X2: for pages to delete with strictly ascending numbers, not all of
    them within 1..n where n is the number of pages of the old payload,
    [remove_pdf_pages] raises [IndexError] and writes nothing. *)
Theorem remove_pdf_pages_out_of_range (s : Store)
    (old_version new_version : nat) (pages_to_delete : PageSet) (pdf : Pdf) :
  files s !! old_version = Some pdf →
  StronglySorted Z.lt (numbers pages_to_delete) →
  ¬ Forall (λ n, 1 ≤ n ≤ len pdf) (numbers pages_to_delete) →
  remove_pdf_pages old_version new_version pages_to_delete s
  = (Raise IndexError, s).
Proof.
  intros Hfile Hsorted Hout. unfold remove_pdf_pages, Pdf_open. run.
  rewrite Hfile. simpl. fold (numbers pages_to_delete).
  destruct (numbers pages_to_delete) as [|d ds] eqn:Hds.
  { destruct Hout. constructor. }
  destruct (decide (1 ≤ d)) as [Hd|Hd].
  - rewrite remove_loop_out_of_range; [done|done| |].
    + apply StronglySorted_inv in Hsorted as [_ Hlt].
      constructor; [lia|]. eapply Forall_impl; [exact Hlt|]. simpl. lia.
    + intros Hall. apply Hout.
      apply StronglySorted_inv in Hsorted as [_ Hlt].
      apply Forall_cons in Hall as [Hd' Hall]. constructor; [lia|].
      apply Forall_forall. intros x Hx.
      rewrite Forall_forall in Hlt. rewrite Forall_forall in Hall.
      specialize (Hlt x Hx). specialize (Hall x Hx). lia.
  - simpl. unfold pages_remove. rewrite bool_decide_eq_false_2; [done|lia].
Qed.

Lemma remove_pdf_pages_out_of_range_witness :
  remove_pdf_pages 0 1
    [(1%nat, mkPage 2 "page 2" "deu" 0); (7%nat, mkPage 4 "page 4" "deu" 0)]
    three_pages
  = (Raise IndexError, three_pages).
Proof.
  apply (remove_pdf_pages_out_of_range three_pages 0 1 _
           [mkPdfPage 10 0; mkPdfPage 11 0; mkPdfPage 12 0]).
  - reflexivity.
  - repeat constructor.
  - intros Hall. apply Forall_cons in Hall as [_ Hall].
    apply Forall_cons in Hall as [Hfour _]. vm_compute in Hfour.
    destruct Hfour as [_ Hfour]. by apply Hfour.
Defined.

Lemma insert_pdf_pages_run (s : Store) (src_old_version dst_old_version
    dst_new_version : nat) (page_numbers : list Z) (position : Z)
    (src_old_pdf dst_old_pdf : Pdf) :
  files s !! src_old_version = Some src_old_pdf →
  files s !! dst_old_version = Some dst_old_pdf →
  Forall (λ n, 1 ≤ n ≤ len src_old_pdf) page_numbers →
  0 ≤ position ≤ len dst_old_pdf →
  ∃ moved : Pdf,
    Forall2 (λ n m, src_old_pdf !! Z.to_nat (n - 1) = Some m) page_numbers moved
    ∧ insert_pdf_pages src_old_version dst_old_version dst_new_version
        page_numbers position s
      = (Ok tt,
         set_files (λ fs,
           <[dst_new_version :=
               take (Z.to_nat position) dst_old_pdf ++ moved
               ++ drop (Z.to_nat position) dst_old_pdf]> fs) s).
Proof.
  intros Hsrc Hdst Hnums Hpos.
  destruct (pages_p_all src_old_pdf page_numbers Hnums) as (moved & Hat & Hp).
  exists moved. split; [done|].
  unfold insert_pdf_pages, Pdf_open. run. rewrite Hsrc. simpl.
  rewrite Hdst. simpl.
  by rewrite (insert_loop_inside src_old_pdf dst_old_pdf moved position
                page_numbers Hpos Hp).
Qed.

(** X3: for a 0-based [position] within 0..n, n the number of pages of
    the destination's old payload, and page numbers within the source
    payload, [insert_pdf_pages] saves as the new payload the first
    [position] pages of the destination, then the named source pages in the
    order given, then the remaining pages of the destination. *)
Theorem insert_pdf_pages_places (s : Store) (src_old_version dst_old_version
    dst_new_version : nat) (page_numbers : list Z) (position : Z)
    (src_old_pdf dst_old_pdf : Pdf) :
  files s !! src_old_version = Some src_old_pdf →
  files s !! dst_old_version = Some dst_old_pdf →
  Forall (λ n, 1 ≤ n ≤ len src_old_pdf) page_numbers →
  0 ≤ position ≤ len dst_old_pdf →
  ∃ moved : Pdf,
    Forall2 (λ n m, src_old_pdf !! Z.to_nat (n - 1) = Some m) page_numbers moved
    ∧ insert_pdf_pages src_old_version dst_old_version dst_new_version
        page_numbers position s
      = (Ok tt,
         set_files (λ fs,
           <[dst_new_version :=
               take (Z.to_nat position) dst_old_pdf ++ moved
               ++ drop (Z.to_nat position) dst_old_pdf]> fs) s).
Proof.
  intros Hsrc Hdst Hnums Hpos.
  destruct (pages_p_all src_old_pdf page_numbers Hnums) as (moved & Hat & Hp).
  exists moved. split; [done|].
  unfold insert_pdf_pages, Pdf_open. run. rewrite Hsrc. simpl.
  rewrite Hdst. simpl.
  by rewrite (insert_loop_inside src_old_pdf dst_old_pdf moved position
                page_numbers Hpos Hp).
Qed.

Lemma insert_pdf_pages_places_witness :
  ∃ moved : Pdf,
    Forall2 (λ n m,
      [mkPdfPage 10 0; mkPdfPage 11 0; mkPdfPage 12 0] !! Z.to_nat (n - 1)
      = Some m) [1; 2] moved
    ∧ insert_pdf_pages 0 1 3 [1; 2] 1 two_documents
      = (Ok tt,
         set_files (λ fs,
           <[3%nat :=
               take (Z.to_nat 1)
                 [mkPdfPage 20 0; mkPdfPage 21 0; mkPdfPage 22 0]
               ++ moved
               ++ drop (Z.to_nat 1)
                    [mkPdfPage 20 0; mkPdfPage 21 0; mkPdfPage 22 0]]> fs)
           two_documents).
Proof.
  apply (insert_pdf_pages_places two_documents 0 1 3 [1; 2] 1
           [mkPdfPage 10 0; mkPdfPage 11 0; mkPdfPage 12 0]
           [mkPdfPage 20 0; mkPdfPage 21 0; mkPdfPage 22 0]).
  - reflexivity.
  - reflexivity.
  - repeat constructor; vm_compute; congruence.
  - vm_compute. split; congruence.
Defined.

(** X4: with at least one page to insert, a [position] beyond the end of
    the destination's old payload (or below minus its length) makes
    [insert_pdf_pages] raise [IndexError]; no payload is written. *)
Theorem insert_pdf_pages_out_of_range (s : Store) (src_old_version
    dst_old_version dst_new_version : nat) (page_number : Z)
    (page_numbers : list Z) (position : Z) (src_old_pdf dst_old_pdf : Pdf) :
  files s !! src_old_version = Some src_old_pdf →
  files s !! dst_old_version = Some dst_old_pdf →
  position < - len dst_old_pdf ∨ len dst_old_pdf < position →
  insert_pdf_pages src_old_version dst_old_version dst_new_version
    (page_number :: page_numbers) position s
  = (Raise IndexError, s).
Proof.
  intros Hsrc Hdst Hpos. unfold insert_pdf_pages, Pdf_open. run.
  rewrite Hsrc. simpl. rewrite Hdst. simpl.
  destruct (pages_p src_old_pdf page_number) as [m|e] eqn:Hp.
  - unfold pages_insert. rewrite Z.add_0_r.
    rewrite bool_decide_eq_false_2; [done|]. case_bool_decide; lia.
  - unfold pages_p in Hp. repeat case_match; by simplify_eq.
Qed.

Lemma insert_pdf_pages_out_of_range_witness :
  insert_pdf_pages 0 1 3 [1; 2] 4 two_documents
  = (Raise IndexError, two_documents).
Proof.
  apply (insert_pdf_pages_out_of_range two_documents 0 1 3 1 [2] 4
           [mkPdfPage 10 0; mkPdfPage 11 0; mkPdfPage 12 0]
           [mkPdfPage 20 0; mkPdfPage 21 0; mkPdfPage 22 0]).
  - reflexivity.
  - reflexivity.
  - right. vm_compute. reflexivity.
Defined.

Lemma keep_from_taken (ds : list Z) : ∀ (l moved : Pdf) c,
  StronglySorted Z.lt ds →
  Forall (λ d, c < d ≤ c + len l) ds →
  Forall2 (λ n m, l !! Z.to_nat (n - 1 - c) = Some m) ds moved →
  keep_from (c + 1) l ds ++ moved ≡ₚ l.
Proof.
  induction ds as [|d ds IH]; intros l moved c Hsorted Hrange Hmoved.
  - apply Forall2_nil_inv_l in Hmoved as ->.
    by rewrite keep_from_nil, app_nil_r.
  - apply Forall2_cons_inv_l in Hmoved as (m & moved' & Hm & Hmoved & ->).
    apply StronglySorted_inv in Hsorted as [Hsorted Hlt].
    apply Forall_cons in Hrange as [Hd Hrange].
    assert (Z.to_nat (d - 1 - c) < length l)%nat as Hk
      by (by eapply lookup_lt_Some).
    rewrite <-(keep_from_delete l (c + 1) (Z.to_nat (d - 1 - c)) d ds)
      by (done || lia).
    rewrite <-Permutation_middle.
    etrans; [|symmetry; apply (delete_Permutation l _ m Hm)]. constructor.
    apply IH; [done| |].
    + apply Forall_forall. intros d' Hd'.
      rewrite Forall_forall in Hlt, Hrange.
      specialize (Hlt d' Hd'). specialize (Hrange d' Hd').
      unfold len in *. rewrite length_delete by (by eexists). lia.
    + apply Forall2_same_length_lookup in Hmoved as [Hlen Hmoved].
      apply Forall2_same_length_lookup. split; [done|].
      intros i d' m' Hd' Hm'. specialize (Hmoved i d' m' Hd' Hm').
      rewrite Forall_forall in Hlt.
      specialize (Hlt d' (list_elem_of_lookup_2 _ _ _ Hd')).
      rename Hmoved into Hm''.
      rewrite list_lookup_delete_ge by lia. rewrite <-Hm''. f_equal. lia.
Qed.

(** X5: [remove_pdf_pages] followed by [insert_pdf_pages] for the same
    pages, as a move to another document runs them, loses and duplicates
    no page: for pages with strictly ascending numbers within the source
    payload and a position within the destination payload, the two new
    payloads together are a permutation of the two old payloads together;
    the source's new payload is shorter, and the destination's is longer,
    by the number of pages moved. *)
Theorem move_conserves_pages (s : Store) (src dst src_new dst_new : nat)
    (pages : PageSet) (position : Z) (src_pdf dst_pdf : Pdf) :
  files s !! src = Some src_pdf →
  files s !! dst = Some dst_pdf →
  src_new ≠ src → src_new ≠ dst → src_new ≠ dst_new →
  StronglySorted Z.lt (numbers pages) →
  Forall (λ n, 1 ≤ n ≤ len src_pdf) (numbers pages) →
  0 ≤ position ≤ len dst_pdf →
  ∃ s' (src_pdf' dst_pdf' : Pdf),
    (remove_pdf_pages src src_new pages ;;
     insert_pdf_pages src dst dst_new (numbers pages) position) s
    = (Ok tt, s')
    ∧ files s' !! src_new = Some src_pdf'
    ∧ files s' !! dst_new = Some dst_pdf'
    ∧ len src_pdf' = len src_pdf - len pages
    ∧ len dst_pdf' = len dst_pdf + len pages
    ∧ src_pdf' ++ dst_pdf' ≡ₚ src_pdf ++ dst_pdf.
Proof.
  intros Hsrc Hdst Hne1 Hne2 Hne3 Hsorted Hrange Hpos.
  set (s1 := set_files
               (λ fs, <[src_new := survivors src_pdf (numbers pages)]> fs) s).
  destruct (insert_pdf_pages_run s1 src dst dst_new (numbers pages) position
              src_pdf dst_pdf) as (moved & Hmoved & Hinsert); [..|done|done|].
  { simpl. by rewrite lookup_insert_ne. }
  { simpl. by rewrite lookup_insert_ne. }
  eexists _, (survivors src_pdf (numbers pages)), _. split.
  { rewrite (bind_Ok _ _ s tt s1); [exact Hinsert|].
    by apply remove_pdf_pages_run. }
  assert (survivors src_pdf (numbers pages) ++ moved ≡ₚ src_pdf) as Hperm.
  { apply (keep_from_taken (numbers pages) src_pdf moved 0); [done| |].
    - eapply Forall_impl; [exact Hrange|]. simpl. intros; lia.
    - eapply Forall2_impl; [exact Hmoved|]. simpl. intros n m <-.
      f_equal. lia. }
  assert (length moved = length pages) as Hlen.
  { apply Forall2_length in Hmoved. unfold numbers in Hmoved.
    by rewrite length_fmap in Hmoved. }
  split.
  { simpl. rewrite lookup_insert_ne by done. by rewrite lookup_insert_eq. }
  split; [simpl; by rewrite lookup_insert_eq|].
  split.
  { apply Permutation_length in Hperm. rewrite length_app in Hperm.
    unfold len. lia. }
  split.
  { unfold len. rewrite !length_app, length_take, length_drop. unfold len in Hpos. lia. }
  rewrite (Permutation_app_comm (take _ _)), <-app_assoc.
  rewrite (Permutation_app_comm (drop _ _)), take_drop.
  rewrite app_assoc. by f_equiv.
Qed.

Lemma move_conserves_pages_witness :
  ∃ s' (src_pdf' dst_pdf' : Pdf),
    (remove_pdf_pages 0 2
       [(0%nat, mkPage 1 "cat" "deu" 0); (1%nat, mkPage 2 "dog" "deu" 0)] ;;
     insert_pdf_pages 0 1 3 [1; 2] 1) two_documents
    = (Ok tt, s')
    ∧ files s' !! 2%nat = Some src_pdf'
    ∧ files s' !! 3%nat = Some dst_pdf'
    ∧ len src_pdf' = 3 - 2
    ∧ len dst_pdf' = 3 + 2
    ∧ src_pdf' ++ dst_pdf'
      ≡ₚ [mkPdfPage 10 0; mkPdfPage 11 0; mkPdfPage 12 0]
         ++ [mkPdfPage 20 0; mkPdfPage 21 0; mkPdfPage 22 0].
Proof.
  apply (move_conserves_pages two_documents 0 1 2 3
           [(0%nat, mkPage 1 "cat" "deu" 0); (1%nat, mkPage 2 "dog" "deu" 0)]
           1 [mkPdfPage 10 0; mkPdfPage 11 0; mkPdfPage 12 0]
           [mkPdfPage 20 0; mkPdfPage 21 0; mkPdfPage 22 0]).
  - reflexivity.
  - reflexivity.
  - discriminate.
  - discriminate.
  - discriminate.
  - repeat constructor.
  - repeat constructor; vm_compute; congruence.
  - vm_compute. split; congruence.
Defined.

Lemma lookup_range_fmap (pdf : Pdf) (ms : Pdf) :
  Forall2 (λ n m, pdf !! Z.to_nat (n - 1) = Some m) (range 1 (len pdf + 1)) ms →
  ms = pdf.
Proof.
  intros Hms. apply list_eq. intros i.
  destruct (pdf !! i) as [p|] eqn:Hp.
  - assert (range 1 (len pdf + 1) !! i = Some (Z.of_nat i + 1)) as Hi.
    { unfold range. rewrite lookup_seqZ. split; [lia|].
      apply lookup_lt_Some in Hp. unfold len. lia. }
    destruct (Forall2_lookup_l _ _ _ _ _ Hms Hi) as (m & Hm & Hlook).
    rewrite Hm. rewrite <-Hlook, <-Hp. f_equal. lia.
  - apply lookup_ge_None in Hp. apply lookup_ge_None.
    apply Forall2_length in Hms. rewrite <-Hms. unfold range.
    rewrite length_seqZ. unfold len. lia.
Qed.

Lemma Forall2_lookup_Permutation (pdf : Pdf) (ns ns' : list Z) :
  ns ≡ₚ ns' → ∀ ms : Pdf,
  Forall2 (λ n m, pdf !! Z.to_nat (n - 1) = Some m) ns ms →
  ∃ ms', ms ≡ₚ ms'
         ∧ Forall2 (λ n m, pdf !! Z.to_nat (n - 1) = Some m) ns' ms'.
Proof.
  induction 1 as [|x l l' _ IH|x y l|l l' l'' _ IH1 _ IH2]; intros ms Hms.
  - apply Forall2_nil_inv_l in Hms as ->. by exists [].
  - apply Forall2_cons_inv_l in Hms as (m & ms0 & Hm & Hms & ->).
    destruct (IH _ Hms) as (ms' & Hperm & Hms').
    exists (m :: ms'). split; [by constructor|by constructor].
  - apply Forall2_cons_inv_l in Hms as (m1 & ms0 & Hm1 & Hms & ->).
    apply Forall2_cons_inv_l in Hms as (m2 & ms1 & Hm2 & Hms & ->).
    exists (m2 :: m1 :: ms1). split; [apply perm_swap|by repeat constructor].
  - destruct (IH1 _ Hms) as (ms' & Hperm & Hms').
    destruct (IH2 _ Hms') as (ms'' & Hperm' & Hms'').
    exists ms''. split; [by etrans|done].
Qed.

Lemma StronglySorted_key_fmap {A} (key : A → Z) (l : list A) :
  StronglySorted (key_le key) l → StronglySorted Z.le (key <$> l).
Proof.
  induction 1 as [|x l _ IH Hx]; [constructor|].
  rewrite fmap_cons. constructor; [done|]. by apply Forall_fmap.
Qed.

(** X6: when the old numbers of a reorder request are exactly the page
    numbers 1..n of the old payload, each once, [reorder_pdf_pages] saves a
    payload that is a permutation of the old one: its pages are the old
    pages named by the items taken in ascending order of their new number.
    The argument [page_count] plays no part. *)
Theorem reorder_pdf_pages_permutes (s : Store) (old_version new_version : nat)
    (pages_data : list ReorderItem) (page_count : Z) (pdf : Pdf) :
  files s !! old_version = Some pdf →
  old_number <$> pages_data ≡ₚ range 1 (len pdf + 1) →
  ∃ pdf' : Pdf,
    reorder_pdf_pages old_version new_version pages_data page_count s
    = (Ok tt, set_files (λ fs, <[new_version := pdf']> fs) s)
    ∧ Forall2 (λ item page, pdf !! Z.to_nat (old_number item - 1) = Some page)
        (sorted_by new_number pages_data) pdf'
    ∧ StronglySorted Z.le (new_number <$> sorted_by new_number pages_data)
    ∧ sorted_by new_number pages_data ≡ₚ pages_data
    ∧ pdf' ≡ₚ pdf.
Proof.
  intros Hfile Hperm.
  assert (Forall (λ n, 1 ≤ n ≤ len pdf)
            (old_number <$> sorted_by new_number pages_data)) as Hin.
  { rewrite sorted_by_Permutation, Hperm. apply Forall_forall. intros n.
    unfold range. rewrite elem_of_seqZ. lia. }
  destruct (pages_p_all pdf _ Hin) as (pdf' & Hat & Hp).
  apply Forall2_fmap_l in Hat, Hp.
  exists pdf'. split; [|split; [done|split; [|split]]].
  - unfold reorder_pdf_pages, Pdf_open. run. rewrite Hfile. simpl.
    by rewrite (append_loop_run pdf _ [] pdf' Hp).
  - apply StronglySorted_key_fmap, sorted_by_sorted.
  - apply sorted_by_Permutation.
  - apply Forall2_fmap_l in Hat.
    assert (old_number <$> sorted_by new_number pages_data
            ≡ₚ range 1 (len pdf + 1)) as Hperm'.
    { by rewrite sorted_by_Permutation. }
    destruct (Forall2_lookup_Permutation pdf _ _ Hperm' pdf' Hat)
      as (ms' & Hms' & Hlook).
    apply lookup_range_fmap in Hlook. by subst ms'.
Qed.

Lemma reorder_pdf_pages_permutes_witness :
  ∃ pdf' : Pdf,
    reorder_pdf_pages 0 1
      [mkReorder 0 1 3; mkReorder 1 2 1; mkReorder 2 3 2] 3 three_pages
    = (Ok tt, set_files (λ fs, <[1%nat := pdf']> fs) three_pages)
    ∧ Forall2 (λ item page,
        [mkPdfPage 10 0; mkPdfPage 11 0; mkPdfPage 12 0]
          !! Z.to_nat (old_number item - 1) = Some page)
        (sorted_by new_number
           [mkReorder 0 1 3; mkReorder 1 2 1; mkReorder 2 3 2]) pdf'
    ∧ StronglySorted Z.le
        (new_number <$> sorted_by new_number
           [mkReorder 0 1 3; mkReorder 1 2 1; mkReorder 2 3 2])
    ∧ sorted_by new_number [mkReorder 0 1 3; mkReorder 1 2 1; mkReorder 2 3 2]
      ≡ₚ [mkReorder 0 1 3; mkReorder 1 2 1; mkReorder 2 3 2]
    ∧ pdf' ≡ₚ [mkPdfPage 10 0; mkPdfPage 11 0; mkPdfPage 12 0].
Proof.
  apply (reorder_pdf_pages_permutes three_pages 0 1
           [mkReorder 0 1 3; mkReorder 1 2 1; mkReorder 2 3 2] 3
           [mkPdfPage 10 0; mkPdfPage 11 0; mkPdfPage 12 0]).
  - reflexivity.
  - reflexivity.
Defined.

Lemma sorted_numbers (key : ReorderItem → Z) pages_data n :
  key <$> pages_data ≡ₚ range 1 (n + 1) →
  key <$> sorted_by key pages_data = range 1 (n + 1).
Proof.
  intros Hperm. apply (StronglySorted_unique Z.le).
  - apply StronglySorted_key_fmap, sorted_by_sorted.
  - apply StronglySorted_seqZ.
  - by rewrite sorted_by_Permutation.
Qed.

Lemma items_in_bounds (key : ReorderItem → Z) pages_data n :
  key <$> pages_data ≡ₚ range 1 (n + 1) →
  Forall (λ item, 1 ≤ key item ≤ n) pages_data.
Proof.
  intros Hperm. apply Forall_forall. intros item Hin.
  assert (key item ∈ range 1 (n + 1)) as Hkey
    by (rewrite <-Hperm; by apply list_elem_of_fmap_2).
  unfold range in Hkey. apply elem_of_seqZ in Hkey. lia.
Qed.

(** X7: a reorder request whose old numbers and whose new numbers are
    each exactly 1..n, n the number of pages of the payload, is undone by
    the request with old and new number exchanged: [reorder_pdf_pages] run
    with the one and then, on its result, with the other saves the
    original payload again. *)
Theorem reorder_pdf_pages_round_trip (s : Store) (v0 v1 v2 : nat)
    (pages_data : list ReorderItem) (page_count : Z) (pdf : Pdf) :
  files s !! v0 = Some pdf →
  old_number <$> pages_data ≡ₚ range 1 (len pdf + 1) →
  new_number <$> pages_data ≡ₚ range 1 (len pdf + 1) →
  ∃ pdf' : Pdf,
    (reorder_pdf_pages v0 v1 pages_data page_count ;;
     reorder_pdf_pages v1 v2 (reorder_back pages_data) page_count) s
    = (Ok tt,
       set_files (λ fs, <[v2 := pdf]> fs)
         (set_files (λ fs, <[v1 := pdf']> fs) s))
    ∧ pdf' ≡ₚ pdf.
Proof.
  intros Hfile Hold Hnew.
  set (n := len pdf) in *.
  destruct (reorder_pdf_pages_run s v0 v1 pages_data page_count pdf Hfile)
    as (pdf' & Hrun1 & Hat1).
  { by apply items_in_bounds. }
  assert (length pdf' = length pdf) as Hlen.
  { apply Forall2_length in Hat1. rewrite <-Hat1, length_sorted_by.
    rewrite <-(length_fmap old_number), Hold. unfold range.
    rewrite length_seqZ. unfold n, len. lia. }
  assert (old_number <$> reorder_back pages_data = new_number <$> pages_data)
    as Hback_old by (unfold reorder_back; by rewrite <-list_fmap_compose).
  assert (new_number <$> reorder_back pages_data = old_number <$> pages_data)
    as Hback_new by (unfold reorder_back; by rewrite <-list_fmap_compose).
  destruct (reorder_pdf_pages_run (set_files (λ fs, <[v1 := pdf']> fs) s)
              v1 v2 (reorder_back pages_data) page_count pdf')
    as (pdf'' & Hrun2 & Hat2).
  { simpl. by rewrite lookup_insert_eq. }
  { apply items_in_bounds. rewrite Hback_old. unfold len. by rewrite Hlen. }
  pose proof (sorted_numbers new_number pages_data n Hnew) as Hs1.
  assert (new_number <$> sorted_by new_number (reorder_back pages_data)
          = range 1 (n + 1)) as Hs2.
  { apply sorted_numbers. by rewrite Hback_new. }
  assert (NoDup (new_number <$> pages_data)) as Hnd.
  { rewrite Hnew. apply NoDup_seqZ. }
  assert (pdf'' = pdf) as ->.
  { apply list_eq. intros q.
    destruct (pdf !! q) as [page|] eqn:Hq.
    - assert (Z.of_nat q < n) as Hqn.
      { apply lookup_lt_Some in Hq. unfold n, len. lia. }
      assert (range 1 (n + 1) !! q = Some (Z.of_nat q + 1)) as Hrq.
      { unfold range. apply lookup_seqZ. lia. }
      rewrite <-Hs2, list_lookup_fmap in Hrq.
      destruct (sorted_by new_number (reorder_back pages_data) !! q)
        as [b|] eqn:Hb; [|done].
      injection Hrq as Hbnew.
      destruct (Forall2_lookup_l _ _ _ _ _ Hat2 Hb) as (p2 & Hp2 & Hp2').
      rewrite Hp2.
      assert (b ∈ reorder_back pages_data) as Hbin.
      { rewrite <-(sorted_by_Permutation new_number).
        by eapply list_elem_of_lookup_2. }
      apply list_elem_of_fmap in Hbin as (item & -> & Hitem).
      simpl in Hbnew, Hp2'.
      assert (1 ≤ new_number item ≤ n) as Hj.
      { pose proof (items_in_bounds new_number pages_data n Hnew) as Hall.
        rewrite Forall_forall in Hall. by apply Hall. }
      assert (range 1 (n + 1) !! Z.to_nat (new_number item - 1)
              = Some (new_number item)) as Hrj.
      { unfold range. rewrite lookup_seqZ. lia. }
      rewrite <-Hs1, list_lookup_fmap in Hrj.
      destruct (sorted_by new_number pages_data
                  !! Z.to_nat (new_number item - 1)) as [item'|] eqn:Hi';
        [|done].
      injection Hrj as Hsame.
      assert (item' = item) as ->.
      { apply (fmap_NoDup_inj new_number pages_data); [done| |done|done].
        rewrite <-(sorted_by_Permutation new_number).
        by eapply list_elem_of_lookup_2. }
      destruct (Forall2_lookup_l _ _ _ _ _ Hat1 Hi') as (p1 & Hp1 & Hp1').
      rewrite Hp1 in Hp2'. injection Hp2' as ->.
      rewrite <-Hp1', <-Hq. f_equal. lia.
    - apply lookup_ge_None in Hq. apply lookup_ge_None.
      apply Forall2_length in Hat2. rewrite <-Hat2, length_sorted_by.
      unfold reorder_back. rewrite length_fmap.
      rewrite <-(length_fmap old_number), Hold. unfold range.
      rewrite length_seqZ. unfold n, len. lia. }
  exists pdf'. split.
  - by rewrite (bind_Ok _ _ _ _ _ Hrun1).
  - assert (old_number <$> sorted_by new_number pages_data
            ≡ₚ range 1 (len pdf + 1)) as Hperm'
      by (by rewrite sorted_by_Permutation).
    assert (Forall2 (λ n page, pdf !! Z.to_nat (n - 1) = Some page)
              (old_number <$> sorted_by new_number pages_data) pdf') as Hat1'
      by (by apply Forall2_fmap_l).
    destruct (Forall2_lookup_Permutation pdf _ _ Hperm' pdf' Hat1')
      as (ms' & Hms' & Hlook).
    apply lookup_range_fmap in Hlook. by subst ms'.
Qed.

Lemma reorder_pdf_pages_round_trip_witness :
  ∃ pdf' : Pdf,
    (reorder_pdf_pages 0 1
       [mkReorder 0 1 3; mkReorder 1 2 1; mkReorder 2 3 2] 3 ;;
     reorder_pdf_pages 1 2
       (reorder_back [mkReorder 0 1 3; mkReorder 1 2 1; mkReorder 2 3 2]) 3)
      three_pages
    = (Ok tt,
       set_files (λ fs,
           <[2%nat := [mkPdfPage 10 0; mkPdfPage 11 0; mkPdfPage 12 0]]> fs)
         (set_files (λ fs, <[1%nat := pdf']> fs) three_pages))
    ∧ pdf' ≡ₚ [mkPdfPage 10 0; mkPdfPage 11 0; mkPdfPage 12 0].
Proof.
  apply (reorder_pdf_pages_round_trip three_pages 0 1 2
           [mkReorder 0 1 3; mkReorder 1 2 1; mkReorder 2 3 2] 3
           [mkPdfPage 10 0; mkPdfPage 11 0; mkPdfPage 12 0]).
  - reflexivity.
  - reflexivity.
  - apply (Permutation_cons_append [1; 2] 3).
Defined.

Lemma requested_angles_absent pages_data n :
  n ∉ pages_data.*1 → requested_angles pages_data n = [].
Proof.
  intros Hn. unfold requested_angles.
  induction pages_data as [|na l IH]; [done|].
  rewrite fmap_cons, not_elem_of_cons in Hn. destruct Hn as [Hne Hn].
  rewrite filter_cons_False by (simpl; congruence). by apply IH.
Qed.

Lemma wrap_id z : INT_MIN ≤ z ≤ INT_MAX → wrap z = z.
Proof.
  unfold wrap, INT_MIN, INT_MAX. intros Hz.
  rewrite Z.mod_small by lia. lia.
Qed.

Lemma turn_bound r a : -360 < turn r a < 360.
Proof.
  unfold turn. pose proof (Z.rem_bound_abs (a + r + 360) 360). lia.
Qed.

Lemma turn_mod r a : turn r a `mod` 360 = (r + a) `mod` 360.
Proof.
  unfold turn. pose proof (Z.quot_rem' (a + r + 360) 360) as Hx.
  replace (r + a)
    with (Z.rem (a + r + 360) 360 + ((a + r + 360) ÷ 360 - 1) * 360) by lia.
  by rewrite Z.mod_add by lia.
Qed.

Lemma turned_bound angles : ∀ r, -360 < r < 360 → -360 < turned r angles < 360.
Proof.
  induction angles as [|a angles IH]; intros r Hr; [done|].
  apply IH, turn_bound.
Qed.

Lemma turned_mod angles : ∀ r,
  turned r angles `mod` 360 = (r + foldr Z.add 0 angles) `mod` 360.
Proof.
  induction angles as [|a angles IH]; intros r; simpl.
  - by rewrite Z.add_0_r.
  - change (turned r (a :: angles)) with (turned (turn r a) angles).
    rewrite IH, <-Z.add_mod_idemp_l, turn_mod, Z.add_mod_idemp_l by lia.
    f_equal. lia.
Qed.

Lemma turned_nonneg angles : ∀ r,
  0 ≤ r → Forall (λ a, -360 ≤ a) angles → 0 ≤ turned r angles.
Proof.
  induction angles as [|a angles IH]; intros r Hr Hangles; [done|].
  apply Forall_cons in Hangles as [Ha Hangles].
  change (turned r (a :: angles)) with (turned (turn r a) angles).
  apply IH; [|done]. unfold turn. apply Z.rem_nonneg; lia.
Qed.

(** Within these bounds no addition of [rotate] leaves the range of
    [int]. *)
Lemma rotate_turn page a :
  -360 < Rotate page < 360 →
  a `mod` 90 = 0 → INT_MIN + 360 ≤ a ≤ INT_MAX - 720 →
  rotate page a = Ok (mkPdfPage (content page) (turn (Rotate page) a)).
Proof.
  intros Hr Hmod Ha. unfold rotate.
  rewrite bool_decide_eq_true_2 by lia.
  rewrite bool_decide_eq_true_2 by (by apply rem_90_mod_90).
  cbv zeta. rewrite (wrap_id (a + Rotate page)) by lia.
  by rewrite wrap_id by lia.
Qed.

Lemma rotate_loop_turns (pages_data : list (Z * Z)) : ∀ pdf : Pdf,
  Forall (λ p, -360 < Rotate p < 360) pdf →
  Forall (λ na, 1 ≤ na.1 ≤ len pdf ∧ na.2 `mod` 90 = 0
                ∧ INT_MIN + 360 ≤ na.2 ≤ INT_MAX - 720) pages_data →
  ∃ pdf' : Pdf,
    rotate_loop pdf pages_data = Ok pdf'
    ∧ length pdf' = length pdf
    ∧ ∀ (j : nat) page, pdf !! j = Some page →
        pdf' !! j
        = Some (mkPdfPage (content page)
                  (turned (Rotate page)
                     (requested_angles pages_data (Z.of_nat j + 1)))).
Proof.
  induction pages_data as [|[n a] l IH]; intros pdf Hpdf Hvalid.
  - exists pdf. split; [done|]. split; [done|]. intros j page Hj.
    rewrite Hj. by destruct page.
  - apply Forall_cons in Hvalid as [(Hn & Hmod & Ha) Hvalid].
    simpl in Hn, Hmod, Ha.
    destruct (pages_p_lookup pdf n Hn) as (pg & Hpg & Hp).
    assert (-360 < Rotate pg < 360) as Hr.
    { rewrite Forall_lookup in Hpdf. by apply (Hpdf _ _ Hpg). }
    cbn [rotate_loop fst snd]. rewrite Hp.
    rewrite (rotate_turn pg a Hr Hmod Ha).
    set (pg' := mkPdfPage (content pg) (turn (Rotate pg) a)).
    destruct (IH (<[Z.to_nat (n - 1) := pg']> pdf))
      as (pdf' & Hrun & Hlen & Hpages).
    { apply Forall_insert; [done|]. apply turn_bound. }
    { eapply Forall_impl; [exact Hvalid|]. intros na. simpl.
      unfold len. by rewrite length_insert. }
    exists pdf'. split; [done|]. rewrite length_insert in Hlen.
    split; [done|]. intros j page Hj.
    destruct (decide (j = Z.to_nat (n - 1))) as [->|Hne].
    + rewrite Hpg in Hj. injection Hj as ->.
      rewrite (Hpages _ pg').
      2:{ apply list_lookup_insert_eq. by eapply lookup_lt_Some. }
      replace (Z.of_nat (Z.to_nat (n - 1)) + 1) with n by lia.
      unfold requested_angles at 2. by rewrite filter_cons_True by done.
    + rewrite (Hpages j page) by (by rewrite list_lookup_insert_ne).
      unfold requested_angles at 2.
      by rewrite filter_cons_False by (simpl; lia).
Qed.

(** X8: [rotate_pdf_pages] over a payload whose rotations are multiples
    of 90 strictly between -360 and 360 (what the format asks for and what
    the codec writes), with page numbers within the payload and angles
    that are multiples of 90 far enough from the ends of the range of a C
    [int] that no addition overflows, saves a payload with the same number
    of pages and the same contents.  A page that the request does not name
    is unchanged.  The rotation of a page lies strictly between -360 and
    360 and is congruent modulo 360 to the old rotation plus the sum of
    the angles requested for the page; as the remainder is C's, it can be
    negative (a rotation by -450 leaves -90).  It is that sum modulo 360
    when the old rotation is not negative and no angle is below -360. *)
Theorem rotate_pdf_pages_adds (s : Store) (old_version new_version : nat)
    (pages_data : list (Z * Z)) (pdf : Pdf) :
  files s !! old_version = Some pdf →
  Forall (λ p, -360 < Rotate p < 360 ∧ Rotate p `mod` 90 = 0) pdf →
  Forall (λ na, 1 ≤ na.1 ≤ len pdf ∧ na.2 `mod` 90 = 0
                ∧ INT_MIN + 360 ≤ na.2 ≤ INT_MAX - 720) pages_data →
  ∃ pdf' : Pdf,
    rotate_pdf_pages old_version new_version pages_data s
    = (Ok tt, set_files (λ fs, <[new_version := pdf']> fs) s)
    ∧ length pdf' = length pdf
    ∧ ∀ (j : nat) page, pdf !! j = Some page →
        ∃ page',
          pdf' !! j = Some page'
          ∧ content page' = content page
          ∧ (Z.of_nat j + 1 ∉ pages_data.*1 → page' = page)
          ∧ -360 < Rotate page' < 360
          ∧ Rotate page' `mod` 360
            = (Rotate page + requested_angle pages_data (Z.of_nat j + 1))
              `mod` 360
          ∧ (0 ≤ Rotate page → Forall (λ na, -360 ≤ na.2) pages_data →
             Rotate page'
             = (Rotate page + requested_angle pages_data (Z.of_nat j + 1))
               `mod` 360).
Proof.
  intros Hfile Hpdf Hvalid.
  apply (Forall_impl _ (λ p, -360 < Rotate p < 360)) in Hpdf; [|tauto].
  destruct (rotate_loop_turns pages_data pdf Hpdf Hvalid)
    as (pdf' & Hrun & Hlen & Hpages).
  exists pdf'. split.
  { unfold rotate_pdf_pages, Pdf_open. run. rewrite Hfile. simpl.
    by rewrite Hrun. }
  split; [done|]. intros j page Hj.
  assert (-360 < Rotate page < 360) as Hr.
  { rewrite Forall_lookup in Hpdf. by apply (Hpdf _ _ Hj). }
  set (angles := requested_angles pages_data (Z.of_nat j + 1)).
  assert (turned (Rotate page) angles `mod` 360
          = (Rotate page + requested_angle pages_data (Z.of_nat j + 1))
            `mod` 360) as Hmod by apply turned_mod.
  pose proof (turned_bound angles (Rotate page) Hr) as Hbound.
  eexists. split; [by apply Hpages|]. cbn [content Rotate]. fold angles.
  split; [done|].
  split; [|split; [done|split; [done|]]].
  - intros Habsent. unfold angles.
    rewrite (requested_angles_absent _ _ Habsent). by destruct page.
  - intros Hpos Hangles. rewrite <-Hmod. symmetry. apply Z.mod_small.
    split; [|apply Hbound]. apply turned_nonneg; [done|].
    unfold angles, requested_angles. apply Forall_forall. intros a' Ha'.
    apply list_elem_of_fmap in Ha' as (na & -> & Hna).
    apply list_elem_of_filter in Hna as [_ Hna].
    rewrite Forall_forall in Hangles. by apply Hangles.
Qed.

Lemma rotate_pdf_pages_adds_witness :
  (∃ pdf' : Pdf,
     rotate_pdf_pages 0 1 [(1, 90); (3, 180); (1, 270); (2, -450)] three_pages
     = (Ok tt, set_files (λ fs, <[1%nat := pdf']> fs) three_pages)
     ∧ length pdf' = 3%nat
     ∧ ∀ (j : nat) page,
         [mkPdfPage 10 0; mkPdfPage 11 0; mkPdfPage 12 0] !! j = Some page →
         ∃ page',
           pdf' !! j = Some page'
           ∧ content page' = content page
           ∧ (Z.of_nat j + 1 ∉ [(1, 90); (3, 180); (1, 270); (2, -450)].*1 →
              page' = page)
           ∧ -360 < Rotate page' < 360
           ∧ Rotate page' `mod` 360
             = (Rotate page
                + requested_angle [(1, 90); (3, 180); (1, 270); (2, -450)]
                    (Z.of_nat j + 1)) `mod` 360
           ∧ (0 ≤ Rotate page →
              Forall (λ na, -360 ≤ na.2)
                [(1, 90); (3, 180); (1, 270); (2, -450)] →
              Rotate page'
              = (Rotate page
                 + requested_angle [(1, 90); (3, 180); (1, 270); (2, -450)]
                     (Z.of_nat j + 1)) `mod` 360))
  ∧ files (rotate_pdf_pages 0 1 [(1, 90); (3, 180); (1, 270); (2, -450)]
             three_pages).2 !! 1%nat
    = Some [mkPdfPage 10 0; mkPdfPage 11 (-90); mkPdfPage 12 180].
Proof.
  split; [|reflexivity].
  apply (rotate_pdf_pages_adds three_pages 0 1
           [(1, 90); (3, 180); (1, 270); (2, -450)]
           [mkPdfPage 10 0; mkPdfPage 11 0; mkPdfPage 12 0]).
  - reflexivity.
  - repeat constructor.
  - repeat constructor; vm_compute; congruence.
Defined.

Lemma rotate_loop_refuses (pre : list (Z * Z)) : ∀ (pdf : Pdf) n a post,
  Forall (λ na, 1 ≤ na.1 ≤ len pdf ∧ accepted_angle na.2) pre →
  ¬ (1 ≤ n ≤ len pdf ∧ accepted_angle a) →
  rotate_loop pdf (pre ++ (n, a) :: post)
  = Raise (if bool_decide (1 ≤ n ≤ len pdf) then
             if bool_decide (INT_MIN ≤ a ≤ INT_MAX) then RuntimeError
             else TypeError
           else IndexError).
Proof.
  induction pre as [|[m b] pre IH]; intros pdf n a post Hpre Hbad.
  - simpl. case_bool_decide as Hn.
    + destruct (pages_p_lookup pdf n Hn) as (pg & _ & ->).
      rewrite rotate_refused; [done|tauto].
    + unfold pages_p. case_bool_decide; [|done].
      rewrite (proj2 (lookup_ge_None pdf _)); [done|]. unfold len in Hn. lia.
  - apply Forall_cons in Hpre as [[Hm Hb] Hpre]. simpl in Hm, Hb.
    destruct (pages_p_lookup pdf m Hm) as (pg & _ & Hp).
    simpl. rewrite Hp. destruct (rotate_accepted pg b Hb) as [r ->].
    rewrite IH.
    + unfold len. by rewrite length_insert.
    + eapply Forall_impl; [exact Hpre|]. intros na. simpl.
      unfold len. by rewrite length_insert.
    + unfold len. by rewrite length_insert.
Qed.

(** X9: the first entry of a rotate request that names a page outside
    the payload, an angle outside the range of a C [int], or an angle
    that is not a multiple of 90, ends [rotate_pdf_pages] with
    [IndexError], [TypeError], respectively [RuntimeError]; no payload is
    written, also not for the entries before it. *)
Theorem rotate_pdf_pages_refuses (s : Store) (old_version new_version : nat)
    (pre post : list (Z * Z)) (n a : Z) (pdf : Pdf) :
  files s !! old_version = Some pdf →
  Forall (λ na, 1 ≤ na.1 ≤ len pdf ∧ accepted_angle na.2) pre →
  ¬ (1 ≤ n ≤ len pdf ∧ accepted_angle a) →
  rotate_pdf_pages old_version new_version (pre ++ (n, a) :: post) s
  = (Raise (if bool_decide (1 ≤ n ≤ len pdf) then
              if bool_decide (INT_MIN ≤ a ≤ INT_MAX) then RuntimeError
              else TypeError
            else IndexError),
     s).
Proof.
  intros Hfile Hpre Hbad.
  unfold rotate_pdf_pages, Pdf_open. run. rewrite Hfile. simpl.
  by rewrite (rotate_loop_refuses pre pdf n a post Hpre Hbad).
Qed.

Lemma rotate_pdf_pages_refuses_witness :
  rotate_pdf_pages 0 1 ([(1, 90)] ++ (2, 45) :: [(3, 90)]) three_pages
  = (Raise RuntimeError, three_pages)
  ∧ rotate_pdf_pages 0 1 ([(1, 90)] ++ (2, 90 * 2 ^ 25) :: [(3, 90)])
      three_pages
    = (Raise TypeError, three_pages)
  ∧ rotate_pdf_pages 0 1 ([(1, 90)] ++ (4, 90) :: [(3, 90)]) three_pages
    = (Raise IndexError, three_pages).
Proof.
  split; [|split].
  - apply (rotate_pdf_pages_refuses three_pages 0 1 [(1, 90)] [(3, 90)] 2 45
             [mkPdfPage 10 0; mkPdfPage 11 0; mkPdfPage 12 0]).
    + reflexivity.
    + repeat constructor; vm_compute; congruence.
    + intros [_ [_ Hmod]]. vm_compute in Hmod. discriminate.
  - apply (rotate_pdf_pages_refuses three_pages 0 1 [(1, 90)] [(3, 90)] 2
             (90 * 2 ^ 25) [mkPdfPage 10 0; mkPdfPage 11 0; mkPdfPage 12 0]).
    + reflexivity.
    + repeat constructor; vm_compute; congruence.
    + intros [_ [[_ Hmax] _]]. vm_compute in Hmax. by apply Hmax.
  - apply (rotate_pdf_pages_refuses three_pages 0 1 [(1, 90)] [(3, 90)] 4 90
             [mkPdfPage 10 0; mkPdfPage 11 0; mkPdfPage 12 0]).
    + reflexivity.
    + repeat constructor; vm_compute; congruence.
    + intros [[_ Hlen] _]. vm_compute in Hlen. by apply Hlen.
Defined.

Lemma pages_dict_is_Some (ps : PageSet) n :
  is_Some (pages_dict ps !! n) ↔ n ∈ numbers ps.
Proof.
  induction ps as [|r ps IH] using rev_ind.
  - unfold pages_dict. simpl. rewrite lookup_empty. split.
    + by intros [? ?].
    + by intros ?%elem_of_nil.
  - rewrite pages_dict_snoc. unfold numbers in *. rewrite fmap_app. simpl.
    rewrite elem_of_app, list_elem_of_singleton.
    destruct (decide (number r.2 = n)) as [<-|Hne].
    + rewrite lookup_insert_eq. split; [by right|by eexists].
    + rewrite lookup_insert_ne by done. rewrite IH. split; [by left|].
      by intros [?|?].
Qed.

Lemma collect_streams_missing (pages_map : gmap Z Page) pre : ∀ n post,
  Forall (λ i, is_Some (pages_map !! i)) pre →
  pages_map !! n = None →
  collect_streams pages_map (pre ++ n :: post) = Raise (KeyError n).
Proof.
  induction pre as [|i pre IH]; intros n post Hpre Hn; simpl.
  - by rewrite Hn.
  - apply Forall_cons in Hpre as [[p Hp] Hpre]. rewrite Hp.
    by rewrite (IH n post Hpre Hn).
Qed.

(** X10: [collect_text_streams] raises [KeyError] with the first
    requested number that no page of the version has; the store is
    unchanged. *)
Theorem collect_text_streams_missing (version : nat) (s : Store)
    (pre post : list Z) (n : Z) :
  Forall (λ i, i ∈ numbers (version_pages version s)) pre →
  n ∉ numbers (version_pages version s) →
  collect_text_streams version (pre ++ n :: post) s = (Raise (KeyError n), s).
Proof.
  intros Hpre Hn. unfold collect_text_streams, pages_all. run.
  rewrite collect_streams_missing; [done| |].
  - eapply Forall_impl; [exact Hpre|]. intros i. by rewrite pages_dict_is_Some.
  - apply eq_None_not_Some. by rewrite pages_dict_is_Some.
Qed.

Lemma collect_text_streams_missing_witness :
  collect_text_streams 0 ([1; 3] ++ 4 :: [2; 5]) three_pages
  = (Raise (KeyError 4), three_pages).
Proof.
  apply (collect_text_streams_missing 0 three_pages [1; 3] [2; 5] 4).
  - apply (bool_decide_unpack _). by vm_compute.
  - apply (bool_decide_unpack _). by vm_compute.
Defined.

(** ** Artifacts follow the page map *)

(** X11: for a page map with distinct new numbers between two different
    versions, [reuse_ocr_data] gives each new page the artifact of the old
    page it is mapped to; where the old page has no artifact the new page
    keeps what it had; every other artifact, those of the old version among
    them, is untouched.  [copy_pages_data] does the same with the pairs the
    other way round. *)
Theorem reuse_ocr_data_copies (old_version new_version : nat)
    (page_map : list (Z * Z)) (s : Store) :
  old_version ≠ new_version →
  NoDup page_map.*1 →
  ∃ pf,
    reuse_ocr_data old_version new_version page_map s
    = (Ok tt, set_page_files (λ _, pf) s)
    ∧ copy_pages_data old_version new_version (prod_swap <$> page_map) s
      = (Ok tt, set_page_files (λ _, pf) s)
    ∧ (∀ new_number old_number a,
         (new_number, old_number) ∈ page_map →
         page_files s !! (old_version, old_number) = Some a →
         pf !! (new_version, new_number) = Some a)
    ∧ (∀ new_number old_number,
         (new_number, old_number) ∈ page_map →
         page_files s !! (old_version, old_number) = None →
         pf !! (new_version, new_number)
         = page_files s !! (new_version, new_number))
    ∧ (∀ k, (∀ n, n ∈ page_map.*1 → k ≠ (new_version, n)) →
         pf !! k = page_files s !! k).
Proof.
  intros Hne Hnd.
  destruct (copy_loop_spec old_version new_version page_map s Hne Hnd)
    as (pf & Hrun & Hcopied & Hother).
  exists pf. split; [done|]. split.
  { by rewrite copy_pages_data_swap, fmap_prod_swap_swap. }
  split; [|split; [|done]].
  - intros n o a Hin Ha. by rewrite (Hcopied n o Hin), Ha.
  - intros n o Hin Ha. by rewrite (Hcopied n o Hin), Ha.
Qed.

Lemma reuse_ocr_data_copies_witness :
  ∃ pf,
    reuse_ocr_data 1 3 [(1, 2); (2, 3)] two_documents
    = (Ok tt, set_page_files (λ _, pf) two_documents)
    ∧ copy_pages_data 1 3 (prod_swap <$> [(1, 2); (2, 3)]) two_documents
      = (Ok tt, set_page_files (λ _, pf) two_documents)
    ∧ (∀ new_number old_number a,
         (new_number, old_number) ∈ [(1, 2); (2, 3)] →
         page_files two_documents !! (1%nat, old_number) = Some a →
         pf !! (3%nat, new_number) = Some a)
    ∧ (∀ new_number old_number,
         (new_number, old_number) ∈ [(1, 2); (2, 3)] →
         page_files two_documents !! (1%nat, old_number) = None →
         pf !! (3%nat, new_number)
         = page_files two_documents !! (3%nat, new_number))
    ∧ (∀ k, (∀ n, n ∈ [(1, 2); (2, 3)].*1 → k ≠ (3%nat, n)) →
         pf !! k = page_files two_documents !! k).
Proof.
  apply (reuse_ocr_data_copies 1 3 [(1, 2); (2, 3)] two_documents).
  - discriminate.
  - apply (bool_decide_unpack _). by vm_compute.
Defined.

(** ** Reordering with a valid request *)

Lemma sorted_new_numbers pages_data n :
  new_number <$> pages_data ≡ₚ range 1 (n + 1) →
  new_number <$> sorted_by new_number pages_data = range 1 (n + 1).
Proof.
  intros Hperm. apply (StronglySorted_unique Z.le).
  - apply StronglySorted_key_fmap, sorted_by_sorted.
  - apply StronglySorted_seqZ.
  - by rewrite sorted_by_Permutation.
Qed.

Lemma reorder_pages_run s pages_data first_page v row pdf :
  wf s → version_ok s v row pdf →
  first (select (reorder_id <$> pages_data) s) = Some first_page →
  document_version first_page.2 = v →
  new_number <$> pages_data ≡ₚ range 1 (page_count row + 1) →
  Forall (λ item, 1 ≤ old_number item ≤ page_count row) pages_data →
  let order := old_number <$> sorted_by new_number pages_data in
  ∃ (pdf' : Pdf) pf,
    Forall2 (λ n page, pdf !! Z.to_nat (n - 1) = Some page) order pdf'
    ∧ length order = Z.to_nat (page_count row)
    ∧ Forall (λ n, 1 ≤ n ≤ page_count row) order
    ∧ (∀ (i : nat) n a, order !! i = Some n →
         page_files s !! (v, n) = Some a →
         pf !! (length (versions s), Z.of_nat i + 1) = Some a)
    ∧ reorder_pages pages_data s
      = (Ok tt,
         versioned_store row (page_count row)
           (text_at (page_texts v s) <$> order) pdf' pf s).
Proof.
  intros Hwf Hok Hfirst Hfv Hnew Hold order.
  pose proof Hok as [Hrow Hcur Hnum Hfile Hpayload].
  assert (0 ≤ page_count row) as Hn0 by (rewrite <-Hpayload; unfold len; lia).
  pose proof (sorted_new_numbers pages_data (page_count row) Hnew) as Hsorted.
  assert (length order = Z.to_nat (page_count row)) as Hlen.
  { unfold order. rewrite length_fmap.
    rewrite <-(length_fmap new_number), Hsorted. unfold range.
    rewrite length_seqZ. lia. }
  assert (Forall (λ n, 1 ≤ n ≤ page_count row) order) as Hin.
  { unfold order. apply Forall_fmap. rewrite sorted_by_Permutation.
    exact Hold. }
  destruct (pages_p_all pdf order) as (pdf' & Hat & Hp).
  { by rewrite Hpayload. }
  set (v' := length (versions s)).
  set (s1 := bumped (document row) row (page_count row) s).
  set (s2 := set_files (λ fs, <[v' := pdf']> fs) s1).
  set (page_map := zip (range 1 (page_count row + 1)) order).
  assert (v < length (versions s))%nat as Hlt by (by eapply lookup_lt_Some).
  assert (page_map.*1 = range 1 (page_count row + 1)) as Hfst.
  { apply fst_zip. unfold range. rewrite length_seqZ. lia. }
  assert (page_map.*2 = order) as Hsnd.
  { apply snd_zip. unfold range. rewrite length_seqZ. lia. }
  destruct (copy_loop_spec v v' page_map s2) as (pf & Hocr & Hcopied & _).
  { unfold v'. lia. }
  { rewrite Hfst. apply NoDup_seqZ. }
  exists pdf', pf. split; [done|]. split; [done|]. split; [done|]. split.
  { intros i n a Hi Ha.
    rewrite (Hcopied (Z.of_nat i + 1) n).
    - simpl. by rewrite Ha.
    - unfold page_map. apply (list_elem_of_lookup_2 _ i).
      apply lookup_zip_with_Some. exists (Z.of_nat i + 1), n.
      split; [done|]. split; [|done]. unfold range.
      apply lookup_seqZ. split; [lia|].
      apply lookup_lt_Some in Hi. lia. }
  assert (∀ t, pages t = pages s1 → version_pages v t = version_pages v s)
    as Hvp.
  { intros t Ht.
    apply (version_pages_app v s t
             (placeholders (version_lang row) v' (page_count row))); [done|].
    eapply Forall_impl; [apply placeholders_version|].
    simpl. intros p ->. unfold v'. lia. }
  unfold reorder_pages, Page_objects_filter.
  unfold bind at 1, gets at 1. rewrite Hfirst.
  unfold not_None, from_option. unfold bind at 1, ret at 1.
  rewrite Hfv. unfold Version_get. unfold bind at 1. unfold bind at 1, gets at 1.
  rewrite Hrow. unfold from_option, ret at 1.
  rewrite (bind_Ok _ _ _ _ _
    (version_bump_run (document row) (Some (page_count row)) s v row Hcur Hrow)).
  simpl default. fold s1.
  rewrite (bind_Ok _ _ s1 (page_count row) s1).
  2:{ unfold pages_count, gets. rewrite (Hvp s1 eq_refl).
      by rewrite (pages_count_range s v (page_count row)). }
  rewrite (bind_Ok _ _ s1 tt s2).
  2:{ unfold reorder_pdf_pages.
      rewrite (bind_Ok _ _ s1 pdf s1).
      2:{ unfold Pdf_open. run. by rewrite Hfile. }
      rewrite (bind_Ok _ _ s1 pdf' s1); [done|].
      unfold lift. apply Forall2_fmap_l in Hp.
      by rewrite (append_loop_run pdf _ [] pdf' Hp). }
  rewrite (bind_Ok _ _ s2 order s2).
  2:{ unfold lift, get_reordered_list.
      by rewrite bool_decide_eq_true_2. }
  fold page_map. rewrite (bind_Ok _ _ _ _ _ Hocr).
  unfold reuse_text_field. rewrite Hsnd.
  rewrite (bind_Ok _ _ _ (text_at (page_texts v s) <$> order)
             (set_page_files (λ _, pf) s2)).
  2:{ pose proof (Hvp (set_page_files (λ _, pf) s2) eq_refl) as Hvp3.
      rewrite (collect_text_streams_run v _ (page_count row));
        [|by rewrite Hvp3|done].
      unfold page_texts. by rewrite Hvp3. }
  apply (update_new_version_run s (set_page_files (λ _, pf) s2) row
           (page_count row)); try done.
  by rewrite length_fmap.
Qed.

(** X12: a reorder request whose new numbers are exactly 1..page_count,
    each once, and whose old numbers are within 1..page_count, for a
    document whose first named page is on the current version, succeeds:
    the new current version has the same page count, pages numbered from 1,
    and at each new position the payload page, the text and the artifact
    of the old page that the item with that new number names; the version
    text is the new page texts joined by a space.  The ids of the request
    serve only to find the document. *)
Theorem reorder_pages_correct (s : Store) (pages_data : list ReorderItem)
    (first_page : nat * Page) (v : nat) (row : DocumentVersion) (pdf : Pdf) :
  wf s → version_ok s v row pdf →
  first (select (reorder_id <$> pages_data) s) = Some first_page →
  document_version first_page.2 = v →
  new_number <$> pages_data ≡ₚ range 1 (page_count row + 1) →
  Forall (λ item, 1 ≤ old_number item ≤ page_count row) pages_data →
  let order := old_number <$> sorted_by new_number pages_data in
  let v' := length (versions s) in
  ∃ s' row' pdf',
    reorder_pages pages_data s = (Ok tt, s')
    ∧ current_version (document row) s' = Some v'
    ∧ versions s' !! v' = Some row'
    ∧ page_count row' = page_count row
    ∧ numbers (version_pages v' s') = range 1 (page_count row + 1)
    ∧ files s' !! v' = Some pdf'
    ∧ Forall2 (λ n page, pdf !! Z.to_nat (n - 1) = Some page) order pdf'
    ∧ page_texts v' s' = text_at (page_texts v s) <$> order
    ∧ version_text row' = String.concat " " (page_texts v' s')
    ∧ ∀ (i : nat) n a, order !! i = Some n →
        page_files s !! (v, n) = Some a →
        page_files s' !! (v', Z.of_nat i + 1) = Some a.
Proof.
  intros Hwf Hok Hfirst Hfv Hnew Hold order v'. subst order v'.
  destruct (reorder_pages_run s pages_data first_page v row pdf
              Hwf Hok Hfirst Hfv Hnew Hold)
    as (pdf' & pf & Hat & Hlen & Hin & Hpf & Hrun).
  assert (0 ≤ page_count row) as Hn0.
  { destruct Hok as [_ _ _ _ <-]. unfold len. lia. }
  destruct (versioned_store_facts s row (page_count row)
              (text_at (page_texts v s) <$>
                 (old_number <$> sorted_by new_number pages_data)) pdf' pf Hwf)
    as (Hcur & Hrow' & Hfile' & Hnum & Htexts); [by rewrite length_fmap|done|].
  eexists _, _, pdf'. split; [exact Hrun|].
  split; [exact Hcur|]. split; [exact Hrow'|]. split; [done|].
  split; [exact Hnum|]. split; [exact Hfile'|]. split; [exact Hat|].
  split; [exact Htexts|]. split; [by rewrite Htexts|]. exact Hpf.
Qed.

Lemma reorder_pages_correct_witness :
  ∃ s' row' pdf',
    reorder_pages [mkReorder 0 1 3; mkReorder 1 2 1; mkReorder 2 3 2]
      three_pages = (Ok tt, s')
    ∧ current_version 0 s' = Some 1%nat
    ∧ versions s' !! 1%nat = Some row'
    ∧ page_count row' = 3
    ∧ numbers (version_pages 1 s') = [1; 2; 3]
    ∧ files s' !! 1%nat = Some pdf'
    ∧ pdf' = [mkPdfPage 11 0; mkPdfPage 12 0; mkPdfPage 10 0]
    ∧ page_texts 1 s' = ["page 2"; "page 3"; "page 1"]
    ∧ version_text row' = "page 2 page 3 page 1".
Proof.
  destruct (reorder_pages_correct three_pages
    [mkReorder 0 1 3; mkReorder 1 2 1; mkReorder 2 3 2]
    (0%nat, mkPage 1 "page 1" "deu" 0) 0
    (mkVersion 0 1 3 "page 1 page 2 page 3" "deu")
    [mkPdfPage 10 0; mkPdfPage 11 0; mkPdfPage 12 0])
    as (s' & row' & pdf' & Hrun & Hcur & Hrow & Hcount & Hnum & Hfile & Hat
        & Htexts & Htext & _).
  - apply (bool_decide_unpack _). by vm_compute.
  - split; reflexivity.
  - reflexivity.
  - reflexivity.
  - apply (Permutation_cons_append [1; 2] 3).
  - repeat constructor; vm_compute; congruence.
  - exists s', row', pdf'.
    split; [exact Hrun|]. split; [exact Hcur|]. split; [exact Hrow|].
    split; [exact Hcount|]. split; [exact Hnum|]. split; [exact Hfile|].
    split.
    { apply Forall2_cons_inv_l in Hat as (p1 & l1 & [= <-] & Hat & ->).
      apply Forall2_cons_inv_l in Hat as (p2 & l2 & [= <-] & Hat & ->).
      apply Forall2_cons_inv_l in Hat as (p3 & l3 & [= <-] & Hat & ->).
      by apply Forall2_nil_inv_l in Hat as ->. }
    split; [exact Htexts|]. rewrite Htexts in Htext. exact Htext.
Defined.

(** ** Artifacts after a delete *)

(** X13: after [delete_pages], the artifact of every surviving page is
    found under the new current version at the page's new number: the
    i-th of the numbers 1..page_count that are not deleted becomes page i. *)
Theorem delete_pages_carries_artifacts (s : Store) (page_ids : list nat)
    (v : nat) (row : DocumentVersion) (pdf : Pdf) :
  wf s → version_ok s v row pdf →
  select page_ids s ≠ [] →
  Forall (λ r, document_version r.2 = v) (select page_ids s) →
  len (select page_ids s) < page_count row →
  let deleted := numbers (select page_ids s) in
  let kept := filter (λ n, n ∉ deleted) (range 1 (page_count row + 1)) in
  ∃ s',
    delete_pages page_ids s = (Ok tt, s')
    ∧ ∀ (i : nat) n a,
        kept !! i = Some n →
        page_files s !! (v, n) = Some a →
        page_files s' !! (length (versions s), Z.of_nat i + 1) = Some a.
Proof.
  intros Hwf Hok Hne Hv Hlt deleted kept.
  pose proof Hok as [Hrow Hcur Hnum Hfile Hpayload].
  assert (0 ≤ page_count row) as Hn0 by (rewrite <-Hpayload; unfold len; lia).
  destruct (numbers_select s page_ids v (page_count row) Hnum Hv)
    as [Hsorted Hrange].
  destruct (delete_steps s v row pdf (select page_ids s) Hwf Hok Hsorted Hrange)
    as (pf & Hbump & Hremove & Hocr & Htext).
  exists (deleted_store v row pdf deleted pf s). split.
  - unfold delete_pages, Page_objects_filter.
    unfold bind at 1, gets at 1. unfold bind at 1, gets at 1.
    rewrite (bind_Ok _ _ s tt s)
      by (by eapply for_each_not_archived).
    destruct (select page_ids s) as [|first_page ptd] eqn:Hsel; [done|].
    apply Forall_cons in Hv as [Hfirst _].
    simpl first. unfold not_None, from_option. unfold bind at 1, ret at 1.
    rewrite Hfirst. unfold pages_count. unfold bind at 1, gets at 1.
    rewrite (pages_count_range s v (page_count row)) by done.
    rewrite bool_decide_eq_false_2 by lia.
    unfold Version_get. unfold bind at 1. unfold bind at 1, gets at 1.
    rewrite Hrow. unfold from_option, ret at 1.
    rewrite (bind_Ok _ _ _ _ _ Hbump), (bind_Ok _ _ _ _ _ Hremove).
    cbv zeta. by rewrite (bind_Ok _ _ _ _ _ Hocr).
  - intros i n a Hi Ha. simpl.
    set (page_map := get_assigns_after_delete (page_count row) deleted) in *.
    assert (v < length (versions s))%nat as Hlt' by (by eapply lookup_lt_Some).
    destruct (copy_loop_spec v (length (versions s)) page_map
      (set_files (λ fs, <[length (versions s) := survivors pdf deleted]> fs)
         (bumped (document row) row (page_count row - len (select page_ids s))
            s)))
      as (pf' & Hocr' & Hcopied & _).
    { lia. }
    { unfold page_map, get_assigns_after_delete. rewrite fst_zip by
        (unfold range; rewrite length_seqZ; unfold len; lia).
      apply NoDup_seqZ. }
    pose proof (eq_trans (eq_sym Hocr) Hocr') as Heq.
    apply (f_equal (λ r, page_files r.2)) in Heq. simpl in Heq.
    subst pf'. rewrite (Hcopied (Z.of_nat i + 1) n).
    + simpl. by rewrite Ha.
    + unfold page_map, get_assigns_after_delete.
      apply (list_elem_of_lookup_2 _ i). apply lookup_zip_with_Some.
      exists (Z.of_nat i + 1), n. split; [done|]. split; [|done].
      unfold range. apply lookup_seqZ. split; [lia|].
      apply lookup_lt_Some in Hi. unfold kept, range in Hi.
      unfold deleted in *. unfold len. lia.
Qed.

Lemma delete_pages_carries_artifacts_witness :
  ∃ s',
    delete_pages [0; 1]%nat two_documents = (Ok tt, s')
    ∧ ∀ (i : nat) n a,
        filter (λ n, n ∉ numbers (select [0; 1]%nat two_documents))
          (range 1 (3 + 1)) !! i = Some n →
        page_files two_documents !! (0%nat, n) = Some a →
        page_files s' !! (2%nat, Z.of_nat i + 1) = Some a.
Proof.
  apply (delete_pages_carries_artifacts two_documents [0; 1]%nat 0
           (mkVersion 0 1 3 "cat dog monkey" "deu")
           [mkPdfPage 10 0; mkPdfPage 11 0; mkPdfPage 12 0]).
  - apply (bool_decide_unpack _). by vm_compute.
  - split; reflexivity.
  - discriminate.
  - repeat constructor.
  - reflexivity.
Defined.

(** ** Requests the views refuse *)

Lemma select_nil ids s :
  Forall (λ i, pages s !! i = None) ids → select ids s = [].
Proof.
  intros Hids. destruct (select ids s) as [|r l] eqn:Hsel; [done|].
  assert (r ∈ select ids s) as [Hr Hin]%elem_of_select by (rewrite Hsel; left).
  rewrite Forall_forall in Hids. by rewrite (Hids _ Hin) in Hr.
Qed.

Lemma Document_get_run s pk user doc :
  documents s !! pk = Some doc → user_id doc = user →
  Document_get pk user s = (Ok doc, s).
Proof.
  intros Hdoc Huser. unfold Document_get. run. rewrite Hdoc. simpl.
  by rewrite bool_decide_eq_true_2.
Qed.

(** X14: when none of the requested ids is the id of a page, each of the
    delete, reorder, rotate, move-to-folder and move-to-document views ends
    in [AttributeError] (the first page of the selection is [None]) and
    leaves the store unchanged; for the two moves, after the destination
    has been found. *)
Theorem edits_need_a_page (s : Store) (ids : list nat) :
  Forall (λ i, pages s !! i = None) ids →
  delete_pages ids s = (Raise AttributeError, s)
  ∧ (∀ pages_data, reorder_id <$> pages_data = ids →
       reorder_pages pages_data s = (Raise AttributeError, s))
  ∧ (∀ pages_data, rotate_id <$> pages_data = ids →
       rotate_pages pages_data s = (Raise AttributeError, s))
  ∧ (∀ user dst flag folder,
       folders s !! dst = Some folder → folder_user_id folder = user →
       move_to_folder user (mkMoveToFolder ids dst flag) s
       = (Raise AttributeError, s))
  ∧ (∀ user dst position doc,
       documents s !! dst = Some doc → user_id doc = user →
       move_to_document user (mkMoveToDocument ids dst position) s
       = (Raise AttributeError, s)).
Proof.
  intros Hsel%select_nil. split_and!.
  - unfold delete_pages, Page_objects_filter. run. by rewrite Hsel.
  - intros pages_data Hids. unfold reorder_pages, Page_objects_filter. run.
    by rewrite Hids, Hsel.
  - intros pages_data Hids. unfold rotate_pages, Page_objects_filter. run.
    by rewrite Hids, Hsel.
  - intros user dst flag folder Hfolder Huser. unfold move_to_folder.
    rewrite (bind_Ok _ _ _ _ _ (Folder_get_run s dst user folder Hfolder Huser)).
    unfold Page_objects_filter. run. by rewrite Hsel.
  - intros user dst position doc Hdoc Huser. unfold move_to_document.
    rewrite (bind_Ok _ _ _ _ _ (Document_get_run s dst user doc Hdoc Huser)).
    unfold Page_objects_filter. run. by rewrite Hsel.
Qed.

Lemma edits_need_a_page_witness :
  delete_pages [7%nat] three_pages = (Raise AttributeError, three_pages)
  ∧ (∀ pages_data, reorder_id <$> pages_data = [7%nat] →
       reorder_pages pages_data three_pages = (Raise AttributeError, three_pages))
  ∧ (∀ pages_data, rotate_id <$> pages_data = [7%nat] →
       rotate_pages pages_data three_pages = (Raise AttributeError, three_pages))
  ∧ (∀ user dst flag folder,
       folders three_pages !! dst = Some folder →
       folder_user_id folder = user →
       move_to_folder user (mkMoveToFolder [7%nat] dst flag) three_pages
       = (Raise AttributeError, three_pages))
  ∧ (∀ user dst position doc,
       documents three_pages !! dst = Some doc → user_id doc = user →
       move_to_document user (mkMoveToDocument [7%nat] dst position) three_pages
       = (Raise AttributeError, three_pages)).
Proof.
  apply (edits_need_a_page three_pages [7%nat]).
  by repeat constructor.
Defined.

Lemma is_archived_run s p row :
  versions s !! document_version p = Some row →
  is_archived p s
  = (Ok (bool_decide (current_version (document row) s
                      ≠ Some (document_version p))), s).
Proof.
  intros Hrow. unfold is_archived, Version_get, versions_last. run.
  by rewrite Hrow.
Qed.

Lemma for_each_archived s (ps : PageSet) :
  Forall (λ r, is_Some (versions s !! document_version r.2)) ps →
  Exists (λ r, on_archived_version s r.2) ps →
  for_each ps (λ page,
    archived <- is_archived page.2 ;;
    if archived then raise ArchivedEditConflict else ret tt) s
  = (Raise ArchivedEditConflict, s).
Proof.
  induction ps as [|r ps IH]; intros Hrows Hex.
  - by apply Exists_nil in Hex.
  - apply Forall_cons in Hrows as [[row Hrow] Hrows]. simpl.
    pose proof (is_archived_run s r.2 row Hrow) as Hrun.
    case_bool_decide as Hcur.
    + erewrite bind_Raise; [done|]. by rewrite (bind_Ok _ _ s true s).
    + erewrite bind_Ok; [|by rewrite (bind_Ok _ _ s false s)].
      apply IH; [done|].
      apply Exists_cons in Hex as [(row' & Hrow' & Hne)|Hex]; [|done].
      rewrite Hrow in Hrow'. injection Hrow' as <-. by destruct Hcur.
Qed.

Lemma for_each_current s (ps : PageSet) :
  Forall (λ r, on_current_version s r.2) ps →
  for_each ps (λ page,
    archived <- is_archived page.2 ;;
    if archived then raise ArchivedEditConflict else ret tt) s
  = (Ok tt, s).
Proof.
  induction 1 as [|r ps (row & Hrow & Hcur) _ IH]; simpl; [done|].
  erewrite bind_Ok; [exact IH|].
  rewrite (bind_Ok _ _ s false s); [done|].
  by apply (is_archived_current s r.2 row).
Qed.

(** X15: if one of the selected pages is on a version that is not the
    current one of its document, [delete_pages] refuses the whole request
    with "Deleting archived page is not allowed", and so does
    [perform_destroy] for that page; the store is unchanged. *)
Theorem delete_refuses_archived (s : Store) (page_ids : list nat)
    (page : nat * Page) :
  wf s →
  page ∈ select page_ids s →
  on_archived_version s page.2 →
  delete_pages page_ids s = (Raise ArchivedEditConflict, s)
  ∧ perform_destroy page.1 s = (Raise ArchivedEditConflict, s).
Proof.
  intros Hwf Hin Harchived. split.
  - unfold delete_pages, Page_objects_filter.
    unfold bind at 1, gets at 1. unfold bind at 1, gets at 1.
    erewrite bind_Raise; [done|]. apply for_each_archived.
    + apply Forall_forall. intros r [Hr _]%elem_of_select.
      apply lookup_lt_is_Some_2. unfold wf in Hwf.
      rewrite Forall_forall in Hwf. apply Hwf. by eapply list_elem_of_lookup_2.
    + apply Exists_exists. by exists page.
  - apply elem_of_select in Hin as [Hpage _].
    destruct Harchived as (row & Hrow & Hne).
    unfold perform_destroy, Page_get.
    unfold bind at 1. unfold bind at 1, gets at 1. rewrite Hpage.
    unfold from_option, ret at 1.
    rewrite (bind_Ok _ _ _ _ _ (is_archived_run s page.2 row Hrow)).
    by rewrite bool_decide_eq_true_2.
Qed.

(** X16: when all selected pages are on current versions and the
    selection has at least as many pages as the version of its first page,
    [delete_pages] refuses with "Document version must have at least one
    page" and changes nothing. *)
Theorem delete_pages_refuses_all (s : Store) (page_ids : list nat)
    (first_page : nat * Page) :
  first (select page_ids s) = Some first_page →
  Forall (λ r, on_current_version s r.2) (select page_ids s) →
  len (version_pages (document_version first_page.2) s)
  ≤ len (select page_ids s) →
  delete_pages page_ids s = (Raise InvariantViolation, s).
Proof.
  intros Hfirst Hcurrent Hle.
  unfold delete_pages, Page_objects_filter.
  unfold bind at 1, gets at 1. unfold bind at 1, gets at 1.
  rewrite (bind_Ok _ _ s tt s) by (by apply for_each_current).
  rewrite Hfirst. unfold not_None, from_option. unfold bind at 1, ret at 1.
  unfold pages_count. unfold bind at 1, gets at 1.
  by rewrite bool_decide_eq_true_2.
Qed.

(** X17: a move whose destination folder, respectively destination
    document, does not exist or belongs to another user than the requesting
    one ends in [DoesNotExist] before anything is written. *)
Theorem move_refuses_foreign_destination (user : nat) (s : Store) :
  (∀ ids dst flag,
     (∀ folder, folders s !! dst = Some folder → folder_user_id folder ≠ user) →
     move_to_folder user (mkMoveToFolder ids dst flag) s
     = (Raise DoesNotExist, s))
  ∧ (∀ ids dst position,
       (∀ doc, documents s !! dst = Some doc → user_id doc ≠ user) →
       move_to_document user (mkMoveToDocument ids dst position) s
       = (Raise DoesNotExist, s)).
Proof.
  split.
  - intros ids dst flag Hfolder. unfold move_to_folder, Folder_get. run.
    destruct (folders s !! dst) as [folder|] eqn:Hf; simpl; [|done].
    by rewrite bool_decide_eq_false_2 by (by apply Hfolder).
  - intros ids dst position Hdoc. unfold move_to_document, Document_get. run.
    destruct (documents s !! dst) as [doc|] eqn:Hd; simpl; [|done].
    by rewrite bool_decide_eq_false_2 by (by apply Hdoc).
Qed.

Lemma move_refuses_foreign_destination_witness :
  move_to_folder 1 (mkMoveToFolder [1; 2]%nat 0 false) source_and_folder
  = (Raise DoesNotExist, source_and_folder)
  ∧ move_to_document 1 (mkMoveToDocument [0; 1]%nat 1 0) two_documents
    = (Raise DoesNotExist, two_documents)
  ∧ move_to_document 0 (mkMoveToDocument [0; 1]%nat 5 0) two_documents
    = (Raise DoesNotExist, two_documents).
Proof.
  split; [|split].
  - apply (proj1 (move_refuses_foreign_destination 1 source_and_folder)).
    intros folder [= <-]. discriminate.
  - apply (proj2 (move_refuses_foreign_destination 1 two_documents)).
    intros doc [= <-]. discriminate.
  - apply (proj2 (move_refuses_foreign_destination 0 two_documents)).
    intros doc [=].
Defined.

Lemma delete_refuses_archived_witness :
  delete_pages [0; 1]%nat (rotate_pages [mkRotate 0 90] living_things).2
  = (Raise ArchivedEditConflict, (rotate_pages [mkRotate 0 90] living_things).2)
  ∧ perform_destroy 0 (rotate_pages [mkRotate 0 90] living_things).2
    = (Raise ArchivedEditConflict,
       (rotate_pages [mkRotate 0 90] living_things).2).
Proof.
  apply (delete_refuses_archived
           (rotate_pages [mkRotate 0 90] living_things).2 [0; 1]%nat
           (0%nat, mkPage 1 "fish" "deu" 0)).
  - apply (bool_decide_unpack _). by vm_compute.
  - vm_compute. left.
  - exists (mkVersion 0 1 2 "fish cat" "deu"). split; [reflexivity|].
    vm_compute. discriminate.
Defined.

Lemma delete_pages_refuses_all_witness :
  delete_pages [0; 1]%nat living_things
  = (Raise InvariantViolation, living_things).
Proof.
  apply (delete_pages_refuses_all living_things [0; 1]%nat
           (0%nat, mkPage 1 "fish" "deu" 0)).
  - reflexivity.
  - repeat constructor;
      (exists (mkVersion 0 1 2 "fish cat" "deu"); split; reflexivity).
  - vm_compute. discriminate.
Defined.

(** ** What the views do to documents and folders *)

Section adds.
Context (P : Document → Prop).

Local Abbreviation added m := (adds P m (λ _, True)).

Lemma adds_nothing {A} (m : M A) (Q : A → Prop) :
  (∀ s, documents (m s).2 = documents s ∧ folders (m s).2 = folders s
        ∧ ∀ a, (m s).1 = Ok a → Q a) →
  adds P m Q.
Proof.
  intros Hm s. destruct (Hm s) as (Hd & Hf & HQ). split; [|done].
  exists []. by rewrite app_nil_r.
Qed.

Lemma adds_ret {A} (a : A) (Q : A → Prop) : Q a → adds P (ret a) Q.
Proof. intros HQ. apply adds_nothing. intros s. by split_and!; [..|intros ? [= <-]]. Qed.

Lemma adds_raise {A} e (Q : A → Prop) : adds P (raise e) Q.
Proof. apply adds_nothing. by intros s. Qed.

Lemma adds_gets {A} (f : Store → A) : adds P (gets f) (λ a, ∃ s, a = f s).
Proof.
  apply adds_nothing. intros s. split_and!; [done..|].
  intros a [= <-]. by exists s.
Qed.

Lemma adds_lift {A} (r : Result A) : added (lift r).
Proof. apply adds_nothing. by intros s. Qed.

Lemma adds_from_option {A} e (o : option A) : added (from_option e o).
Proof. apply adds_nothing. intros s. by destruct o. Qed.

Lemma adds_modify (f : Store → Store) :
  (∀ s, documents (f s) = documents s ∧ folders (f s) = folders s) →
  added (modify f).
Proof. intros Hf. apply adds_nothing. intros s. by destruct (Hf s). Qed.

Lemma adds_bind {A B} (m : M A) (k : A → M B) (Q : A → Prop) (R : B → Prop) :
  adds P m Q → (∀ a, Q a → adds P (k a) R) → adds P (bind m k) R.
Proof.
  intros Hm Hk s. unfold bind.
  destruct (Hm s) as ((new & Hd & Hnew) & Hf & HQ).
  destruct (m s) as [[a|e] s1]; simpl in *.
  - destruct (Hk a (HQ a eq_refl) s1) as ((new' & Hd' & Hnew') & Hf' & HR).
    split; [|split; [congruence|done]].
    exists (new ++ new'). rewrite Hd', Hd, <-app_assoc.
    split; [done|]. by apply Forall_app.
  - split; [by exists new|]. by split.
Qed.

Lemma adds_weaken {A} (m : M A) (Q R : A → Prop) :
  adds P m Q → (∀ a, Q a → R a) → adds P m R.
Proof.
  intros Hm HQR s. destruct (Hm s) as (Hd & Hf & HQ).
  split; [done|]. split; [done|]. intros a Ha. by apply HQR, HQ.
Qed.

Lemma adds_for_each {A} (xs : list A) (body : A → M unit) :
  (∀ x, x ∈ xs → added (body x)) → added (for_each xs body).
Proof.
  intros Hbody. induction xs as [|x xs IH]; simpl; [by apply adds_ret|].
  eapply adds_bind; [apply Hbody; left|].
  intros _ _. apply IH. intros y Hy. apply Hbody. by right.
Qed.

Lemma adds_Folder_get pk user :
  adds P (Folder_get pk user) (λ folder, folder_user_id folder = user).
Proof.
  unfold Folder_get.
  eapply adds_bind; [apply adds_gets|]. intros o _.
  eapply adds_bind; [apply adds_from_option|]. intros folder _.
  case_bool_decide; [by apply adds_ret|apply adds_raise].
Qed.

Lemma adds_create_document title lang user parent :
  P (mkDocument title lang user parent) →
  added (create_document title lang user parent).
Proof.
  intros HP s. unfold create_document. run. split; [|done].
  exists [mkDocument title lang user parent]. split; [done|].
  by constructor.
Qed.
End adds.

Ltac adds_step :=
  lazymatch goal with
  | |- adds _ (bind _ _) _ => eapply adds_bind; [|intros ? ?]
  | |- adds _ (ret _) _ =>
      first [by apply adds_ret | by apply (adds_ret _ _ (λ _, True))]
  | |- adds _ (raise _) _ => apply adds_raise
  | |- adds _ (gets _) _ => apply adds_gets
  | |- adds _ (lift _) _ => apply adds_lift
  | |- adds _ (from_option _ _) _ => apply adds_from_option
  | |- adds _ (modify _) _ => by apply adds_modify
  | |- adds _ (for_each _ _) _ => apply adds_for_each; intros ? ?
  | |- adds _ (if bool_decide _ then _ else _) _ => case_bool_decide
  | |- adds _ (if ?b then _ else _) _ => destruct b
  end.

Ltac adds_unfold :=
  unfold reuse_text_field, reuse_text_field_multi, insert_pdf_pages,
    remove_pdf_pages, reorder_pdf_pages, rotate_pdf_pages, copy_pages_data,
    reuse_ocr_data;
  unfold collect_text_streams, update_text_field, version_bump, is_archived;
  unfold Page_objects_filter, pages_all,
    pages_count, not_None, Version_get, versions_last, Page_get, Document_get,
    Pdf_open, Pdf_save, copy_page; cbv zeta.

Section adds_views.
Context (P : Document → Prop).

Local Abbreviation added m := (adds P m (λ _, True)).

Lemma adds_seed_payload ps : added (seed_payload ps).
Proof.
  induction ps as [|r ps IH]; simpl; [by apply adds_ret|].
  adds_unfold. repeat adds_step. apply IH.
Qed.

Lemma adds_version_bump_from_pages d ps :
  added (version_bump_from_pages d ps).
Proof.
  unfold version_bump_from_pages. adds_unfold.
  repeat adds_step. apply adds_seed_payload.
Qed.

Lemma adds_perform_destroy instance : added (perform_destroy instance).
Proof. unfold perform_destroy. adds_unfold. repeat adds_step. Qed.

Lemma adds_delete_pages page_ids : added (delete_pages page_ids).
Proof. unfold delete_pages. adds_unfold. repeat adds_step. Qed.

Lemma adds_reorder_pages pages_data : added (reorder_pages pages_data).
Proof. unfold reorder_pages. adds_unfold. repeat adds_step. Qed.

Lemma adds_rotate_pages pages_data : added (rotate_pages pages_data).
Proof. unfold rotate_pages. adds_unfold. repeat adds_step. Qed.

Lemma adds_move_to_document user data : added (move_to_document user data).
Proof. unfold move_to_document. adds_unfold. repeat adds_step. Qed.
End adds_views.

Lemma adds_move_to_folder user data :
  adds (λ d, parent d = folder_dst data ∧ user_id d = user
             ∧ if single_page data then
                 ∃ pk, pk ∈ folder_pages data
                       ∧ title d = "noname-" +:+ pretty pk +:+ ".pdf"
               else title d = "noname.pdf")
    (move_to_folder user data) (λ _, True).
Proof.
  unfold move_to_folder.
  eapply adds_bind; [apply adds_Folder_get|]. intros dst_folder Huser.
  unfold move_to_folder_single_paged, single_paged_body,
    move_to_folder_multi_paged.
  adds_unfold. destruct (single_page data).
  - repeat adds_step; try apply adds_version_bump_from_pages.
    apply adds_create_document. split; [done|]. split; [done|].
    cbv beta in *.
    lazymatch goal with
    | Hps : ∃ t, ?ps = select (folder_pages data) t, Hin : ?page ∈ ?ps |- _ =>
        destruct Hps as [t ->]; apply elem_of_select in Hin as [_ Hin];
        by exists page.1
    end.
  - repeat adds_step; try apply adds_version_bump_from_pages.
    by apply adds_create_document.
Qed.

(** X18: whatever its outcome, no edit changes the folder rows or an
    existing document row.  Only move-to-folder adds document rows: each
    of them lies in the destination folder and belongs to the requesting
    user; its title is noname.pdf, or with [single_page] it is noname-,
    the id of one of the requested pages, and .pdf. *)
Theorem edits_leave_folders (e : Edit) (s : Store) :
  folders (run_edit e s).2 = folders s
  ∧ ∃ new,
      documents (run_edit e s).2 = documents s ++ new
      ∧ match e with
        | MoveToFolder user data =>
            Forall (λ d,
              parent d = folder_dst data ∧ user_id d = user
              ∧ if single_page data then
                  ∃ pk, pk ∈ folder_pages data
                        ∧ title d = "noname-" +:+ pretty pk +:+ ".pdf"
                else title d = "noname.pdf") new
        | _ => new = []
        end.
Proof.
  assert (∀ (m : M unit), adds (λ _, False) m (λ _, True) →
    folders (m s).2 = folders s
    ∧ ∃ new, documents (m s).2 = documents s ++ new ∧ new = []) as Hnone.
  { intros m Hm. destruct (Hm s) as ((new & Hd & Hnew) & Hf & _).
    split; [done|]. exists new. split; [done|].
    destruct new as [|d new]; [done|]. by apply Forall_cons in Hnew as [[] _]. }
  destruct e; simpl.
  - apply Hnone, adds_perform_destroy.
  - apply Hnone, adds_delete_pages.
  - apply Hnone, adds_reorder_pages.
  - apply Hnone, adds_rotate_pages.
  - destruct (adds_move_to_folder user data s) as ((new & Hd & Hnew) & Hf & _).
    split; [done|]. by exists new.
  - apply Hnone, adds_move_to_document.
Qed.

(** ** Moving pages to the front of another document *)

Lemma set_texts_mid (N : list Page) : ∀ (P R : list Page) texts s,
  pages s = P ++ N ++ R →
  for_each (zip (imap (λ i p, ((length P + i)%nat, p)) N) texts)
    (λ rt, modify (set_pages (alter (set_text rt.2) rt.1.1))) s
  = (Ok tt, set_pages (λ _, P ++ zip_text N texts ++ R) s).
Proof.
  induction N as [|p N IH]; intros P R texts s Hs.
  { simpl in Hs |- *. unfold ret. by rewrite <-Hs. }
  destruct texts as [|t texts].
  { simpl in Hs |- *. unfold ret. by rewrite <-Hs. }
  rewrite imap_cons. cbn [zip zip_with for_each fst snd].
  rewrite (bind_Ok _ _ s tt
    (set_pages (alter (set_text t) (length P + 0)%nat) s)) by done.
  specialize (IH (P ++ [set_text t p]) R texts
    (set_pages (alter (set_text t) (length P + 0)%nat) s)).
  rewrite length_app in IH. simpl length in IH.
  rewrite (imap_ext _ (λ i q, ((length P + 1 + i)%nat, q))).
  2:{ intros i q _. simpl. f_equal. lia. }
  rewrite IH.
  - simpl. by rewrite <-app_assoc.
  - simpl. rewrite Hs, alter_app_r. simpl. by rewrite <-app_assoc.
Qed.

Lemma update_text_field_mid v streams s (P N R : list Page) :
  pages s = P ++ N ++ R →
  version_pages v s = imap (λ i p, ((length P + i)%nat, p)) N →
  update_text_field v streams s
  = (Ok tt,
     set_versions
       (alter (set_version_text (String.concat " " (take (length N) streams))) v)
       (set_pages (λ _, P ++ zip_text N streams ++ R) s)).
Proof.
  intros Hs Hv. unfold update_text_field, pages_all.
  unfold bind at 1, gets. rewrite Hv.
  unfold bind. rewrite (set_texts_mid N P R streams s Hs).
  unfold modify. by rewrite length_imap.
Qed.

Lemma current_version_other s s' d r :
  versions s' = versions s ++ [r] → document r ≠ d →
  current_version d s' = current_version d s.
Proof.
  intros Hvs Hd. unfold current_version, versions_of.
  rewrite Hvs, imap_app, filter_app. simpl.
  rewrite filter_cons_False by done. by rewrite filter_nil, app_nil_r.
Qed.

Lemma trailing_range (k m : Z) :
  ((λ pos, (pos, pos - 0 - k)) <$> range (0 + 1 + k) (m + k + 1)).*2
  = range 1 (m + 1).
Proof.
  unfold range. replace (m + k + 1 - (0 + 1 + k)) with (m + 1 - 1) by lia.
  apply list_eq. intros i. rewrite !list_lookup_fmap.
  destruct (decide (Z.of_nat i < m + 1 - 1)) as [Hi|Hi].
  - rewrite !lookup_seqZ_lt by lia. simpl. f_equal. lia.
  - by rewrite !lookup_seqZ_ge by lia.
Qed.

Lemma placeholders_length lang v n :
  0 ≤ n → length (placeholders lang v n) = Z.to_nat n.
Proof.
  intros Hn. unfold placeholders, range. rewrite length_fmap, length_seqZ. lia.
Qed.

Lemma moved_store_facts s row rowd n1 texts1 pdf1 n2 texts2 pdf2 pf :
  wf s → document row ≠ document rowd →
  length texts1 = Z.to_nat n1 → 0 ≤ n1 →
  length texts2 = Z.to_nat n2 → 0 ≤ n2 →
  let s' := moved_store row rowd n1 texts1 pdf1 n2 texts2 pdf2 pf s in
  let v1 := length (versions s) in
  let v2 := S (length (versions s)) in
  current_version (document row) s' = Some v1
  ∧ versions s' !! v1
    = Some (mkVersion (document row) (version_number row + 1) n1
              (String.concat " " texts1) (version_lang row))
  ∧ files s' !! v1 = Some pdf1
  ∧ numbers (version_pages v1 s') = range 1 (n1 + 1)
  ∧ page_texts v1 s' = texts1
  ∧ current_version (document rowd) s' = Some v2
  ∧ versions s' !! v2
    = Some (mkVersion (document rowd) (version_number rowd + 1) n2
              (String.concat " " texts2) (version_lang rowd))
  ∧ files s' !! v2 = Some pdf2
  ∧ numbers (version_pages v2 s') = range 1 (n2 + 1)
  ∧ page_texts v2 s' = texts2.
Proof.
  intros Hwf Hdocs Hlen1 Hn1 Hlen2 Hn2 s' v1 v2.
  set (N1 := zip_text (placeholders (version_lang row) v1 n1) texts1).
  set (N2 := zip_text (placeholders (version_lang rowd) v2 n2) texts2).
  set (t := set_pages (λ ps, ps ++ N1) s).
  assert (Forall (λ p, document_version p = v1) N1) as HN1
    by apply zip_text_version, placeholders_version.
  assert (Forall (λ p, document_version p = v2) N2) as HN2
    by apply zip_text_version, placeholders_version.
  assert (version_pages v1 s'
    = imap (λ i p, ((length (pages s) + i)%nat, p)) N1) as Hvp1.
  { rewrite (version_pages_app v1 t s' N2).
    - apply (version_pages_new v1 s t); [done|by apply wf_not_new|done|].
      unfold N1. rewrite zip_text_numbers, placeholders_numbers.
      apply StronglySorted_seqZ.
    - unfold s', moved_store, t. simpl. by rewrite <-app_assoc.
    - eapply Forall_impl; [exact HN2|]. simpl. intros p ->. unfold v1, v2. lia. }
  assert (version_pages v2 s'
    = imap (λ i p, ((length (pages t) + i)%nat, p)) N2) as Hvp2.
  { apply (version_pages_new v2 t s').
    - unfold s', moved_store, t. simpl. by rewrite <-app_assoc.
    - unfold t. simpl. apply Forall_app. split.
      + eapply Forall_impl; [exact Hwf|]. simpl. intros p Hp. unfold v2. lia.
      + eapply Forall_impl; [exact HN1|]. simpl. intros p ->. unfold v1, v2. lia.
    - done.
    - unfold N2. rewrite zip_text_numbers, placeholders_numbers.
      apply StronglySorted_seqZ. }
  split_and!.
  - unfold current_version, versions_of, s', moved_store. simpl.
    rewrite imap_app, filter_app. simpl.
    rewrite filter_cons_True by done.
    rewrite filter_cons_False by (simpl; congruence).
    rewrite filter_nil, last_snoc. simpl. f_equal. lia.
  - unfold s', moved_store. simpl.
    by rewrite lookup_app_r, Nat.sub_diag by (unfold v1; lia).
  - unfold s', moved_store. simpl.
    rewrite lookup_insert_ne by (unfold v1; lia).
    by rewrite lookup_insert_eq.
  - rewrite Hvp1, numbers_imap. unfold N1.
    by rewrite zip_text_numbers, placeholders_numbers.
  - unfold page_texts at 1. rewrite Hvp1, texts_imap.
    apply zip_text_texts. by rewrite placeholders_length.
  - unfold current_version, versions_of, s', moved_store. simpl.
    rewrite imap_app, filter_app. simpl.
    destruct (decide (document row = document rowd)); [done|].
    rewrite filter_cons_False by done.
    rewrite filter_cons_True by done.
    rewrite filter_nil, last_snoc. simpl. f_equal. lia.
  - unfold s', moved_store. simpl.
    rewrite lookup_app_r by (unfold v2; lia).
    by replace (v2 - length (versions s))%nat with 1%nat by (unfold v2; lia).
  - unfold s', moved_store. simpl. by rewrite lookup_insert_eq.
  - rewrite Hvp2, numbers_imap. unfold N2.
    by rewrite zip_text_numbers, placeholders_numbers.
  - unfold page_texts at 1. rewrite Hvp2, texts_imap.
    apply zip_text_texts. by rewrite placeholders_length.
Qed.

Lemma StronglySorted_lt_NoDup (l : list Z) : StronglySorted Z.lt l → NoDup l.
Proof.
  induction 1 as [|x l _ IH Hx]; constructor; [|done].
  intros Hin. rewrite Forall_forall in Hx. specialize (Hx x Hin). lia.
Qed.

Lemma move_to_document_front_run user ids dst s v row pdf vd rowd pdfd doc :
  wf s → version_ok s v row pdf → version_ok s vd rowd pdfd →
  document rowd = dst → document row ≠ dst →
  documents s !! dst = Some doc → user_id doc = user →
  select ids s ≠ [] →
  Forall (λ r, document_version r.2 = v) (select ids s) →
  Forall (λ i, (i < length (pages s))%nat) ids →
  let moved := select ids s in
  ∃ (moved_pdf : Pdf) pf,
    Forall2 (λ r page, pdf !! Z.to_nat (number r.2 - 1) = Some page)
      moved moved_pdf
    ∧ StronglySorted Z.lt (numbers moved)
    ∧ Forall (λ d, 1 ≤ d ≤ page_count row) (numbers moved)
    ∧ move_to_document user (mkMoveToDocument ids dst 0) s
      = (Ok tt,
         moved_store row rowd
           (page_count row - len moved)
           (survivors (page_texts v s) (numbers moved))
           (survivors pdf (numbers moved))
           (page_count rowd + len moved)
           (((λ r, text r.2) <$> moved) ++ page_texts vd s)
           (moved_pdf ++ pdfd)
           pf s).
Proof.
  intros Hwf Hok Hokd Hdst Hne Hdoc Huser Hsel Hv Hids moved.
  pose proof Hok as [Hrow Hcur Hnum Hfile Hpayload].
  pose proof Hokd as [Hrowd Hcurd Hnumd Hfiled Hpayloadd].
  rewrite Hdst in Hcurd.
  assert (0 ≤ page_count row) as Hn0 by (rewrite <-Hpayload; unfold len; lia).
  assert (0 ≤ page_count rowd) as Hm0 by (rewrite <-Hpayloadd; unfold len; lia).
  destruct (numbers_select s ids v (page_count row) Hnum Hv)
    as [Hsorted Hrange].
  fold moved in Hsorted, Hrange.
  assert (len (numbers moved) = len moved) as Hk
    by (unfold len, numbers; by rewrite length_fmap).
  assert (Forall (λ r, r ∈ version_pages v s) moved) as Hmembers.
  { apply Forall_forall. intros r Hr. apply elem_of_version_pages.
    pose proof Hr as [Hp _]%elem_of_select. split; [done|].
    rewrite Forall_forall in Hv. by apply Hv. }
  destruct (texts_of_members s v (page_count row) moved Hnum Hmembers)
    as [_ Hmoved_texts].
  assert (len moved ≤ page_count row) as Hkn.
  { assert (len (range 1 (page_count row + 1)) = page_count row) as <-
      by (rewrite length_range; lia).
    rewrite <-Hk. unfold len.
    apply Nat2Z.inj_le, submseteq_length, NoDup_submseteq.
    - by apply StronglySorted_lt_NoDup.
    - intros d Hd. rewrite Forall_forall in Hrange. specialize (Hrange d Hd).
      unfold range. apply elem_of_seqZ. lia. }
  destruct (pages_p_all pdf (numbers moved)) as (moved_pdf & Hat & Hp).
  { by rewrite Hpayload. }
  apply Forall2_fmap_l in Hat.
  set (k := len moved) in *.
  assert (0 ≤ k) as Hk0 by (unfold k, len; lia).
  set (n := page_count row) in *. set (m := page_count rowd) in *.
  set (v1 := length (versions s)). set (v2 := S (length (versions s))).
  set (ds := numbers moved) in *.
  set (N1 := placeholders (version_lang row) v1 (n - k)).
  set (N2 := placeholders (version_lang rowd) v2 (m + k)).
  set (texts1 := survivors (page_texts v s) ds).
  set (texts2 := ((λ r, text r.2) <$> moved) ++ page_texts vd s).
  assert (v < v1)%nat as Hlt by (by eapply lookup_lt_Some).
  assert (vd < v1)%nat as Hltd by (by eapply lookup_lt_Some).
  assert (v ≠ vd) as Hvvd.
  { intros ->. rewrite Hrow in Hrowd. injection Hrowd as ->. done. }
  set (s1 := bumped (document row) row (n - k) s).
  set (s2 := bumped dst rowd (m + k) s1).
  set (s3 := set_files (λ fs, <[v1 := survivors pdf ds]> fs) s2).
  destruct (reuse_ocr_data_run v v1
              (get_assigns_after_delete n ds) s3) as [pf1 Hpf1].
  set (s4 := set_page_files (λ _, pf1) s3).
  set (s5 := set_versions
               (alter (set_version_text (String.concat " " texts1)) v1)
               (set_pages (λ _, pages s ++ zip_text N1 texts1 ++ N2) s4)).
  set (s6 := set_files (λ fs, <[v2 := moved_pdf ++ pdfd]> fs) s5).
  destruct (for_each_copy_run
              ((λ p : nat * Page, (number p.2, number p.2 + 0)) <$> moved)
              (λ item : Z * Z, (vd, item.1))
              (λ item : Z * Z, (v2, item.2)) s6) as [pf2 Hpf2].
  set (s7 := set_page_files (λ _, pf2) s6).
  exists moved_pdf, pf2. split; [done|]. split; [done|]. split; [done|].
  assert (len texts1 = n - k) as Hlen1.
  { unfold texts1, survivors. change 1 with (0 + 1).
    rewrite keep_from_length; [|done|].
    - rewrite (version_ok_texts s v row pdf) by done. fold n. lia.
    - rewrite (version_ok_texts s v row pdf) by done.
      eapply Forall_impl; [exact Hrange|]. simpl. intros; lia. }
  assert (∀ t X, pages t = pages s ++ X →
            Forall (λ p, (v1 ≤ document_version p)%nat) X →
            ∀ w, (w < v1)%nat → version_pages w t = version_pages w s) as Hold.
  { intros t X Ht HX w Hw. apply (version_pages_app w s t X Ht).
    eapply Forall_impl; [exact HX|]. simpl. intros p ?. lia. }
  assert (∀ t X, pages t = pages s ++ X → select ids t = moved) as Hselect.
  { intros t X Ht. by apply (select_app ids s t X). }
  assert (Forall (λ p, (v1 ≤ document_version p)%nat) N1) as HN1.
  { eapply Forall_impl; [apply placeholders_version|]. by intros p ->. }
  assert (Forall (λ p, (v1 ≤ document_version p)%nat) N2) as HN2.
  { eapply Forall_impl; [apply placeholders_version|]. intros p ->.
    unfold v1, v2. lia. }
  assert (Forall (λ p, (v1 ≤ document_version p)%nat) (zip_text N1 texts1))
    as HN1'.
  { eapply Forall_impl; [apply zip_text_version, placeholders_version|].
    by intros p ->. }
  (* the run *)
  unfold move_to_document. cbn [move_dst move_pages position].
  rewrite (bind_Ok _ _ _ _ _ (Document_get_run s dst user doc Hdoc Huser)).
  unfold Page_objects_filter. unfold bind at 1, gets at 1.
  assert (∃ first_page, first (select ids s) = Some first_page
                        ∧ document_version first_page.2 = v)
    as (first_page & Hhead & Hfirst).
  { destruct (select ids s) as [|first_page rest]; [done|].
    apply Forall_cons in Hv as [Hfirst _]. by exists first_page. }
  rewrite Hhead.
  unfold not_None at 1, from_option at 1. unfold bind at 1, ret at 1.
  rewrite Hfirst.
  unfold versions_last at 1. unfold bind at 1, gets at 1.
  change (fst <$> last (versions_of dst s)) with (current_version dst s).
  rewrite Hcurd.
  unfold Version_get at 1. unfold bind at 1. unfold bind at 1, gets at 1.
  rewrite Hrow. unfold from_option at 1, ret at 1.
  unfold pages_count at 1. unfold bind at 1, gets at 1.
  rewrite (pages_count_range s v n) by done.
  unfold bind at 1, gets at 1. fold moved. fold k.
  rewrite (bind_Ok _ _ _ _ _
    (version_bump_run (document row) (Some (n - k)) s v row Hcur Hrow)).
  simpl default. fold s1. fold v1.
  unfold not_None at 1, from_option at 1. unfold bind at 1, ret at 1.
  assert (pages s1 = pages s ++ N1) as Hp1 by done.
  assert (length (versions s1) = v2) as Hv2
    by (unfold s1, bumped; simpl; by rewrite length_app, Nat.add_1_r).
  assert (pages s2 = pages s ++ (N1 ++ N2)) as Hp2.
  { assert (pages s2 = pages s1 ++ placeholders (version_lang rowd)
                                       (length (versions s1)) (m + k)) as ->
      by done.
    by rewrite Hv2, Hp1, <-app_assoc. }
  rewrite (bind_Ok _ _ s1 m s1).
  2:{ unfold pages_count, gets. rewrite (Hold s1 N1 Hp1 HN1 vd Hltd).
      by rewrite (pages_count_range s vd m). }
  unfold bind at 1, gets at 1. rewrite (Hselect s1 N1 Hp1). fold k.
  rewrite (bind_Ok _ _ s1 v2 s2).
  2:{ rewrite (version_bump_run dst (Some (m + k)) s1 vd rowd).
      - by rewrite Hv2.
      - rewrite (current_version_other s s1 dst
                   (mkVersion (document row) (version_number row + 1) (n - k)
                      "" (version_lang row))); done.
      - unfold s1, bumped. simpl. by apply lookup_app_l_Some. }
  unfold bind at 1, gets at 1. rewrite (Hselect s2 _ Hp2). fold ds.
  rewrite (bind_Ok _ _ s2 tt s3).
  2:{ apply remove_pdf_pages_run; [done|done|by rewrite Hpayload]. }
  rewrite (bind_Ok _ _ _ _ _ Hpf1). fold s4.
  rewrite (bind_Ok _ _ s4 tt s5).
  2:{ unfold reuse_text_field.
      rewrite (bind_Ok _ _ s4 texts1 s4).
      2:{ rewrite (collect_text_streams_run v s4 n).
          - unfold page_texts at 1.
            rewrite (Hold s4 (N1 ++ N2) Hp2) by (by apply Forall_app || done).
            fold (page_texts v s).
            rewrite get_assigns_after_delete_old.
            rewrite <-(version_ok_texts s v row pdf Hok Hn0) at 1.
            by rewrite text_at_survivors.
          - by rewrite (Hold s4 (N1 ++ N2) Hp2) by (by apply Forall_app || done).
          - rewrite get_assigns_after_delete_old.
            apply Forall_forall. intros i [_ Hi]%list_elem_of_filter.
            unfold range in Hi. apply elem_of_seqZ in Hi. lia. }
      rewrite (update_text_field_mid v1 texts1 s4 (pages s) N1 N2 Hp2).
      - rewrite take_ge; [done|].
        unfold N1. rewrite placeholders_length by lia.
        unfold len in Hlen1. lia.
      - rewrite (version_pages_app v1 s1 s4 N2).
        + apply (version_pages_new v1 s s1); [done|by apply wf_not_new| |].
          * apply placeholders_version.
          * unfold N1. rewrite placeholders_numbers. apply StronglySorted_seqZ.
        + assert (pages s4 = pages s1 ++ placeholders (version_lang rowd)
                                         (length (versions s1)) (m + k)) as ->
            by done.
          by rewrite Hv2.
        + eapply Forall_impl; [apply placeholders_version|].
          simpl. intros p ->. unfold v1, v2. lia. }
  assert (pages s5 = pages s ++ (zip_text N1 texts1 ++ N2)) as Hp5 by done.
  assert (Forall (λ p, (v1 ≤ document_version p)%nat)
            (zip_text N1 texts1 ++ N2)) as HN5 by (by apply Forall_app).
  unfold bind at 1, gets at 1. rewrite (Hselect s5 _ Hp5). fold ds.
  rewrite (bind_Ok _ _ s5 tt s6).
  2:{ unfold insert_pdf_pages.
      rewrite (bind_Ok _ _ s5 pdf s5).
      2:{ unfold Pdf_open. run. rewrite lookup_insert_ne by lia.
          by rewrite Hfile. }
      rewrite (bind_Ok _ _ s5 pdfd s5).
      2:{ unfold Pdf_open. run. rewrite lookup_insert_ne by lia.
          by rewrite Hfiled. }
      rewrite (bind_Ok _ _ s5 (moved_pdf ++ pdfd) s5); [done|].
      unfold lift.
      by rewrite (insert_loop_inside pdf pdfd moved_pdf 0 ds)
        by (done || unfold len; lia). }
  unfold bind at 1, gets at 1. rewrite (Hselect s6 _ Hp5).
  rewrite (bind_Ok _ _ s6 tt s7) by exact Hpf2.
  assert (pages s7 = pages s ++ (zip_text N1 texts1 ++ N2)) as Hp7 by done.
  set (t := set_pages (λ _, pages s ++ zip_text N1 texts1) s).
  assert (version_pages v2 s7
          = imap (λ i p, ((length (pages t) + i)%nat, p)) N2) as Hvp2.
  { apply (version_pages_new v2 t s7).
    - unfold t. simpl. by rewrite <-app_assoc.
    - unfold t. simpl. apply Forall_app. split.
      + eapply Forall_impl; [exact Hwf|]. simpl. intros p Hp'. unfold v2. lia.
      + eapply Forall_impl; [apply zip_text_version, placeholders_version|].
        simpl. intros p ->. unfold v1, v2. lia.
    - apply placeholders_version.
    - unfold N2. rewrite placeholders_numbers. apply StronglySorted_seqZ. }
  assert (length ds = length moved) as Hlenk
    by (unfold ds, numbers; by rewrite length_fmap).
  unfold reuse_text_field_multi. cbv zeta.
  change (range 1 (0 + 1)) with (@nil Z). rewrite fmap_nil.
  rewrite bool_decide_eq_false_2 by (unfold len; simpl; lia).
  unfold bind at 1, ret at 1.
  unfold Page_objects_filter. unfold bind at 1, gets at 1.
  rewrite (Hselect s7 _ Hp7). fold k.
  change ((λ r : nat * Page, number r.2) <$> moved) with ds.
  rewrite snd_zip.
  2:{ unfold range. rewrite length_seqZ. unfold k, len. lia. }
  rewrite (bind_Ok _ _ s7 ((λ r, text r.2) <$> moved) s7).
  2:{ rewrite (collect_text_streams_run v s7 n).
      - unfold page_texts at 1. rewrite (Hold s7 _ Hp7 HN5 v Hlt).
        fold (page_texts v s). by rewrite Hmoved_texts.
      - by rewrite (Hold s7 _ Hp7 HN5 v Hlt).
      - done. }
  rewrite (bind_Ok _ _ s7 (m + k) s7).
  2:{ unfold pages_count, gets. rewrite Hvp2. unfold len.
      rewrite length_imap. unfold N2. rewrite placeholders_length by lia.
      f_equal. f_equal. lia. }
  rewrite (bind_Ok _ _ s7 (page_texts vd s) s7).
  2:{ rewrite trailing_range.
      rewrite (collect_text_streams_run vd s7 m).
      - unfold page_texts at 1. rewrite (Hold s7 _ Hp7 HN5 vd Hltd).
        fold (page_texts vd s).
        pose proof (version_ok_texts s vd rowd pdfd Hokd Hm0) as Hlend.
        fold m in Hlend. rewrite <-Hlend. by rewrite text_at_range.
      - by rewrite (Hold s7 _ Hp7 HN5 vd Hltd).
      - apply Forall_forall. intros i Hi. unfold range in Hi.
        apply elem_of_seqZ in Hi. lia. }
  rewrite app_nil_l. fold texts2.
  assert (length texts2 = length N2) as Hlen2.
  { unfold texts2, N2. rewrite length_app, length_fmap.
    rewrite placeholders_length by lia.
    pose proof (version_ok_texts s vd rowd pdfd Hokd Hm0) as Hlend.
    fold m in Hlend. unfold k, len in *. lia. }
  rewrite (update_text_field_run v2 texts2 s7 (pages t) N2);
    [|by rewrite Hp7; unfold t; simpl; rewrite <-app_assoc|done].
  rewrite take_ge by lia.
  unfold moved_store. f_equal.
  assert (versions s7
          = alter (set_version_text (String.concat " " texts1)) v1
              (versions s ++
                 [mkVersion (document row) (version_number row + 1) (n - k)
                    "" (version_lang row);
                  mkVersion dst (version_number rowd + 1) (m + k)
                    "" (version_lang rowd)])) as Hvs.
  { unfold s7, s6, s5, s4, s3, s2, s1, bumped. simpl.
    by rewrite <-app_assoc. }
  change (set_versions _ _) with
    (mkStore (documents s) (folders s)
       (alter (set_version_text (String.concat " " texts2)) v2 (versions s7))
       (pages t ++ zip_text N2 texts2)
       (<[v2 := moved_pdf ++ pdfd]> (<[v1 := survivors pdf ds]> (files s)))
       pf2).
  f_equal.
  - rewrite Hvs.
    rewrite alter_app_r_alt by (unfold v1; lia).
    rewrite alter_app_r_alt by (unfold v1, v2; lia).
    replace (v1 - length (versions s))%nat with 0%nat by (unfold v1; lia).
    replace (v2 - length (versions s))%nat with 1%nat by (unfold v2; lia).
    simpl. by rewrite Hdst.
  - unfold t. simpl. by rewrite <-app_assoc.
Qed.

(** X19: moving pages of the current version of one document to
    position 0 of another document of the requesting user, so that the
    source keeps a page, succeeds.  The source gets a new current version
    without the moved pages (payload and texts of the survivors, numbered
    from 1).  The destination gets a new current version whose payload and
    page texts are those of the moved pages, in page order, followed by
    those of its old current version; its page count is the sum, its pages
    are numbered from 1 and its text is the page texts joined by a space. *)
Theorem move_to_document_at_front (user : nat) (ids : list nat) (dst : nat)
    (s : Store) (v : nat) (row : DocumentVersion) (pdf : Pdf)
    (vd : nat) (rowd : DocumentVersion) (pdfd : Pdf) (doc : Document) :
  wf s → version_ok s v row pdf → version_ok s vd rowd pdfd →
  document rowd = dst → document row ≠ dst →
  documents s !! dst = Some doc → user_id doc = user →
  select ids s ≠ [] →
  Forall (λ r, document_version r.2 = v) (select ids s) →
  Forall (λ i, (i < length (pages s))%nat) ids →
  len (select ids s) < page_count row →
  let moved := select ids s in
  let v1 := length (versions s) in
  let v2 := S (length (versions s)) in
  ∃ s' (moved_pdf : Pdf),
    move_to_document user (mkMoveToDocument ids dst 0) s = (Ok tt, s')
    ∧ Forall2 (λ r page, pdf !! Z.to_nat (number r.2 - 1) = Some page)
        moved moved_pdf
    ∧ current_version (document row) s' = Some v1
    ∧ page_count <$> versions s' !! v1 = Some (page_count row - len moved)
    ∧ files s' !! v1 = Some (survivors pdf (numbers moved))
    ∧ numbers (version_pages v1 s')
      = range 1 (page_count row - len moved + 1)
    ∧ page_texts v1 s' = survivors (page_texts v s) (numbers moved)
    ∧ current_version dst s' = Some v2
    ∧ page_count <$> versions s' !! v2 = Some (page_count rowd + len moved)
    ∧ files s' !! v2 = Some (moved_pdf ++ pdfd)
    ∧ numbers (version_pages v2 s')
      = range 1 (page_count rowd + len moved + 1)
    ∧ page_texts v2 s' = ((λ r, text r.2) <$> moved) ++ page_texts vd s
    ∧ version_text <$> versions s' !! v2
      = Some (String.concat " " (page_texts v2 s')).
Proof.
  intros Hwf Hok Hokd Hdst Hne Hdoc Huser Hsel Hv Hids Hlt moved v1 v2.
  subst moved v1 v2.
  destruct (move_to_document_front_run user ids dst s v row pdf vd rowd pdfd
              doc Hwf Hok Hokd Hdst Hne Hdoc Huser Hsel Hv Hids)
    as (moved_pdf & pf & Hat & Hsorted & Hrange & Hrun).
  assert (0 ≤ page_count row) as Hn0.
  { destruct Hok as [_ _ _ _ <-]. unfold len. lia. }
  assert (0 ≤ page_count rowd) as Hm0.
  { destruct Hokd as [_ _ _ _ <-]. unfold len. lia. }
  pose proof (version_ok_texts s v row pdf Hok Hn0) as Hlen.
  pose proof (version_ok_texts s vd rowd pdfd Hokd Hm0) as Hlend.
  destruct (moved_store_facts s row rowd
              (page_count row - len (select ids s))
              (survivors (page_texts v s) (numbers (select ids s)))
              (survivors pdf (numbers (select ids s)))
              (page_count rowd + len (select ids s))
              (((λ r, text r.2) <$> select ids s) ++ page_texts vd s)
              (moved_pdf ++ pdfd) pf Hwf)
    as (Hcur1 & Hrow1 & Hfile1 & Hnum1 & Htexts1
        & Hcur2 & Hrow2 & Hfile2 & Hnum2 & Htexts2).
  { congruence. }
  { assert (len (survivors (page_texts v s) (numbers (select ids s)))
            = page_count row - len (select ids s)) as Hs.
    { unfold survivors. change 1 with (0 + 1).
      rewrite keep_from_length; [|done|].
      - rewrite Hlen. unfold len, numbers. rewrite length_fmap. lia.
      - rewrite Hlen. eapply Forall_impl; [exact Hrange|]. simpl. intros; lia. }
    unfold len in *. lia. }
  { lia. }
  { rewrite length_app, length_fmap. unfold len in *. lia. }
  { unfold len. lia. }
  eexists _, moved_pdf. split; [exact Hrun|]. split; [exact Hat|].
  split; [exact Hcur1|]. split; [by rewrite Hrow1|]. split; [exact Hfile1|].
  split; [exact Hnum1|]. split; [exact Htexts1|].
  split; [by rewrite <-Hdst|]. split; [by rewrite Hrow2|].
  split; [exact Hfile2|]. split; [exact Hnum2|]. split; [exact Htexts2|].
  by rewrite Hrow2, Htexts2.
Qed.

Lemma move_to_document_at_front_witness :
  ∃ s' (moved_pdf : Pdf),
    move_to_document 0 (mkMoveToDocument [0; 1]%nat 1 0) two_documents
    = (Ok tt, s')
    ∧ moved_pdf = [mkPdfPage 10 0; mkPdfPage 11 0]
    ∧ current_version 0 s' = Some 2%nat
    ∧ page_count <$> versions s' !! 2%nat = Some 1
    ∧ files s' !! 2%nat = Some [mkPdfPage 12 0]
    ∧ numbers (version_pages 2 s') = [1]
    ∧ page_texts 2 s' = ["monkey"]
    ∧ current_version 1 s' = Some 3%nat
    ∧ page_count <$> versions s' !! 3%nat = Some 5
    ∧ files s' !! 3%nat
      = Some (moved_pdf
              ++ [mkPdfPage 20 0; mkPdfPage 21 0; mkPdfPage 22 0])
    ∧ numbers (version_pages 3 s') = [1; 2; 3; 4; 5]
    ∧ page_texts 3 s' = ["cat"; "dog"; "flower"; "tree"; "plant"]
    ∧ version_text <$> versions s' !! 3%nat
      = Some "cat dog flower tree plant".
Proof.
  destruct (move_to_document_at_front 0 [0; 1]%nat 1 two_documents
    0 (mkVersion 0 1 3 "cat dog monkey" "deu")
    [mkPdfPage 10 0; mkPdfPage 11 0; mkPdfPage 12 0]
    1 (mkVersion 1 1 3 "flower tree plant" "deu")
    [mkPdfPage 20 0; mkPdfPage 21 0; mkPdfPage 22 0]
    (mkDocument "destination.pdf" "deu" 0 0))
    as (s' & moved_pdf & Hrun & Hat & Hcur1 & Hcount1 & Hfile1 & Hnum1
        & Htexts1 & Hcur2 & Hcount2 & Hfile2 & Hnum2 & Htexts2 & Htext2).
  - apply (bool_decide_unpack _). by vm_compute.
  - split; reflexivity.
  - split; reflexivity.
  - reflexivity.
  - discriminate.
  - reflexivity.
  - reflexivity.
  - discriminate.
  - repeat constructor.
  - repeat constructor; vm_compute; lia.
  - reflexivity.
  - exists s', moved_pdf.
    split; [exact Hrun|]. split.
    { apply Forall2_cons_inv_l in Hat as (p1 & l1 & [= <-] & Hat & ->).
      apply Forall2_cons_inv_l in Hat as (p2 & l2 & [= <-] & Hat & ->).
      by apply Forall2_nil_inv_l in Hat as ->. }
    split; [exact Hcur1|]. split; [exact Hcount1|]. split; [exact Hfile1|].
    split; [exact Hnum1|]. split; [exact Htexts1|]. split; [exact Hcur2|].
    split; [exact Hcount2|]. split; [exact Hfile2|]. split; [exact Hnum2|].
    split; [exact Htexts2|]. rewrite Htexts2 in Htext2. exact Htext2.
Defined.

(** ** What [PageView.retrieve] answers *)


(** ** Task names and channel data *)

Lemma chars_app s1 s2 : chars (s1 +:+ s2) = chars s1 ++ chars s2.
Proof. induction s1 as [|c s1 IH]; [done|]. simpl. by rewrite IH. Qed.

Lemma split_not_nil sep s : task.split sep s ≠ [].
Proof.
  destruct s as [|c s]; [done|]. simpl.
  destruct (Ascii.eqb c sep); [done|]. by destruct (task.split sep s).
Qed.

Lemma join_cons sep part parts :
  parts ≠ [] →
  join sep (part :: parts) = part +:+ String sep (join sep parts).
Proof. by destruct parts. Qed.

Lemma join_split sep s : join sep (task.split sep s) = s.
Proof.
  induction s as [|c s IH]; [done|]. simpl.
  destruct (Ascii.eqb_spec c sep) as [->|Hne].
  - rewrite join_cons by apply split_not_nil. simpl. by rewrite IH.
  - pose proof (split_not_nil sep s) as Hnil.
    destruct (task.split sep s) as [|part parts]; [done|].
    destruct parts as [|part' parts].
    + unfold join in *. simpl in *. by rewrite IH.
    + rewrite join_cons by done. rewrite join_cons in IH by done.
      by rewrite <-IH.
Qed.

Lemma split_parts sep s : Forall (λ part, sep ∉ chars part) (task.split sep s).
Proof.
  induction s as [|c s IH]; simpl.
  - constructor; [|done]. apply not_elem_of_nil.
  - destruct (Ascii.eqb_spec c sep) as [->|Hne].
    + constructor; [apply not_elem_of_nil|done].
    + destruct (task.split sep s) as [|part parts].
      * constructor; [|done]. simpl. rewrite not_elem_of_cons.
        split; [done|apply not_elem_of_nil].
      * apply Forall_cons in IH as [Hpart Hparts]. constructor; [|done].
        simpl. rewrite not_elem_of_cons. by split.
Qed.

Lemma append_assoc (s1 s2 s3 : string) :
  (s1 +:+ s2) +:+ s3 = s1 +:+ s2 +:+ s3.
Proof.
  induction s1 as [|c s1 IH]; [done|].
  change (String c ((s1 +:+ s2) +:+ s3) = String c (s1 +:+ s2 +:+ s3)).
  by f_equal.
Qed.

Lemma join_snoc sep parts part :
  parts ≠ [] →
  join sep (parts ++ [part]) = join sep parts +:+ String sep part.
Proof.
  induction parts as [|p parts IH]; [done|]. intros _.
  destruct parts as [|p' parts]; [done|].
  rewrite <-app_comm_cons, join_cons by done.
  rewrite IH by done. rewrite (join_cons sep p (p' :: parts)) by done.
  by rewrite append_assoc.
Qed.

(** The last part of a dotted name. *)
Lemma split_last (s : string) :
  ∃ last_part,
    task.item_last (task.split "." s) = task.Returns last_part
    ∧ ("."%char ∉ chars last_part)
    ∧ (s = last_part ∨ ∃ prefix, s = prefix +:+ "." +:+ last_part).
Proof.
  pose proof (split_not_nil "." s) as Hnil.
  pose proof (split_parts "." s) as Hparts.
  pose proof (join_split "." s) as Hjoin.
  destruct (task.split "." s) as [|p parts] using rev_ind; [done|].
  clear IHparts. exists p. unfold task.item_last. rewrite last_snoc.
  split; [done|]. destruct (proj1 (Forall_app _ _ _) Hparts) as [_ Hp].
  apply Forall_cons in Hp as [Hp _]. split; [done|].
  destruct parts as [|q parts]; [left; symmetry; exact Hjoin|]. right.
  rewrite join_snoc in Hjoin by done. by eexists.
Qed.

Lemma chars_replace_empty old s :
  chars (task.replace old "" s) = filter (λ c, c ≠ old) (chars s).
Proof.
  induction s as [|c s IH]; [done|]. simpl.
  destruct (Ascii.eqb_spec c old) as [->|Hne].
  - rewrite filter_cons_False by (by intros ?). exact IH.
  - rewrite filter_cons_True by done. simpl. by rewrite IH.
Qed.

Lemma replace_empty_absent old s : old ∉ chars (task.replace old "" s).
Proof.
  rewrite chars_replace_empty. by intros [Hne _]%list_elem_of_filter.
Qed.

Lemma replace_empty_keeps_absent old c s :
  c ∉ chars s → c ∉ chars (task.replace old "" s).
Proof.
  rewrite chars_replace_empty. by intros Hc [_ Hin]%list_elem_of_filter.
Qed.

(** X21: the short name of a task, which is also its channel group
    name, is the part of its name after the last dot: it contains no dot,
    and the name is the short name itself or ends with a dot followed by
    it.  For a task whose name is [None] the property raises
    [AttributeError]. *)
Theorem short_name_is_last_part (self : task.Task) :
  match task.name self with
  | None => task.short_name self = task.Raises task.AttributeError
  | Some full =>
      ∃ short,
        task.short_name self = task.Returns short
        ∧ task.channel_group_name self = task.Returns short
        ∧ task.full_name self = Some full
        ∧ ("."%char ∉ chars short)
        ∧ (full = short ∨ ∃ prefix, full = prefix +:+ "." +:+ short)
  end.
Proof.
  unfold task.channel_group_name, task.full_name, task.short_name.
  destruct (task.name self) as [full|]; [|done].
  destruct (split_last full) as (short & Hlast & Hdot & Hfull).
  exists short. by rewrite Hlast.
Qed.

Lemma dict2channel_data_run (task_dict : task.Dict)
    (orig_type orig_task_name group : string) :
  task_dict !! "type" = Some (task.Str orig_type) →
  task_dict !! "task_name" = Some (task.Str orig_task_name) →
  task.item_last (task.split "." orig_task_name) = task.Returns group →
  task.dict2channel_data task_dict
  = (task.Returns
       (group,
        delete "task_name" (delete "type" task_dict)
        ∪ {[ "type" := task.Str (task.replace "_" "" group +:+ "."
                                 +:+ task.replace "-" "" orig_type) ]}),
     delete "task_name" (delete "type" task_dict)).
Proof.
  intros Htype Hname Hlast. unfold task.dict2channel_data. rewrite Htype.
  rewrite lookup_delete_ne by done. by rewrite Hname, Hlast.
Qed.

(** X22: for a dictionary with [str] values under 'type' and
    'task_name', [dict2channel_data] returns as group name the part of the
    task name after its last dot, and a dictionary whose 'type' is that
    part without underscores, a dot, and the original type without dashes
    (so the text before the first dot has neither dot nor underscore);
    'task_name' is not passed on, every other key is, with its value.  The
    caller's dictionary loses both keys. *)
Theorem dict2channel_data_returns (task_dict : task.Dict)
    (orig_type orig_task_name : string) :
  task_dict !! "type" = Some (task.Str orig_type) →
  task_dict !! "task_name" = Some (task.Str orig_task_name) →
  ∃ group ret_dict,
    task.dict2channel_data task_dict
    = (task.Returns (group, ret_dict),
       delete "task_name" (delete "type" task_dict))
    ∧ ("."%char ∉ chars group)
    ∧ (orig_task_name = group
       ∨ ∃ prefix, orig_task_name = prefix +:+ "." +:+ group)
    ∧ ret_dict !! "type"
      = Some (task.Str (task.replace "_" "" group +:+ "."
                        +:+ task.replace "-" "" orig_type))
    ∧ ("_"%char ∉ chars (task.replace "_" "" group))
    ∧ ("."%char ∉ chars (task.replace "_" "" group))
    ∧ ("-"%char ∉ chars (task.replace "-" "" orig_type))
    ∧ ret_dict !! "task_name" = None
    ∧ ∀ key, key ≠ "type" → key ≠ "task_name" →
        ret_dict !! key = task_dict !! key.
Proof.
  intros Htype Hname.
  destruct (split_last orig_task_name) as (group & Hlast & Hdot & Hfull).
  eexists group, _. split.
  { by apply (dict2channel_data_run _ orig_type orig_task_name). }
  split; [done|]. split; [done|]. split.
  { rewrite lookup_union_r; [by rewrite lookup_singleton_eq|].
    rewrite lookup_delete_ne by done. by rewrite lookup_delete_eq. }
  split; [apply replace_empty_absent|].
  split; [by apply replace_empty_keeps_absent|].
  split; [apply replace_empty_absent|]. split.
  { apply lookup_union_None. split; [by rewrite lookup_delete_eq|].
    by rewrite lookup_singleton_ne. }
  intros key Hkey1 Hkey2.
  destruct (task_dict !! key) as [x|] eqn:Hx.
  - apply lookup_union_Some_l. by rewrite !lookup_delete_ne.
  - apply lookup_union_None. rewrite !lookup_delete_ne by done.
    split; [done|]. by rewrite lookup_singleton_ne.
Qed.

Lemma dict2channel_data_returns_witness :
  ∃ group ret_dict,
    task.dict2channel_data
      {[ "type" := task.Str "task-received";
         "task_name" := task.Str "papermerge.core.tasks.ocr_document_task";
         "document_id" := task.Int 3 ]}
    = (task.Returns (group, ret_dict), {[ "document_id" := task.Int 3 ]})
    ∧ group = "ocr_document_task"
    ∧ ret_dict !! "type" = Some (task.Str "ocrdocumenttask.taskreceived")
    ∧ ret_dict !! "task_name" = None
    ∧ ret_dict !! "document_id" = Some (task.Int 3).
Proof.
  destruct (dict2channel_data_returns
    {[ "type" := task.Str "task-received";
       "task_name" := task.Str "papermerge.core.tasks.ocr_document_task";
       "document_id" := task.Int 3 ]}
    "task-received" "papermerge.core.tasks.ocr_document_task")
    as (group & ret_dict & Hrun & _ & _ & Htype & _ & _ & _ & Hname & Hrest).
  - reflexivity.
  - reflexivity.
  - exists group, ret_dict.
    assert (group = "ocr_document_task") as Hgroup.
    { rewrite (dict2channel_data_run _ "task-received"
                 "papermerge.core.tasks.ocr_document_task"
                 "ocr_document_task") in Hrun by reflexivity.
      by injection Hrun as <- _. }
    split.
    { rewrite Hrun. by f_equal. }
    split; [done|]. subst group. split; [exact Htype|]. split; [done|].
    by rewrite Hrest.
Defined.

(** X23: [dict2channel_data] raises [KeyError] for a dictionary without
    'type' (which it leaves as it is) and for one without 'task_name' (from
    which it has then removed 'type'); a value under either key that is not
    a [str] gives [AttributeError], after both keys are removed.  Since the
    keys are popped from the caller's dictionary, a second call on the same
    dictionary after a successful one raises [KeyError]. *)
Theorem dict2channel_data_raises (task_dict : task.Dict) :
  (task_dict !! "type" = None →
   task.dict2channel_data task_dict
   = (task.Raises (task.KeyError "type"), task_dict))
  ∧ (is_Some (task_dict !! "type") →
     task_dict !! "task_name" = None →
     task.dict2channel_data task_dict
     = (task.Raises (task.KeyError "task_name"), delete "type" task_dict))
  ∧ (∀ orig_type orig_task_name,
       task_dict !! "type" = Some orig_type →
       task_dict !! "task_name" = Some orig_task_name →
       (∀ s, orig_type ≠ task.Str s) ∨ (∀ s, orig_task_name ≠ task.Str s) →
       task.dict2channel_data task_dict
       = (task.Raises task.AttributeError,
          delete "task_name" (delete "type" task_dict)))
  ∧ (∀ result task_dict',
       task.dict2channel_data task_dict = (task.Returns result, task_dict') →
       task_dict' = delete "task_name" (delete "type" task_dict)
       ∧ task.dict2channel_data task_dict'
         = (task.Raises (task.KeyError "type"), task_dict')).
Proof.
  split_and!.
  - intros Htype. unfold task.dict2channel_data. by rewrite Htype.
  - intros [t Htype] Hname. unfold task.dict2channel_data. rewrite Htype.
    rewrite lookup_delete_ne by done. by rewrite Hname.
  - intros t n Htype Hname Hbad. unfold task.dict2channel_data.
    rewrite Htype. rewrite lookup_delete_ne by done. rewrite Hname.
    destruct n as [n| |]; try done.
    destruct (split_last n) as (group & -> & _).
    destruct t as [t| |]; try done.
    destruct Hbad as [Hbad|Hbad]; by destruct (Hbad _ eq_refl).
  - intros result task_dict'. unfold task.dict2channel_data at 1.
    destruct (task_dict !! "type") as [t|] eqn:Htype; [|done].
    rewrite lookup_delete_ne by done.
    destruct (task_dict !! "task_name") as [n|] eqn:Hname; [|done].
    destruct n as [n| |]; try done.
    destruct (split_last n) as (group & -> & _).
    destruct t as [t| |]; try done.
    intros [= _ <-]. split; [done|].
    unfold task.dict2channel_data.
    rewrite lookup_delete_ne by done. by rewrite lookup_delete_eq.
Qed.

(** X24: for a task built with a non-empty name and keyword arguments
    that hold a [str] 'type' and no 'task_name', the group name that
    [dict2channel_data] returns for [dict(task)] is the task's channel
    group name, and the keyword arguments other than 'type' are passed on
    as they are.  Built with an empty name or [None], the task has no
    'task_name' and the call raises [KeyError]. *)
Theorem task_channel_group (full : string) (kwargs : task.Dict)
    (orig_type : string) :
  full ≠ "" →
  kwargs !! "type" = Some (task.Str orig_type) →
  kwargs !! "task_name" = None →
  ∃ group ret_dict,
    task.channel_group_name (task.__init__ (Some full) kwargs)
    = task.Returns group
    ∧ (task.dict2channel_data
         (task.dict (task.__init__ (Some full) kwargs))).1
      = task.Returns (group, ret_dict)
    ∧ ret_dict !! "type"
      = Some (task.Str (task.replace "_" "" group +:+ "."
                        +:+ task.replace "-" "" orig_type))
    ∧ (∀ key, key ≠ "type" → ret_dict !! key = kwargs !! key)
    ∧ (∀ name, task.truthy name = false →
         (task.dict2channel_data (task.dict (task.__init__ name kwargs))).1
         = task.Raises (task.KeyError "task_name")).
Proof.
  intros Hfull Htype Hname.
  assert (task.dict (task.__init__ (Some full) kwargs)
          = kwargs ∪ {[ "task_name" := task.Str full ]}) as Hdict.
  { unfold task.dict, task.__init__. simpl. by destruct full. }
  destruct (split_last full) as (group & Hlast & _ & _).
  eexists group, _. split; [exact Hlast|]. split.
  { rewrite Hdict.
    rewrite (dict2channel_data_run _ orig_type full group); [done| | |done].
    - by apply lookup_union_Some_l.
    - rewrite lookup_union_r by done. by rewrite lookup_singleton_eq. }
  split.
  { rewrite lookup_union_r; [by rewrite lookup_singleton_eq|].
    rewrite lookup_delete_ne by done. by rewrite lookup_delete_eq. }
  split.
  - intros key Hkey. destruct (decide (key = "task_name")) as [->|Hne].
    + rewrite Hname. apply lookup_union_None.
      split; [by rewrite lookup_delete_eq|by rewrite lookup_singleton_ne].
    + destruct (kwargs !! key) as [x|] eqn:Hx.
      * apply lookup_union_Some_l. rewrite !lookup_delete_ne by done.
        by apply lookup_union_Some_l.
      * apply lookup_union_None. rewrite !lookup_delete_ne by done.
        split; [|by rewrite lookup_singleton_ne].
        apply lookup_union_None. split; [done|].
        by rewrite lookup_singleton_ne.
  - intros name Hfalsy.
    assert (task.dict (task.__init__ name kwargs) = kwargs ∪ ∅) as ->.
    { unfold task.dict, task.__init__. simpl.
      by destruct name as [[|c n]|]. }
    rewrite (right_id_L ∅ (∪)).
    unfold task.dict2channel_data. rewrite Htype.
    rewrite lookup_delete_ne by done. by rewrite Hname.
Qed.

Lemma task_channel_group_witness :
  ∃ group ret_dict,
    task.channel_group_name
      (task.__init__ (Some "papermerge.core.tasks.ocr_document_task")
         {[ "type" := task.Str "task-received" ]})
    = task.Returns group
    ∧ (task.dict2channel_data
         (task.dict
            (task.__init__ (Some "papermerge.core.tasks.ocr_document_task")
               {[ "type" := task.Str "task-received" ]}))).1
      = task.Returns (group, ret_dict)
    ∧ ret_dict !! "type"
      = Some (task.Str (task.replace "_" "" group +:+ "."
                        +:+ task.replace "-" "" "task-received"))
    ∧ (∀ key, key ≠ "type" →
         ret_dict !! key
         = ({[ "type" := task.Str "task-received" ]} : task.Dict) !! key)
    ∧ (∀ name, task.truthy name = false →
         (task.dict2channel_data
            (task.dict
               (task.__init__ name
                  {[ "type" := task.Str "task-received" ]}))).1
         = task.Raises (task.KeyError "task_name")).
Proof.
  apply (task_channel_group "papermerge.core.tasks.ocr_document_task"
           {[ "type" := task.Str "task-received" ]} "task-received").
  - discriminate.
  - reflexivity.
  - reflexivity.
Defined.
